(** * BananaPod canvas editor: element model, hit-testing, history and
      pointer interaction, embedded from [utils/elementUtils.ts] and the
      main [App] component.

    JavaScript numbers are modelled as exact rationals ([Q]): every test
    below is a comparison or a ring operation, and the only division is
    the aspect ratio of the resize handler and the coordinate transform.
    Division by zero (JS [Infinity]/[NaN]) is outside the model; no
    statement below is evaluated at such an input.  Sums, differences
    and quotients are exact here where the code rounds them to a
    double: a statement names the expression the code evaluates. *)

From Stdlib Require Import QArith Qminmax Qabs List String Ascii Bool Arith Lia Lqa.
From Stdlib Require Import Permutation NArith DecimalString DecimalN.
Import ListNotations.
Local Open Scope string_scope.
Local Open Scope list_scope.
Local Open Scope Q_scope.

(** ** Numbers *)

Definition num_le (a b : Q) : bool := Qle_bool a b.          (* a <= b *)
Definition num_ge (a b : Q) : bool := Qle_bool b a.          (* a >= b *)
Definition num_lt (a b : Q) : bool := negb (Qle_bool b a).   (* a <  b *)
Definition num_gt (a b : Q) : bool := negb (Qle_bool a b).   (* a >  b *)

(** [v || 0] on a number: [0] is the only falsy rational. *)
Definition orZero (v : Q) : Q := if Qeq_bool v 0 then 0 else v.

(** [s.includes(c)] for a one-character needle. *)
Definition includes (c : ascii) (s : string) : bool :=
  existsb (Ascii.eqb c) (list_ascii_of_string s).

(** Truthiness of a nullable string: neither [null] nor empty. *)
Definition truthy (o : option string) : bool :=
  match o with
  | Some s => negb (String.eqb s EmptyString)
  | None => false
  end.

(** ** Element model *)

(** Modelled from the spec: [types.ts] is not part of the sources; the
    types of this section ([Point], [Rect], [Tool] and the three element
    records) carry the fields and tags that section 3 of the
    specification lists and that the code reads and writes. *)
Record Point := mkPoint { px : Q; py : Q }.

Record Rect := mkRect { rx : Q; ry : Q; rwidth : Q; rheight : Q }.

Inductive Tool := select | pan | draw | erase | rectangle | circle | triangle.

Record ImageElement := mkImage {
  i_id : string; i_x : Q; i_y : Q; i_width : Q; i_height : Q;
  i_href : string; i_mimeType : string }.

Record ShapeElement := mkShape {
  s_id : string; s_shapeType : Tool;
  s_x : Q; s_y : Q; s_width : Q; s_height : Q;
  s_strokeColor : string; s_strokeWidth : Q; s_fillColor : string }.

Record PathElement := mkPath {
  p_id : string; p_points : list Point;
  p_strokeColor : string; p_strokeWidth : Q; p_x : Q; p_y : Q }.

Inductive Element :=
| Image (i : ImageElement)
| Shape (s : ShapeElement)
| Path (p : PathElement).

Definition Tool_eqb (a b : Tool) : bool :=
  match a, b with
  | select, select | pan, pan | draw, draw | erase, erase
  | rectangle, rectangle | circle, circle | triangle, triangle => true
  | _, _ => false
  end.

Definition isShapeTool (t : Tool) : bool :=
  match t with rectangle | circle | triangle => true | _ => false end.

Definition el_id (e : Element) : string :=
  match e with Image i => i_id i | Shape s => s_id s | Path p => p_id p end.

Definition el_x (e : Element) : Q :=
  match e with Image i => i_x i | Shape s => s_x s | Path p => p_x p end.

Definition el_y (e : Element) : Q :=
  match e with Image i => i_y i | Shape s => s_y s | Path p => p_y p end.

(** [{...el, id}] *)
Definition withId (e : Element) (id : string) : Element :=
  match e with
  | Image i => Image (mkImage id (i_x i) (i_y i) (i_width i) (i_height i) (i_href i) (i_mimeType i))
  | Shape s => Shape (mkShape id (s_shapeType s) (s_x s) (s_y s) (s_width s) (s_height s)
                        (s_strokeColor s) (s_strokeWidth s) (s_fillColor s))
  | Path p => Path (mkPath id (p_points p) (p_strokeColor p) (p_strokeWidth p) (p_x p) (p_y p))
  end.

(** [{...el, x, y}] *)
Definition withPos (e : Element) (x y : Q) : Element :=
  match e with
  | Image i => Image (mkImage (i_id i) x y (i_width i) (i_height i) (i_href i) (i_mimeType i))
  | Shape s => Shape (mkShape (s_id s) (s_shapeType s) x y (s_width s) (s_height s)
                        (s_strokeColor s) (s_strokeWidth s) (s_fillColor s))
  | Path p => Path (mkPath (p_id p) (p_points p) (p_strokeColor p) (p_strokeWidth p) x y)
  end.

(** [{...el, x, y, width, height}]; on a path the two extra fields are
    never read by any function below, so only [x] and [y] are kept. *)
Definition withGeom (e : Element) (x y w h : Q) : Element :=
  match e with
  | Image i => Image (mkImage (i_id i) x y w h (i_href i) (i_mimeType i))
  | Shape s => Shape (mkShape (s_id s) (s_shapeType s) x y w h
                        (s_strokeColor s) (s_strokeWidth s) (s_fillColor s))
  | Path p => Path (mkPath (p_id p) (p_points p) (p_strokeColor p) (p_strokeWidth p) x y)
  end.

(** [{...el, points}] *)
Definition withPoints (p : PathElement) (pts : list Point) : PathElement :=
  mkPath (p_id p) pts (p_strokeColor p) (p_strokeWidth p) (p_x p) (p_y p).

(** An image or a shape: the elements that carry a width and a height. *)
Inductive BoxElement :=
| BoxImage (i : ImageElement)
| BoxShape (s : ShapeElement).

Definition box_id (b : BoxElement) : string :=
  match b with BoxImage i => i_id i | BoxShape s => s_id s end.
Definition box_x (b : BoxElement) : Q :=
  match b with BoxImage i => i_x i | BoxShape s => s_x s end.
Definition box_y (b : BoxElement) : Q :=
  match b with BoxImage i => i_y i | BoxShape s => s_y s end.
Definition box_width (b : BoxElement) : Q :=
  match b with BoxImage i => i_width i | BoxShape s => s_width s end.
Definition box_height (b : BoxElement) : Q :=
  match b with BoxImage i => i_height i | BoxShape s => s_height s end.

Definition asBox (e : Element) : option BoxElement :=
  match e with
  | Image i => Some (BoxImage i)
  | Shape s => Some (BoxShape s)
  | Path _ => None
  end.

(** ** Geometry and hit-testing *)

(** The running minimum and maximum of [getElementBounds] and
    [getElementAtPosition]: [(minX, maxX, minY, maxY)] after the loop. *)
Fixpoint extent (pts : list Point) (acc : Q * Q * Q * Q) : Q * Q * Q * Q :=
  match pts with
  | [] => acc
  | p :: rest =>
      let '(minX, maxX, minY, maxY) := acc in
      extent rest (Qmin minX (px p), Qmax maxX (px p), Qmin minY (py p), Qmax maxY (py p))
  end.

Definition getElementBounds (element : Element) : Rect :=
  match element with
  | Image i => mkRect (i_x i) (i_y i) (i_width i) (i_height i)
  | Shape s => mkRect (s_x s) (s_y s) (s_width s) (s_height s)
  | Path p =>
      match p_points p with
      | [] => mkRect 0 0 0 0
      | p0 :: _ =>
          let '(minX, maxX, minY, maxY) :=
            extent (p_points p) (px p0, px p0, py p0, py p0) in
          mkRect minX minY (maxX - minX) (maxY - minY)
      end
  end.

(** The test of one loop iteration of [getElementAtPosition]: [true] when
    the iteration returns the element, [false] when it falls through (or
    [continue]s). *)
Definition matchesAt (x y : Q) (element : Element) : bool :=
  match element with
  | Path p =>
      match p_points p with
      | p0 :: _ :: _ =>
          let '(minX, maxX, minY, maxY) :=
            extent (p_points p) (px p0, px p0, py p0, py p0) in
          num_ge x minX && num_le x maxX && num_ge y minY && num_le y maxY
      | _ => false                      (* points.length < 2: continue *)
      end
  | Image i =>
      num_ge x (i_x i) && num_le x (i_x i + i_width i)
      && num_ge y (i_y i) && num_le y (i_y i + i_height i)
  | Shape s =>
      num_ge x (s_x s) && num_le x (s_x s + s_width s)
      && num_ge y (s_y s) && num_le y (s_y s + s_height s)
  end.

(** [for (let i = n - 1; i >= 0; i--)]: [n] is one past the next index. *)
Fixpoint scanFrom (x y : Q) (elements : list Element) (n : nat) : option Element :=
  match n with
  | O => None
  | S i =>
      match nth_error elements i with
      | Some element => if matchesAt x y element then Some element
                        else scanFrom x y elements i
      | None => scanFrom x y elements i
      end
  end.

Definition getElementAtPosition (x y : Q) (elements : list Element) : option Element :=
  scanFrom x y elements (List.length elements).

(** [createElement(tool, x, y)]; [id] is the value [generateId()] returned. *)
Definition createElement (id : string) (tool : Tool) (x y : Q) : option Element :=
  if isShapeTool tool then
    Some (Shape (mkShape id tool x y 0 0 "#000000" 2 "none"))
  else if Tool_eqb tool draw then
    Some (Path (mkPath id [mkPoint x y] "#000000" 5 0 0))
  else None.

(** ** Application state

    The [useState] variables and [useRef] cells of [App] that the
    handlers below read or write.  [elementsRef.current] is kept equal to
    [elements] by an effect that runs after every render, so one field
    stands for both.  A handler reads the state of the render it was
    created in ([s] below) and its setters take effect for the next one. *)

Inductive Action := none | drawing | moving | resizing.

Definition Action_eqb (a b : Action) : bool :=
  match a, b with
  | none, none | drawing, drawing | moving, moving | resizing, resizing => true
  | _, _ => false
  end.

Record DrawingOptions := mkOptions {
  strokeColor : string; strokeWidth : Q; fillColor : string }.

Record CroppingState := mkCropping {
  elementId : string; originalImage : ImageElement; cropBox : Rect }.

Record ResizeStartInfo := mkResizeStart {
  originalElement : BoxElement; startCanvasPoint : Point;
  handle : string; shiftKey : bool }.

Record CropStartInfo := mkCropStart {
  originalCropBox : Rect; cropStartCanvasPoint : Point }.

(** A value of [dragStartElementPositions]: [{x, y}] or a point list. *)
Inductive DragStart :=
| StartPos (x y : Q)
| StartPoints (pts : list Point).

Record AppState := mkApp {
  history : list (list Element);
  historyIndex : nat;
  elements : list Element;
  selectedElement : option Element;
  clipboard : option Element;
  action : Action;
  activeTool : Tool;
  panOffset : Point;
  zoom : Q;
  drawingOptions : DrawingOptions;
  selectedElementIds : list string;
  selectionBox : option Rect;
  canvasSize : Q;
  error : option string;
  croppingState : option CroppingState;
  isGenerating : bool;
  startPoint : Point;
  currentDrawingElementId : option string;
  resizeStartInfo : option ResizeStartInfo;
  cropStartInfo : option CropStartInfo;
  dragStartElementPositions : list (string * DragStart) }.

Definition setHistory (v : list (list Element)) (s : AppState) : AppState :=
  mkApp v (historyIndex s) (elements s) (selectedElement s) (clipboard s) (action s)
        (activeTool s) (panOffset s) (zoom s) (drawingOptions s) (selectedElementIds s)
        (selectionBox s) (canvasSize s) (error s) (croppingState s) (isGenerating s)
        (startPoint s) (currentDrawingElementId s) (resizeStartInfo s) (cropStartInfo s)
        (dragStartElementPositions s).

Definition setHistoryIndex (v : nat) (s : AppState) : AppState :=
  mkApp (history s) v (elements s) (selectedElement s) (clipboard s) (action s)
        (activeTool s) (panOffset s) (zoom s) (drawingOptions s) (selectedElementIds s)
        (selectionBox s) (canvasSize s) (error s) (croppingState s) (isGenerating s)
        (startPoint s) (currentDrawingElementId s) (resizeStartInfo s) (cropStartInfo s)
        (dragStartElementPositions s).

Definition setElements (v : list Element) (s : AppState) : AppState :=
  mkApp (history s) (historyIndex s) v (selectedElement s) (clipboard s) (action s)
        (activeTool s) (panOffset s) (zoom s) (drawingOptions s) (selectedElementIds s)
        (selectionBox s) (canvasSize s) (error s) (croppingState s) (isGenerating s)
        (startPoint s) (currentDrawingElementId s) (resizeStartInfo s) (cropStartInfo s)
        (dragStartElementPositions s).

Definition setSelectedElement (v : option Element) (s : AppState) : AppState :=
  mkApp (history s) (historyIndex s) (elements s) v (clipboard s) (action s)
        (activeTool s) (panOffset s) (zoom s) (drawingOptions s) (selectedElementIds s)
        (selectionBox s) (canvasSize s) (error s) (croppingState s) (isGenerating s)
        (startPoint s) (currentDrawingElementId s) (resizeStartInfo s) (cropStartInfo s)
        (dragStartElementPositions s).

Definition setClipboard (v : option Element) (s : AppState) : AppState :=
  mkApp (history s) (historyIndex s) (elements s) (selectedElement s) v (action s)
        (activeTool s) (panOffset s) (zoom s) (drawingOptions s) (selectedElementIds s)
        (selectionBox s) (canvasSize s) (error s) (croppingState s) (isGenerating s)
        (startPoint s) (currentDrawingElementId s) (resizeStartInfo s) (cropStartInfo s)
        (dragStartElementPositions s).

Definition setAction (v : Action) (s : AppState) : AppState :=
  mkApp (history s) (historyIndex s) (elements s) (selectedElement s) (clipboard s) v
        (activeTool s) (panOffset s) (zoom s) (drawingOptions s) (selectedElementIds s)
        (selectionBox s) (canvasSize s) (error s) (croppingState s) (isGenerating s)
        (startPoint s) (currentDrawingElementId s) (resizeStartInfo s) (cropStartInfo s)
        (dragStartElementPositions s).

Definition setActiveTool (v : Tool) (s : AppState) : AppState :=
  mkApp (history s) (historyIndex s) (elements s) (selectedElement s) (clipboard s)
        (action s) v (panOffset s) (zoom s) (drawingOptions s) (selectedElementIds s)
        (selectionBox s) (canvasSize s) (error s) (croppingState s) (isGenerating s)
        (startPoint s) (currentDrawingElementId s) (resizeStartInfo s) (cropStartInfo s)
        (dragStartElementPositions s).

Definition setPanOffset (v : Point) (s : AppState) : AppState :=
  mkApp (history s) (historyIndex s) (elements s) (selectedElement s) (clipboard s)
        (action s) (activeTool s) v (zoom s) (drawingOptions s) (selectedElementIds s)
        (selectionBox s) (canvasSize s) (error s) (croppingState s) (isGenerating s)
        (startPoint s) (currentDrawingElementId s) (resizeStartInfo s) (cropStartInfo s)
        (dragStartElementPositions s).

Definition setSelectedElementIds (v : list string) (s : AppState) : AppState :=
  mkApp (history s) (historyIndex s) (elements s) (selectedElement s) (clipboard s)
        (action s) (activeTool s) (panOffset s) (zoom s) (drawingOptions s) v
        (selectionBox s) (canvasSize s) (error s) (croppingState s) (isGenerating s)
        (startPoint s) (currentDrawingElementId s) (resizeStartInfo s) (cropStartInfo s)
        (dragStartElementPositions s).

Definition setSelectionBox (v : option Rect) (s : AppState) : AppState :=
  mkApp (history s) (historyIndex s) (elements s) (selectedElement s) (clipboard s)
        (action s) (activeTool s) (panOffset s) (zoom s) (drawingOptions s)
        (selectedElementIds s) v (canvasSize s) (error s) (croppingState s)
        (isGenerating s) (startPoint s) (currentDrawingElementId s) (resizeStartInfo s)
        (cropStartInfo s) (dragStartElementPositions s).

Definition setError (v : option string) (s : AppState) : AppState :=
  mkApp (history s) (historyIndex s) (elements s) (selectedElement s) (clipboard s)
        (action s) (activeTool s) (panOffset s) (zoom s) (drawingOptions s)
        (selectedElementIds s) (selectionBox s) (canvasSize s) v (croppingState s)
        (isGenerating s) (startPoint s) (currentDrawingElementId s) (resizeStartInfo s)
        (cropStartInfo s) (dragStartElementPositions s).

Definition setCroppingState (v : option CroppingState) (s : AppState) : AppState :=
  mkApp (history s) (historyIndex s) (elements s) (selectedElement s) (clipboard s)
        (action s) (activeTool s) (panOffset s) (zoom s) (drawingOptions s)
        (selectedElementIds s) (selectionBox s) (canvasSize s) (error s) v
        (isGenerating s) (startPoint s) (currentDrawingElementId s) (resizeStartInfo s)
        (cropStartInfo s) (dragStartElementPositions s).

Definition setIsGenerating (v : bool) (s : AppState) : AppState :=
  mkApp (history s) (historyIndex s) (elements s) (selectedElement s) (clipboard s)
        (action s) (activeTool s) (panOffset s) (zoom s) (drawingOptions s)
        (selectedElementIds s) (selectionBox s) (canvasSize s) (error s)
        (croppingState s) v (startPoint s) (currentDrawingElementId s)
        (resizeStartInfo s) (cropStartInfo s) (dragStartElementPositions s).

Definition set_startPoint (v : Point) (s : AppState) : AppState :=
  mkApp (history s) (historyIndex s) (elements s) (selectedElement s) (clipboard s)
        (action s) (activeTool s) (panOffset s) (zoom s) (drawingOptions s)
        (selectedElementIds s) (selectionBox s) (canvasSize s) (error s)
        (croppingState s) (isGenerating s) v (currentDrawingElementId s)
        (resizeStartInfo s) (cropStartInfo s) (dragStartElementPositions s).

Definition set_currentDrawingElementId (v : option string) (s : AppState) : AppState :=
  mkApp (history s) (historyIndex s) (elements s) (selectedElement s) (clipboard s)
        (action s) (activeTool s) (panOffset s) (zoom s) (drawingOptions s)
        (selectedElementIds s) (selectionBox s) (canvasSize s) (error s)
        (croppingState s) (isGenerating s) (startPoint s) v (resizeStartInfo s)
        (cropStartInfo s) (dragStartElementPositions s).

Definition set_resizeStartInfo (v : option ResizeStartInfo) (s : AppState) : AppState :=
  mkApp (history s) (historyIndex s) (elements s) (selectedElement s) (clipboard s)
        (action s) (activeTool s) (panOffset s) (zoom s) (drawingOptions s)
        (selectedElementIds s) (selectionBox s) (canvasSize s) (error s)
        (croppingState s) (isGenerating s) (startPoint s) (currentDrawingElementId s) v
        (cropStartInfo s) (dragStartElementPositions s).

Definition set_cropStartInfo (v : option CropStartInfo) (s : AppState) : AppState :=
  mkApp (history s) (historyIndex s) (elements s) (selectedElement s) (clipboard s)
        (action s) (activeTool s) (panOffset s) (zoom s) (drawingOptions s)
        (selectedElementIds s) (selectionBox s) (canvasSize s) (error s)
        (croppingState s) (isGenerating s) (startPoint s) (currentDrawingElementId s)
        (resizeStartInfo s) v (dragStartElementPositions s).

Definition set_dragStartElementPositions (v : list (string * DragStart)) (s : AppState)
  : AppState :=
  mkApp (history s) (historyIndex s) (elements s) (selectedElement s) (clipboard s)
        (action s) (activeTool s) (panOffset s) (zoom s) (drawingOptions s)
        (selectedElementIds s) (selectionBox s) (canvasSize s) (error s)
        (croppingState s) (isGenerating s) (startPoint s) (currentDrawingElementId s)
        (resizeStartInfo s) (cropStartInfo s) v.

(** [useState] initial values; the refs start at the origin, [null] and
    an empty map. *)
Definition initialState : AppState :=
  mkApp [[]] 0%nat [] None None none select (mkPoint 0 0) 1
        (mkOptions "#000000" 5 "none") [] None 100 None None false
        (mkPoint 0 0) None None None [].

(** ** History stack *)

Definition commitAction (newElements : list Element) (s : AppState) : AppState :=
  let newHistory := firstn (S (historyIndex s)) (history s) ++ [newElements] in
  setHistoryIndex (List.length newHistory - 1)%nat (setHistory newHistory s).

(** [history[i]]: inside the history whenever [historyIndex] is; an index
    past the end, where JS reads [undefined], does not arise from the
    handlers and is given the empty document. *)
Definition snapshotAt (s : AppState) (i : nat) : list Element :=
  nth i (history s) [].

Definition handleUndo (s : AppState) : AppState :=
  if (0 <? historyIndex s)%nat then
    let newIndex := (historyIndex s - 1)%nat in
    setElements (snapshotAt s newIndex) (setHistoryIndex newIndex s)
  else s.

Definition handleRedo (s : AppState) : AppState :=
  if (historyIndex s <? List.length (history s) - 1)%nat then
    let newIndex := (historyIndex s + 1)%nat in
    setElements (snapshotAt s newIndex) (setHistoryIndex newIndex s)
  else s.

(** [canRedo] as passed to the toolbar. *)
Definition canRedo (s : AppState) : bool :=
  (historyIndex s <? List.length (history s) - 1)%nat.

(** [setElements(newElements); commitAction(newElements)]: the pair of
    calls by which every editing command ([handleLoad], [handleClear],
    [handlePaste], ...) replaces the document. *)
Definition replaceDocument (newElements : list Element) (s : AppState) : AppState :=
  commitAction newElements (setElements newElements s).

(** [n] applications of a handler. *)
Fixpoint times (n : nat) (f : AppState -> AppState) (s : AppState) : AppState :=
  match n with
  | O => s
  | S k => times k f (f s)
  end.

(** ** Pointer events *)

Record PointerEvent := mkEvent {
  clientX : Q; clientY : Q; eventShiftKey : bool;
  dataHandle : option string      (* target.getAttribute('data-handle') *) }.

(** [svgRef.current?.getBoundingClientRect()]: its [left] and [top]. *)
Record DOMRect := mkDOMRect { rectLeft : Q; rectTop : Q }.

Definition toCanvas (s : AppState) (rect : DOMRect) (event : PointerEvent) : Point :=
  let scaleFactor := canvasSize s / 100 in
  mkPoint (((clientX event - rectLeft rect) / scaleFactor - px (panOffset s)) / zoom s)
          (((clientY event - rectTop rect) / scaleFactor - py (panOffset s)) / zoom s).

(** [Map.prototype.set] and [get] on [dragStartElementPositions]. *)
Fixpoint mapSet (k : string) (v : DragStart) (m : list (string * DragStart))
  : list (string * DragStart) :=
  match m with
  | [] => [(k, v)]
  | (k', v') :: rest =>
      if String.eqb k' k then (k, v) :: rest else (k', v') :: mapSet k v rest
  end.

Fixpoint mapGet (k : string) (m : list (string * DragStart)) : option DragStart :=
  match m with
  | [] => None
  | (k', v) :: rest => if String.eqb k' k then Some v else mapGet k rest
  end.

(** [elements.filter(el => el.id !== id)] *)
Definition removeId (id : string) (els : list Element) : list Element :=
  filter (fun el => negb (String.eqb (el_id el) id)) els.

(** [selectedElement && selectedElement.id === id] *)
Definition selectedIs (s : AppState) (id : string) : bool :=
  match selectedElement s with
  | Some sel => String.eqb (el_id sel) id
  | None => false
  end.

(** The deselection both erase branches perform after a deletion. *)
Definition deselectErased (s : AppState) (id : string) (s' : AppState) : AppState :=
  if selectedIs s id then setSelectedElementIds [] (setSelectedElement None s') else s'.

(** The guard of the resize branch of [handleMouseDown]:
    [handleName && selectedElement && (type is image or shape)]. *)
Definition resizeTarget (s : AppState) (event : PointerEvent) : option (string * BoxElement) :=
  match dataHandle event, selectedElement s with
  | Some h, Some sel =>
      if truthy (Some h) then
        match asBox sel with Some b => Some (h, b) | None => None end
      else None
  | _, _ => None
  end.

Definition handleMouseDown (fresh : string) (rect : option DOMRect)
           (event : PointerEvent) (s : AppState) : AppState :=
  match rect with
  | None => s
  | Some r =>
    let c := toCanvas s r event in
    let s0 := set_startPoint c s in
    match croppingState s with
    | Some cs => set_cropStartInfo (Some (mkCropStart (cropBox cs) c)) s0
    | None =>
      match activeTool s with
      | select =>
          match resizeTarget s event with
          | Some (h, b) =>
              set_resizeStartInfo (Some (mkResizeStart b c h (eventShiftKey event)))
                (setAction resizing s0)
          | None =>
              match getElementAtPosition (px c) (py c) (elements s) with
              | Some clicked =>
                  let start := match clicked with
                               | Path p => StartPoints (p_points p)
                               | _ => StartPos (el_x clicked) (el_y clicked)
                               end in
                  set_dragStartElementPositions
                    (mapSet (el_id clicked) start (dragStartElementPositions s))
                    (setAction moving
                       (setSelectedElementIds [el_id clicked]
                          (setSelectedElement (Some clicked) s0)))
              | None =>
                  setSelectionBox (Some (mkRect (px c) (py c) 0 0))
                    (setAction drawing
                       (setSelectedElementIds [] (setSelectedElement None s0)))
              end
          end
      | pan =>
          set_startPoint (mkPoint (clientX event) (clientY event)) (setAction moving s0)
      | draw =>
          let s1 := setAction drawing s0 in
          match createElement fresh draw (px c) (py c) with
          | Some (Path p) =>
              let newElement :=
                Path (mkPath (p_id p) [mkPoint (px c) (py c)]
                        (strokeColor (drawingOptions s)) (strokeWidth (drawingOptions s))
                        (p_x p) (p_y p)) in
              setElements (elements s ++ [newElement])
                (set_currentDrawingElementId (Some (p_id p)) s1)
          | _ => s1
          end
      | erase =>
          let s1 := setAction drawing s0 in
          match getElementAtPosition (px c) (py c) (elements s) with
          | Some elementToErase =>
              let newElements := removeId (el_id elementToErase) (elements s) in
              deselectErased s (el_id elementToErase)
                (commitAction newElements (setElements newElements s1))
          | None => s1
          end
      | _ =>                              (* rectangle, circle, triangle *)
          let s1 := setAction drawing s0 in
          match createElement fresh (activeTool s) (px c) (py c) with
          | Some (Shape sh) =>
              let newElement :=
                Shape (mkShape (s_id sh) (s_shapeType sh) (s_x sh) (s_y sh)
                         (s_width sh) (s_height sh)
                         (strokeColor (drawingOptions s)) (strokeWidth (drawingOptions s))
                         (fillColor (drawingOptions s))) in
              setElements (elements s ++ [newElement])
                (set_currentDrawingElementId (Some (s_id sh)) s1)
          | _ => s1
          end
      end
    end
  end.

(** The geometry the resizing branch of [handleMouseMove] computes:
    [(newX, newY, newWidth, newHeight)], each [let] rebinding one of the
    source's mutable locals in source order. *)
Definition resizeGeometry (info : ResizeStartInfo) (canvas : Point) : Q * Q * Q * Q :=
  let o := originalElement info in
  let h := handle info in
  let dx := px canvas - px (startCanvasPoint info) in
  let dy := py canvas - py (startCanvasPoint info) in
  let newX := box_x o in
  let newY := box_y o in
  let newWidth := box_width o in
  let newHeight := box_height o in
  let '(newX, newWidth) :=
    if includes "l" h then (box_x o + dx, box_width o - dx) else (newX, newWidth) in
  let newWidth := if includes "r" h then box_width o + dx else newWidth in
  let '(newY, newHeight) :=
    if includes "t" h then (box_y o + dy, box_height o - dy) else (newY, newHeight) in
  let newHeight := if includes "b" h then box_height o + dy else newHeight in
  let minSize := 10 in
  let '(newX, newWidth) :=
    if num_lt newWidth minSize then
      ((if includes "l" h then box_x o + box_width o - minSize else newX), minSize)
    else (newX, newWidth) in
  let '(newY, newHeight) :=
    if num_lt newHeight minSize then
      ((if includes "t" h then box_y o + box_height o - minSize else newY), minSize)
    else (newY, newHeight) in
  if shiftKey info then
    let aspectRatio := box_width o / box_height o in
    if includes "t" h || includes "b" h then
      let newWidth := newHeight * aspectRatio in
      let newX := if includes "l" h then box_x o + box_width o - newWidth else newX in
      (newX, newY, newWidth, newHeight)
    else
      let newHeight := newWidth / aspectRatio in
      let newY := if includes "t" h then box_y o + box_height o - newHeight else newY in
      (newX, newY, newWidth, newHeight)
  else (newX, newY, newWidth, newHeight).

(** [elements.map(f)] for a callback that may throw: [None] is the
    uncaught [TypeError]. *)
Fixpoint mapThrow (f : Element -> option Element) (els : list Element)
  : option (list Element) :=
  match els with
  | [] => Some []
  | el :: rest =>
      match f el with
      | Some el' =>
          match mapThrow f rest with
          | Some rest' => Some (el' :: rest')
          | None => None
          end
      | None => None
      end
  end.

(** The callback of the moving branch.  The entry of the drag map is
    read with an unchecked cast: a missing entry makes the callback
    throw, and so does, on a path, an entry that is no point list.  An
    image or shape whose entry is a point list (it would need two
    elements of one id) falls outside the number model and is treated
    as a throw as well. *)
Definition dragged (s : AppState) (dx dy : Q) (sel el : Element) : option Element :=
  if String.eqb (el_id el) (el_id sel) then
    match el, mapGet (el_id el) (dragStartElementPositions s) with
    | Path p, Some (StartPoints originalPoints) =>
        Some (Path (withPoints p
                      (map (fun q => mkPoint (px q + dx) (py q + dy)) originalPoints)))
    | Path _, _ => None
    | _, Some (StartPos ox oy) => Some (withPos el (ox + dx) (oy + dy))
    | _, _ => None
    end
  else Some el.

(** The sign-corrected rectangle spanned by the start point and the
    current point (rubber band and shape drawing). *)
Definition spanRect (start c : Point) : Rect :=
  let width := px c - px start in
  let height := py c - py start in
  mkRect (if num_lt width 0 then px c else px start)
         (if num_lt height 0 then py c else py start)
         (Qabs width) (Qabs height).

Definition idIs (o : option string) (el : Element) : bool :=
  match o with
  | Some id => String.eqb (el_id el) id
  | None => false
  end.

Definition handleMouseMove (rect : option DOMRect) (event : PointerEvent)
           (s : AppState) : AppState :=
  match rect with
  | None => s
  | Some r =>
    let c := toCanvas s r event in
    match croppingState s, cropStartInfo s with
    | Some cs, Some info =>
        let dx := px c - px (cropStartCanvasPoint info) in
        let dy := py c - py (cropStartCanvasPoint info) in
        setCroppingState
          (Some (mkCropping (elementId cs) (originalImage cs)
                   (mkRect (rx (originalCropBox info) + dx) (ry (originalCropBox info) + dy)
                           (rwidth (originalCropBox info)) (rheight (originalCropBox info)))))
          s
    | _, _ =>
      match action s, selectedElement s, activeTool s, resizeStartInfo s with
      | moving, Some sel, select, _ =>
          let dx := px c - px (startPoint s) in
          let dy := py c - py (startPoint s) in
          match mapThrow (dragged s dx dy sel) (elements s) with
          | Some newElements => setElements newElements s
          | None => s                   (* thrown before any setter ran *)
          end
      | resizing, _, _, Some info =>
          let '(newX, newY, newWidth, newHeight) := resizeGeometry info c in
          setElements
            (map (fun el =>
                    if String.eqb (el_id el) (box_id (originalElement info))
                    then withGeom el newX newY newWidth newHeight else el)
                 (elements s))
            s
      | drawing, _, select, _ =>
          setSelectionBox (Some (spanRect (startPoint s) c)) s
      | moving, _, pan, _ =>
          let dx := clientX event - px (startPoint s) in
          let dy := clientY event - py (startPoint s) in
          set_startPoint (mkPoint (clientX event) (clientY event))
            (setPanOffset (mkPoint (px (panOffset s) + dx) (py (panOffset s) + dy)) s)
      | drawing, _, tool, _ =>
          if Tool_eqb tool draw && truthy (currentDrawingElementId s) then
            setElements
              (map (fun el =>
                      if idIs (currentDrawingElementId s) el then
                        match el with
                        | Path p => Path (withPoints p (p_points p ++ [c]))
                        | _ => el
                        end
                      else el)
                   (elements s))
              s
          else if Tool_eqb tool erase then
            match getElementAtPosition (px c) (py c) (elements s) with
            | Some elementToErase =>
                deselectErased s (el_id elementToErase)
                  (setElements (removeId (el_id elementToErase) (elements s)) s)
            | None => s
            end
          else if truthy (currentDrawingElementId s) then
            setElements
              (map (fun el =>
                      if idIs (currentDrawingElementId s) el then
                        match el with
                        | Shape sh =>
                            let b := spanRect (startPoint s) c in
                            withGeom el (rx b) (ry b) (rwidth b) (rheight b)
                        | _ => el
                        end
                      else el)
                   (elements s))
              s
          else s
      | _, _, _, _ => s
      end
    end
  end.

Definition isElementInSelectionBox (element : Element) (box : Rect) : bool :=
  match element with
  | Path p =>
      existsb (fun point =>
                 num_ge (px point) (rx box) && num_le (px point) (rx box + rwidth box)
                 && num_ge (py point) (ry box) && num_le (py point) (ry box + rheight box))
              (p_points p)
  | Image i =>
      num_lt (i_x i) (rx box + rwidth box)
      && num_gt (i_x i + orZero (i_width i)) (rx box)
      && num_lt (i_y i) (ry box + rheight box)
      && num_gt (i_y i + orZero (i_height i)) (ry box)
  | Shape sh =>
      num_lt (s_x sh) (rx box + rwidth box)
      && num_gt (s_x sh + orZero (s_width sh)) (rx box)
      && num_lt (s_y sh) (ry box + rheight box)
      && num_gt (s_y sh + orZero (s_height sh)) (ry box)
  end.

(** The [forEach] of the rubber-band branch, pushing matching ids. *)
Definition boxSelectedIds (els : list Element) (box : Rect) : list string :=
  map el_id (filter (fun element => isElementInSelectionBox element box) els).

(** The clean-up every non-cropping [handleMouseUp] ends with. *)
Definition clearGesture (s : AppState) : AppState :=
  set_resizeStartInfo None
    (set_cropStartInfo None
       (set_dragStartElementPositions []
          (set_currentDrawingElementId None (setAction none s)))).

Definition handleMouseUp (s : AppState) : AppState :=
  match croppingState s, cropStartInfo s with
  | Some _, Some _ => set_cropStartInfo None s
  | _, _ =>
    let s1 :=
      match action s, activeTool s, selectionBox s with
      | drawing, select, Some box =>
          setSelectionBox None
            (setSelectedElementIds (boxSelectedIds (elements s) box) s)
      | _, _, _ =>
        if Action_eqb (action s) drawing && Tool_eqb (activeTool s) draw
           && truthy (currentDrawingElementId s)
        then commitAction (elements s) s
        else if Action_eqb (action s) drawing && Tool_eqb (activeTool s) erase
        then commitAction (elements s) s
        else if Action_eqb (action s) drawing && isShapeTool (activeTool s)
                && truthy (currentDrawingElementId s)
        then commitAction (elements s) s
        else
          match action s, selectedElement s, resizeStartInfo s with
          | moving, Some _, _ => commitAction (elements s) s
          | resizing, _, Some info =>
              let s2 := commitAction (elements s) s in
              match find (fun el => String.eqb (el_id el) (box_id (originalElement info)))
                         (elements s) with
              | Some updatedElement => setSelectedElement (Some updatedElement) s2
              | None => s2
              end
          | _, _, _ => s
          end
      end in
    clearGesture s1
  end.

(** ** Editing commands *)

Definition handleCopy (s : AppState) : AppState :=
  match selectedElement s with
  | Some sel => setClipboard (Some sel) s
  | None => s
  end.

(** [fresh] is the value [generateId()] returned. *)
Definition handlePaste (fresh : string) (s : AppState) : AppState :=
  match clipboard s with
  | Some clip =>
      let newElement := withPos (withId clip fresh) (el_x clip + 10) (el_y clip + 10) in
      replaceDocument (elements s ++ [newElement]) s
  | None => s
  end.

Definition handleDelete (s : AppState) : AppState :=
  match selectedElementIds s with
  | _ :: _ =>
      let newElements :=
        filter (fun el => negb (existsb (String.eqb (el_id el)) (selectedElementIds s)))
               (elements s) in
      setSelectedElementIds [] (setSelectedElement None (replaceDocument newElements s))
  | [] =>
      match selectedElement s with
      | Some sel =>
          setSelectedElement None (replaceDocument (removeId (el_id sel) (elements s)) s)
      | None => s
      end
  end.

(** The invariant of section 3 on paths: [x] and [y] are the 0
    placeholders. *)
Definition pathAtOrigin (e : Element) : bool :=
  match e with
  | Path p => Qeq_bool (p_x p) 0 && Qeq_bool (p_y p) 0
  | _ => true
  end.

(** ** Gestures: pointer-down, pointer-moves, pointer-up *)

Definition gesture (fresh : string) (rect : DOMRect) (down : PointerEvent)
           (moves : list PointerEvent) (s : AppState) : AppState :=
  handleMouseUp
    (fold_left (fun st ev => handleMouseMove (Some rect) ev st) moves
               (handleMouseDown fresh (Some rect) down s)).

(** ** Image-generation adapter *)

(** How a promise settles; a rejection carries the message the outer
    [catch] of the adapter displays. *)
Inductive Settled (A : Type) :=
| Fulfilled (value : A)
| Rejected (message : string).
Arguments Fulfilled {A} value.
Arguments Rejected {A} message.

Record InputImage := mkInput { in_href : string; in_mimeType : string }.

(** The browser as the adapter sees it.  [domThrows] is the message of
    an exception raised synchronously while the canvas and the image
    object are set up; [context2d] tells whether [getContext('2d')] is
    non-null; [loadImage href mime] is the data URL read back after
    [img.onload], or [None] when [img.onerror] fires; [blankPng] is the
    data URL of the white 512x512 canvas. *)
Record Browser := mkBrowser {
  domThrows : option string;
  context2d : bool;
  loadImage : string -> string -> option string;
  blankPng : string }.

Record ServiceResult := mkResult {
  newImageBase64 : option string;
  newImageMimeType : option string;
  textResponse : option string }.

(** [s || fallback] on strings. *)
Definition orString (s fallback : string) : string :=
  if String.eqb s EmptyString then fallback else s.

(** The white space and line terminators [trim] removes, among the
    code units below 256 a string of the model is made of: TAB, LF, VT,
    FF, CR, SP and NBSP.  (The others are U+1680, U+2000 to U+200A,
    U+2028, U+2029, U+202F, U+205F, U+3000 and U+FEFF.) *)
Definition isWhitespace (c : ascii) : bool :=
  let n := nat_of_ascii c in
  ((n =? 32) || ((9 <=? n) && (n <=? 13)) || (n =? 160))%nat.

(** [!prompt.trim()] *)
Definition trimsToEmpty (prompt : string) : bool :=
  forallb isWhitespace (list_ascii_of_string prompt).

(** The [async (el) => ...] callback of the conversion.  The [try] block
    builds a promise and returns it without awaiting it: the [catch]
    block sees only what is thrown while the promise is built, and the
    promise settles the callback's own promise either way. *)
Definition convertImage (b : Browser) (el : ImageElement) : Settled InputImage :=
  if String.prefix "data:" (i_href el) then
    Fulfilled (mkInput (i_href el) (i_mimeType el))
  else
    match domThrows b with
    | Some thrown =>                                         (* catch (error) *)
        if context2d b then Fulfilled (mkInput (blankPng b) "image/png")
        else Rejected thrown                                 (* throw error *)
    | None =>                                                (* return new Promise *)
        let mime := orString (i_mimeType el) "image/png" in
        match loadImage b (i_href el) mime with
        | Some dataUrl => Fulfilled (mkInput dataUrl mime)
        | None => Rejected ("Failed to load image: " ++ i_href el)%string
        end
    end.

(** [Promise.all]: all the values, or the rejection of the first input
    (in list order) that rejects. *)
Fixpoint promiseAll {A : Type} (ps : list (Settled A)) : Settled (list A) :=
  match ps with
  | [] => Fulfilled []
  | Rejected m :: _ => Rejected m
  | Fulfilled a :: rest =>
      match promiseAll rest with
      | Fulfilled l => Fulfilled (a :: l)
      | Rejected m => Rejected m
      end
  end.

Definition selectedImageElements (s : AppState) : list ImageElement :=
  flat_map (fun el =>
              match el with
              | Image i => if existsb (String.eqb (i_id i)) (selectedElementIds s)
                           then [i] else []
              | _ => []
              end)
           (elements s).

(** The input list of the request, or the exception that reaches the
    outer [catch]. *)
Definition gatherInputs (b : Browser) (s : AppState) : Settled (list InputImage) :=
  match selectedImageElements s with
  | [] =>
      match domThrows b with
      | Some thrown => Rejected thrown
      | None => Fulfilled (if context2d b then [mkInput (blankPng b) "image/png"] else [])
      end
  | imgs => promiseAll (map (convertImage b) imgs)
  end.

(** The outer [catch]: the message is shown and the run ends. *)
Definition failGeneration (message : string) (s : AppState) : AppState :=
  setIsGenerating false (setError (Some ("Failed to generate image: " ++ message)%string) s).

(** [handleGenerateArt(prompt)], from the call to the state the run
    leaves once every promise has settled, together with the requests
    that were sent to the service.  The timers that clear the error
    message later are not part of the model. *)
Definition handleGenerateArt (fresh : string) (b : Browser)
           (editImage : list InputImage -> string -> Settled ServiceResult)
           (prompt : string) (s : AppState)
  : AppState * list (list InputImage * string) :=
  if trimsToEmpty prompt then (s, [])
  else
    match gatherInputs b s with
    | Rejected m => (failGeneration m s, [])
    | Fulfilled inputImages =>
        let sent := [(inputImages, prompt)] in
        match editImage inputImages prompt with
        | Rejected m => (failGeneration m s, sent)
        | Fulfilled result =>
            match newImageBase64 result, newImageMimeType result with
            | Some b64, Some mime =>
                if truthy (Some b64) && truthy (Some mime) then
                  let dataUrl := ("data:" ++ mime ++ ";base64," ++ b64)%string in
                  let newImageElement := Image (mkImage fresh 100 100 512 512 dataUrl mime) in
                  (setIsGenerating false (replaceDocument (elements s ++ [newImageElement]) s),
                   sent)
                else
                  (setIsGenerating false
                     (setError (Some (match textResponse result with
                                      | Some t => orString t "Failed to generate image"
                                      | None => "Failed to generate image"
                                      end)) s), sent)
            | _, _ =>
                (setIsGenerating false
                   (setError (Some (match textResponse result with
                                    | Some t => orString t "Failed to generate image"
                                    | None => "Failed to generate image"
                                    end)) s), sent)
            end
        end
    end.

(** ** Specification-side predicates *)

(** [(x, y)] lies in the closed rectangle [r]. *)
Definition inRect (x y : Q) (r : Rect) : Prop :=
  rx r <= x /\ x <= rx r + rwidth r /\ ry r <= y /\ y <= ry r + rheight r.

(** Containment as the hit-test is described: an image or shape by its
    own rectangle, a path by its axis-aligned bounding box. *)
Definition containsAsDescribed (x y : Q) (e : Element) : Prop :=
  inRect x y (getElementBounds e).

(** Containment with the guard of the path branch: a path takes part
    only when it has two points or more. *)
Definition contains (x y : Q) (e : Element) : Prop :=
  inRect x y (getElementBounds e) /\
  match e with
  | Path p => (2 <= List.length (p_points p))%nat
  | _ => True
  end.

(** [r] is the topmost element of [els] that satisfies [P], or nothing
    when no element does. *)
Definition topmost (P : Element -> Prop) (els : list Element) (r : option Element) : Prop :=
  match r with
  | Some e =>
      exists i, nth_error els i = Some e /\ P e /\
                forall j e', (i < j)%nat -> nth_error els j = Some e' -> ~ P e'
  | None => forall e, In e els -> ~ P e
  end.

(** The box-membership rule of the rubber band. *)
Definition inSelectionBox (e : Element) (B : Rect) : Prop :=
  match e with
  | Path p =>
      exists pt, In pt (p_points p) /\
                 rx B <= px pt /\ px pt <= rx B + rwidth B /\
                 ry B <= py pt /\ py pt <= ry B + rheight B
  | Image i =>
      i_x i < rx B + rwidth B /\ i_x i + i_width i > rx B /\
      i_y i < ry B + rheight B /\ i_y i + i_height i > ry B
  | Shape sh =>
      s_x sh < rx B + rwidth B /\ s_x sh + s_width sh > rx B /\
      s_y sh < ry B + rheight B /\ s_y sh + s_height sh > ry B
  end.

(** Every field but [id], [x] and [y] agrees. *)
Definition sameFieldsButIdAndPosition (a b : Element) : Prop :=
  withPos (withId a EmptyString) 0 0 = withPos (withId b EmptyString) 0 0.

(** The cursor points into the history. *)
Definition cursorValid (s : AppState) : Prop :=
  (historyIndex s < List.length (history s))%nat.

(** The live document is the snapshot under the cursor. *)
Definition synced (s : AppState) : Prop :=
  elements s = snapshotAt s (historyIndex s).

(** ** Scenarios *)

Definition shapeAt (id : string) (x y w h : Q) : Element :=
  Shape (mkShape id rectangle x y w h "#000000" 2 "none").

(** The document and rubber band of the selection scenario of section 8. *)
Definition rubberBandBox : Rect := mkRect 0 0 100 100.
Definition shapeInside : Element := shapeAt "inside" 10 10 5 5.
Definition shapeOverlapping : Element := shapeAt "overlapping" 95 95 20 20.
Definition shapeOutside : Element := shapeAt "outside" 200 200 10 10.

Definition rubberBandState : AppState :=
  setSelectionBox (Some rubberBandBox)
    (setAction drawing
       (setElements [shapeInside; shapeOverlapping; shapeOutside] initialState)).

(** A one-element document whose element, at (5,5), has been copied. *)
Definition copiedShape : Element := shapeAt "id_0" 5 5 30 20.

Definition copiedState : AppState :=
  handleCopy (setSelectedElement (Some copiedShape)
                (replaceDocument [copiedShape] initialState)).

(** A 20x40 shape, selected, grabbed by its bottom-middle handle with
    shift held at (10,40), and dragged up to (10,5). *)
Definition tallShape : Element := shapeAt "tall" 0 0 20 40.

Definition pageOrigin : DOMRect := mkDOMRect 0 0.

Definition tallSelected : AppState :=
  setSelectedElementIds ["tall"]
    (setSelectedElement (Some tallShape) (replaceDocument [tallShape] initialState)).

Definition tallGrabbed : AppState :=
  handleMouseDown "unused" (Some pageOrigin) (mkEvent 10 40 true (Some "bm")) tallSelected.

Definition tallDragged : AppState :=
  handleMouseMove (Some pageOrigin) (mkEvent 10 5 true None) tallGrabbed.

(** A path drawn from (3,4) to (8,9), clicked with the select tool,
    copied and pasted. *)
Definition pathDrawn : AppState :=
  gesture "path_1" pageOrigin (mkEvent 3 4 false None) [mkEvent 8 9 false None]
          (setActiveTool draw initialState).

Definition pathClicked : AppState :=
  gesture "unused" pageOrigin (mkEvent 5 5 false None) []
          (setActiveTool select pathDrawn).

Definition pathPasted : AppState := handlePaste "path_2" (handleCopy pathClicked).

(** A document of one 20x20 shape with the erase tool active; the
    pointer goes down on the shape at (5,5) and up again. *)
Definition eraseReady : AppState :=
  setActiveTool erase (replaceDocument [shapeAt "dot" 0 0 20 20] initialState).

Definition eraseClicked : AppState :=
  gesture "unused" pageOrigin (mkEvent 5 5 false None) [] eraseReady.

(** What stays fixed while an erase gesture runs its pointer-moves. *)
Definition erasing (s0 s : AppState) : Prop :=
  action s = drawing /\ activeTool s = erase /\ croppingState s = None /\
  history s = history s0 /\ historyIndex s = historyIndex s0.

(** Two selected images, the first inline and the second behind a URL
    that fails to load, in a browser where nothing throws synchronously,
    with a service that would answer with an image. *)
Definition inlineImage : ImageElement :=
  mkImage "img_a" 0 0 64 64 "data:image/png;base64,AAAA" "image/png".

Definition remoteImage : ImageElement :=
  mkImage "img_b" 80 0 64 64 "https://example.com/b.png" "image/png".

Definition twoImagesSelected : AppState :=
  setSelectedElementIds ["img_a"; "img_b"]
    (replaceDocument [Image inlineImage; Image remoteImage] initialState).

Definition offlineBrowser : Browser :=
  mkBrowser None true (fun _ _ => None) "data:image/png;base64,BLANK".

Definition echoService (inputs : list InputImage) (prompt : string) : Settled ServiceResult :=
  Fulfilled (mkResult (Some "BBBB") (Some "image/png") None).

(** A path of one point, as a click with the draw tool leaves it, and a
    path of two points. *)
Definition onePointPath : Element :=
  Path (mkPath "dot" [mkPoint 1 1] "#000000" 5 0 0).

Definition twoPointPath : PathElement :=
  mkPath "stroke" [mkPoint 3 4; mkPoint 8 9] "#000000" 5 0 0.

(** A browser in which every image loads. *)
Definition onlineBrowser : Browser :=
  mkBrowser None true (fun href _ => Some ("data:reencoded," ++ href)%string)
            "data:image/png;base64,BLANK".

(** ** States in the middle of a gesture *)

(** The state a shape tool leaves after pointer-down and any number of
    pointer-moves: the document of [s] with the shape being drawn, of
    geometry [g], on top. *)
Definition drawnShape (s : AppState) (fresh : string) (g : Rect) : Element :=
  Shape (mkShape fresh (activeTool s) (rx g) (ry g) (rwidth g) (rheight g)
           (strokeColor (drawingOptions s)) (strokeWidth (drawingOptions s))
           (fillColor (drawingOptions s))).

Definition shapeDrawing (s : AppState) (fresh : string) (c0 : Point) (g : Rect) : AppState :=
  setElements (elements s ++ [drawnShape s fresh g])
    (set_currentDrawingElementId (Some fresh) (setAction drawing (set_startPoint c0 s))).

(** The same for the draw tool, with the points collected so far. *)
Definition drawnPath (s : AppState) (fresh : string) (pts : list Point) : Element :=
  Path (mkPath fresh pts (strokeColor (drawingOptions s)) (strokeWidth (drawingOptions s))
          0 0).

Definition pathDrawing (s : AppState) (fresh : string) (c0 : Point) (pts : list Point)
  : AppState :=
  setElements (elements s ++ [drawnPath s fresh pts])
    (set_currentDrawingElementId (Some fresh) (setAction drawing (set_startPoint c0 s))).

(** No element of the document carries the id. *)
Definition idUnused (id : string) (els : list Element) : Prop :=
  forall e, In e els -> el_id e <> id.

(** What pointer-down records for the element it hit. *)
Definition dragStartOf (clicked : Element) : DragStart :=
  match clicked with
  | Path p => StartPoints (p_points p)
  | _ => StartPos (el_x clicked) (el_y clicked)
  end.

(** The state of a select-tool drag of [clicked], grabbed at [c0], whose
    document is [X] at the moment. *)
Definition movingState (s : AppState) (clicked : Element) (c0 : Point)
           (X : list Element) : AppState :=
  mkApp (history s) (historyIndex s) X (Some clicked) (clipboard s) moving
        (activeTool s) (panOffset s) (zoom s) (drawingOptions s) [el_id clicked]
        (selectionBox s) (canvasSize s) (error s) (croppingState s) (isGenerating s)
        c0 (currentDrawingElementId s) (resizeStartInfo s) (cropStartInfo s)
        (mapSet (el_id clicked) (dragStartOf clicked) (dragStartElementPositions s)).

(** The document one pointer-move at [c] makes of [X] during that drag. *)
Definition moveTo (s : AppState) (clicked : Element) (c0 c : Point)
           (X : list Element) : list Element :=
  match mapThrow (dragged (movingState s clicked c0 X)
                          (px c - px c0) (py c - py c0) clicked) X with
  | Some newElements => newElements
  | None => X
  end.

(** An element moved by [(dx, dy)]: a path by its points, an image or a
    shape by its position. *)
Definition translated (dx dy : Q) (e : Element) : Element :=
  match e with
  | Path p => Path (withPoints p (map (fun q => mkPoint (px q + dx) (py q + dy)) (p_points p)))
  | _ => withPos e (el_x e + dx) (el_y e + dy)
  end.

(** [id] names one element of the document at most. *)
Definition idNamesOnly (e : Element) (els : list Element) : Prop :=
  forall e', In e' els -> el_id e' = el_id e -> e' = e.



(** The state of a pan gesture: anchor [p] (in screen space), offset [q]. *)
Definition panningState (s : AppState) (p q : Point) : AppState :=
  mkApp (history s) (historyIndex s) (elements s) (selectedElement s) (clipboard s) moving
        (activeTool s) q (zoom s) (drawingOptions s) (selectedElementIds s)
        (selectionBox s) (canvasSize s) (error s) (croppingState s) (isGenerating s)
        p (currentDrawingElementId s) (resizeStartInfo s) (cropStartInfo s)
        (dragStartElementPositions s).

(** The state of a drag of the crop box of [cs], grabbed at [c0], with
    the box at [box] at the moment. *)
Definition croppingDrag (s : AppState) (cs : CroppingState) (c0 : Point) (box : Rect)
  : AppState :=
  mkApp (history s) (historyIndex s) (elements s) (selectedElement s) (clipboard s)
        (action s) (activeTool s) (panOffset s) (zoom s) (drawingOptions s)
        (selectedElementIds s) (selectionBox s) (canvasSize s) (error s)
        (Some (mkCropping (elementId cs) (originalImage cs) box)) (isGenerating s)
        c0 (currentDrawingElementId s) (resizeStartInfo s)
        (Some (mkCropStart (cropBox cs) c0)) (dragStartElementPositions s).

(** ** Cropping commands *)

Definition handleStartCrop (s : AppState) : AppState :=
  match selectedElement s with
  | Some (Image imageElement) =>
      setCroppingState
        (Some (mkCropping (i_id imageElement) imageElement
                 (mkRect (i_x imageElement) (i_y imageElement)
                         (i_width imageElement) (i_height imageElement))))
        s
  | _ => s
  end.

(** The callback of [handleConfirmCrop]'s [map]. *)
Definition cropTo (id : string) (box : Rect) (el : Element) : Element :=
  match el with
  | Image i =>
      if String.eqb (i_id i) id
      then Image (mkImage (i_id i) (rx box) (ry box) (rwidth box) (rheight box)
                    (i_href i) (i_mimeType i))
      else el
  | _ => el
  end.

Definition handleConfirmCrop (s : AppState) : AppState :=
  match croppingState s with
  | Some cs =>
      setCroppingState None
        (replaceDocument (map (cropTo (elementId cs) (cropBox cs)) (elements s)) s)
  | None => setCroppingState None s
  end.

Definition handleCancelCrop (s : AppState) : AppState := setCroppingState None s.

(** ** Layer order and fill colour *)

Inductive LayerAction := front | back | forward | backward.

(** [Array.prototype.findIndex]; [None] is the [-1] of JS. *)
Fixpoint findIndex (f : Element -> bool) (els : list Element) : option nat :=
  match els with
  | [] => None
  | el :: rest => if f el then Some 0%nat else option_map S (findIndex f rest)
  end.

(** [arr.splice(i, 0, e)]: insert before index [i]. *)
Definition insertAt (i : nat) (e : Element) (els : list Element) : list Element :=
  firstn i els ++ e :: skipn i els.

(** [arr.splice(i, 1)]: what is left of the array. *)
Definition removeAt (i : nat) (els : list Element) : list Element :=
  firstn i els ++ skipn (S i) els.

(** The context menu the handler closes is not part of the state
    modelled here. *)
Definition handleLayerAction (id : string) (act : LayerAction) (s : AppState) : AppState :=
  match findIndex (fun el => String.eqb (el_id el) id) (elements s) with
  | None => s
  | Some index =>
      match nth_error (elements s) index with
      | None => s                     (* not reached: the index was found *)
      | Some element =>
          let elementsCopy := removeAt index (elements s) in
          let reordered :=
            match act with
            | front => elementsCopy ++ [element]
            | back => element :: elementsCopy
            | forward =>
                insertAt (Nat.min (List.length elementsCopy) (index + 1)) element elementsCopy
            | backward => insertAt (Nat.max 0 (index - 1)) element elementsCopy
            end in
          replaceDocument reordered s
      end
  end.

(** The callback of [handleFillColorChange]'s [map]. *)
Definition recolour (id newColor : string) (el : Element) : Element :=
  match el with
  | Shape sh =>
      if String.eqb (s_id sh) id
      then Shape (mkShape (s_id sh) (s_shapeType sh) (s_x sh) (s_y sh) (s_width sh)
                    (s_height sh) (s_strokeColor sh) (s_strokeWidth sh) newColor)
      else el
  | _ => el
  end.

Definition handleFillColorChange (id newColor : string) (s : AppState) : AppState :=
  replaceDocument (map (recolour id newColor) (elements s)) s.

(** [elements.filter(el => el.id !== selectedElement.id)] behind the
    floating toolbar's own delete. *)
Definition handleDeleteElement (s : AppState) : AppState :=
  match selectedElement s with
  | Some sel => setSelectedElement None (replaceDocument (removeId (el_id sel) (elements s)) s)
  | None => s
  end.

(** Ids are unique in the document. *)
Definition uniqueIds (els : list Element) : Prop := NoDup (map el_id els).

(** ** Keyboard *)

(** A [keydown] event; [targetIsInput] tells whether its target is an
    [INPUT] or a [TEXTAREA]. *)
Record KeyEvent := mkKey {
  key : string; ctrlKey : bool; metaKey : bool; keyShift : bool; targetIsInput : bool }.

Inductive KeyCommand := KeyUndo | KeyRedo | KeyDelete | KeyNone.

(** Which handler the first [keydown] listener of [App] calls. *)
Definition appKeyCommand (e : KeyEvent) (s : AppState) : KeyCommand :=
  let isTyping := targetIsInput e in
  if (ctrlKey e || metaKey e) && String.eqb (key e) "z" then KeyUndo
  else if (ctrlKey e || metaKey e)
          && (String.eqb (key e) "y" || (keyShift e && String.eqb (key e) "z"))
  then KeyRedo
  else if negb isTyping
          && (String.eqb (key e) "Delete" || String.eqb (key e) "Backspace")
          && (match selectedElement s with Some _ => true | None => false end
              || (0 <? List.length (selectedElementIds s))%nat)
  then KeyDelete
  else KeyNone.

Definition handleKeyDown (e : KeyEvent) (s : AppState) : AppState :=
  match appKeyCommand e s with
  | KeyUndo => handleUndo s
  | KeyRedo => handleRedo s
  | KeyDelete => handleDelete s
  | KeyNone => s
  end.

Definition setCanvasSize (v : Q) (s : AppState) : AppState :=
  mkApp (history s) (historyIndex s) (elements s) (selectedElement s) (clipboard s)
        (action s) (activeTool s) (panOffset s) (zoom s) (drawingOptions s)
        (selectedElementIds s) (selectionBox s) v (error s) (croppingState s)
        (isGenerating s) (startPoint s) (currentDrawingElementId s) (resizeStartInfo s)
        (cropStartInfo s) (dragStartElementPositions s).

(** The second [keydown] listener of [App]: canvas size shortcuts. *)
Definition handleZoomKey (e : KeyEvent) (s : AppState) : AppState :=
  if ctrlKey e || metaKey e then
    if String.eqb (key e) "=" || String.eqb (key e) "+" then
      setCanvasSize (Qmin 200 (canvasSize s + 10)) s
    else if String.eqb (key e) "-" then
      setCanvasSize (Qmax 50 (canvasSize s - 10)) s
    else s
  else s.

(** ** Image files *)

(** A dropped or pasted file as [handleAddImageElement] sees it: its
    media type, the id [generateId()] gives it, and what the decoded
    image reports once [img.onload] fires ([None] when it never does). *)
Record LoadedImage := mkLoaded { imgWidth : Q; imgHeight : Q; imgSrc : string }.

Record DroppedFile := mkFile {
  fileType : string; fileId : string; fileImage : option LoadedImage }.

(** The [img.onload] callback of [handleAddImageElement].  It was
    created by the render whose state is [closure], and it runs on the
    state [st] current at load time: [elements], [history] and
    [historyIndex] in its body are the closure's. *)
Definition imageLoaded (closure : AppState) (f : DroppedFile) (img : LoadedImage)
           (st : AppState) : AppState :=
  let newImageElement :=
    Image (mkImage (fileId f) 100 100 (imgWidth img) (imgHeight img) (imgSrc img)
             (fileType f)) in
  let newElements := elements closure ++ [newImageElement] in
  let newHistory := firstn (S (historyIndex closure)) (history closure) ++ [newElements] in
  setHistoryIndex (List.length newHistory - 1)%nat
    (setHistory newHistory (setElements newElements st)).

(** [handleDrop] in the render of state [closure], followed by the load
    callbacks of its files; [files] lists them in the order in which
    their images finish loading. *)
Definition handleDrop (closure : AppState) (files : list DroppedFile) (st : AppState)
  : AppState :=
  fold_left (fun cur f =>
               if String.prefix "image/" (fileType f) then
                 match fileImage f with
                 | Some img => imageLoaded closure f img cur
                 | None => cur
                 end
               else cur)
            files st.

(** The image files of a drop that load. *)
Definition loadingImages (files : list DroppedFile) : list (DroppedFile * LoadedImage) :=
  flat_map (fun f =>
              if String.prefix "image/" (fileType f) then
                match fileImage f with Some img => [(f, img)] | None => [] end
              else [])
           files.

(** [handleClear]. *)
Definition handleClear (s : AppState) : AppState := replaceDocument [] s.

(** ** Events *)

(** What can happen to the editor: pointer and keyboard events and the
    commands behind its buttons, each with what it takes from outside
    (a generated id, the bounding rectangle of the canvas, the browser
    and the service).  The images of a [Drop] finish loading before the
    next event. *)
Inductive Event :=
| PointerDown (fresh : string) (rect : option DOMRect) (event : PointerEvent)
| PointerMove (rect : option DOMRect) (event : PointerEvent)
| PointerUp
| KeyDown (e : KeyEvent)
| Undo
| Redo
| PickTool (tool : Tool)
| Copy
| Paste (fresh : string)
| Delete
| DeleteElement
| Layer (id : string) (act : LayerAction)
| FillColor (id newColor : string)
| StartCrop
| ConfirmCrop
| CancelCrop
| Clear
| Drop (files : list DroppedFile)
| Generate (fresh : string) (b : Browser)
           (editImage : list InputImage -> string -> Settled ServiceResult)
           (prompt : string).

Definition step (ev : Event) (s : AppState) : AppState :=
  match ev with
  | PointerDown fresh rect event => handleMouseDown fresh rect event s
  | PointerMove rect event => handleMouseMove rect event s
  | PointerUp => handleMouseUp s
  | KeyDown e => handleZoomKey e (handleKeyDown e s)
  | Undo => handleUndo s
  | Redo => handleRedo s
  | PickTool tool => setActiveTool tool s
  | Copy => handleCopy s
  | Paste fresh => handlePaste fresh s
  | Delete => handleDelete s
  | DeleteElement => handleDeleteElement s
  | Layer id act => handleLayerAction id act s
  | FillColor id newColor => handleFillColorChange id newColor s
  | StartCrop => handleStartCrop s
  | ConfirmCrop => handleConfirmCrop s
  | CancelCrop => handleCancelCrop s
  | Clear => handleClear s
  | Drop files => handleDrop s files s
  | Generate fresh b editImage prompt => fst (handleGenerateArt fresh b editImage prompt s)
  end.

Definition run (events : list Event) (s : AppState) : AppState :=
  fold_left (fun st ev => step ev st) events s.

(** The history of [s'] is that of [s], or that of [s] after one commit. *)
Definition atMostOneCommit (s s' : AppState) : Prop :=
  (history s' = history s /\ historyIndex s' = historyIndex s) \/
  (exists d, history s' = firstn (S (historyIndex s)) (history s) ++ [d] /\
             historyIndex s'
             = (List.length (firstn (S (historyIndex s)) (history s) ++ [d]) - 1)%nat).

(** The cursor is inside the history, whose first entry is the empty
    document. *)
Definition historyWellFormed (s : AppState) : Prop :=
  cursorValid s /\ hd_error (history s) = Some [].

(** What the request holds for one selected image: an inline image goes
    through unchanged, and the media type is the element's own or PNG. *)
Definition inputFor (el : ImageElement) (inp : InputImage) : Prop :=
  (String.prefix "data:" (i_href el) = true -> inp = mkInput (i_href el) (i_mimeType el)) /\
  (in_mimeType inp = i_mimeType el \/ in_mimeType inp = "image/png").

(** ** Scenarios of the gestures and commands *)

(** A committed document of a 30x30 shape at (10,10) below a 50x50
    inline image at (100,100); the select tool is active and nothing is
    selected. *)
Definition boxShape : Element := shapeAt "box" 10 10 30 30.

Definition photo : ImageElement :=
  mkImage "photo" 100 100 50 50 "data:image/png;base64,AAAA" "image/png".

Definition shapeAndPhoto : AppState :=
  replaceDocument [boxShape; Image photo] initialState.

Definition photoSelected : AppState :=
  setSelectedElementIds ["photo"] (setSelectedElement (Some (Image photo)) shapeAndPhoto).

(** A pointer event at a page position, without shift, outside any
    resize handle. *)
Definition pointerAt (x y : Q) : PointerEvent := mkEvent x y false None.


(** Three committed documents, the cursor on the second. *)
Definition midHistory : AppState :=
  handleUndo (fold_left (fun st d => replaceDocument d st)
                        [[shapeInside]; [shapeInside; shapeOutside]] initialState).

(** A committed document whose only element is a path of one point. *)
Definition dotOnly : AppState := replaceDocument [onePointPath] initialState.

(** A drop of a PNG, a text file and a JPEG, loading in that order. *)
Definition pngFile : DroppedFile :=
  mkFile "image/png" "file_a" (Some (mkLoaded 640 480 "data:image/png;base64,AAAA")).

Definition textFile : DroppedFile := mkFile "text/plain" "file_t" None.

Definition jpegFile : DroppedFile :=
  mkFile "image/jpeg" "file_b" (Some (mkLoaded 32 32 "data:image/jpeg;base64,BBBB")).

(** A rectangle drawn by a drag, a path drawn by a click, and an undo. *)
Definition drawingSession : list Event :=
  [PickTool rectangle;
   PointerDown "shape_1" (Some pageOrigin) (pointerAt 20 20);
   PointerMove (Some pageOrigin) (pointerAt 60 70);
   PointerUp;
   PickTool draw;
   PointerDown "path_1" (Some pageOrigin) (pointerAt 5 5);
   PointerUp;
   Undo].

(** ** Generated ids *)

(** What one call of [generateId] reads from its environment: the clock
    [Date.now()], a count of milliseconds, and the text
    [Math.random().toString(36)]. *)
Record IdSource := mkIdSource { clock : N; randomText : string }.

(** [`${n}`] for a non-negative integer below 10^21. *)
Definition decimal (n : N) : string := NilEmpty.string_of_uint (N.to_uint n).

(** [`id_${Date.now()}_${Math.random().toString(36).substr(2, 9)}`] *)
Definition generateId (src : IdSource) : string :=
  ("id_" ++ decimal (clock src) ++ "_" ++ substring 2 9 (randomText src))%string.

Fixpoint noUnderscore (s : string) : bool :=
  match s with
  | EmptyString => true
  | String c rest => negb (Ascii.eqb c "_") && noUnderscore rest
  end.

(** Two readings of the environment: one millisecond and one random
    text, and the next millisecond with another random text. *)
Definition sameTick : IdSource := mkIdSource 1700000000000 "0.4fzyo82mvyr".
Definition nextTick : IdSource := mkIdSource 1700000000001 "0.9k2x1c7abq".

(** The same millisecond with another random number, whose text differs
    from the first one after the eleventh character only. *)
Definition sameTickAgain : IdSource := mkIdSource 1700000000000 "0.4fzyo82mvzz".

(** ** What the component's wiring can deliver *)

(** [setDrawingOptions], handed to the toolbar. *)
Definition setDrawingOptions (v : DrawingOptions) (s : AppState) : AppState :=
  mkApp (history s) (historyIndex s) (elements s) (selectedElement s) (clipboard s)
        (action s) (activeTool s) (panOffset s) (zoom s) v (selectedElementIds s)
        (selectionBox s) (canvasSize s) (error s) (croppingState s) (isGenerating s)
        (startPoint s) (currentDrawingElementId s) (resizeStartInfo s) (cropStartInfo s)
        (dragStartElementPositions s).

(** [handleAddImageElement(file)] in the render of state [closure],
    followed by the load callback of its image when it loads. *)
Definition handleAddImageElement (closure : AppState) (f : DroppedFile) (st : AppState)
  : AppState :=
  match fileImage f with
  | Some img => imageLoaded closure f img st
  | None => st
  end.

(** The [paste] listener of the window: the first file of the clipboard
    data, when it is an image. *)
Definition handlePasteFiles (closure : AppState) (files : list DroppedFile) (st : AppState)
  : AppState :=
  match files with
  | f :: _ =>
      if String.prefix "image/" (fileType f) then handleAddImageElement closure f st else st
  | [] => st
  end.

(** [handleUrlUpload(url)], followed by its load callback when the image
    loads; [fresh] is the value [generateId()] returns there.  The flag
    that opens the URL dialog is not part of the state modelled here. *)
Definition handleUrlUpload (fresh url : string) (loaded : option LoadedImage)
           (s : AppState) : AppState :=
  if String.eqb url EmptyString then s
  else
    match loaded with
    | Some img =>
        replaceDocument
          (elements s ++ [Image (mkImage fresh 100 100 (imgWidth img) (imgHeight img)
                                   url "image/png")]) s
    | None => s
    end.

(** The events the rendered component reacts to, each with what it takes
    from outside.  [handlePaste], [handleCopyElement], [handleDeleteElement],
    [handleLayerChange], [handleImageUpload], [handleSave], [handleLoad]
    and [handleClear] are defined by the component but handed to no
    element and called by no handler, so no event reaches them.  Images
    finish loading before the next event. *)
Inductive UserEvent :=
| OnMouseDown (fresh : string) (rect : option DOMRect) (event : PointerEvent)
| OnMouseMove (rect : option DOMRect) (event : PointerEvent)
| OnMouseUp                                   (* [onMouseUp] and [onMouseLeave] *)
| OnKeyDown (e : KeyEvent)
| OnUndo
| OnRedo
| OnPickTool (tool : Tool)
| OnDrawingOptions (options : DrawingOptions)
| OnCanvasSize (size : Q)
| OnDismissError
| OnCopy
| OnDelete
| OnLayer (id : string) (act : LayerAction)
| OnFillColor (id newColor : string)
| OnStartCrop
| OnConfirmCrop
| OnCancelCrop
| OnDrop (files : list DroppedFile)
| OnPasteFiles (files : list DroppedFile)
| OnUpload (file : DroppedFile)
| OnUrlUpload (fresh url : string) (loaded : option LoadedImage)
| OnGenerate (fresh : string) (b : Browser)
             (editImage : list InputImage -> string -> Settled ServiceResult)
             (prompt : string).

Definition react (ev : UserEvent) (s : AppState) : AppState :=
  match ev with
  | OnMouseDown fresh rect event => handleMouseDown fresh rect event s
  | OnMouseMove rect event => handleMouseMove rect event s
  | OnMouseUp => handleMouseUp s
  | OnKeyDown e => handleZoomKey e (handleKeyDown e s)
  | OnUndo => handleUndo s
  | OnRedo => handleRedo s
  | OnPickTool tool => setActiveTool tool s
  | OnDrawingOptions options => setDrawingOptions options s
  | OnCanvasSize size => setCanvasSize size s
  | OnDismissError => setError None s
  | OnCopy => handleCopy s
  | OnDelete => handleDelete s
  | OnLayer id act => handleLayerAction id act s
  | OnFillColor id newColor => handleFillColorChange id newColor s
  | OnStartCrop => handleStartCrop s
  | OnConfirmCrop => handleConfirmCrop s
  | OnCancelCrop => handleCancelCrop s
  | OnDrop files => handleDrop s files s
  | OnPasteFiles files => handlePasteFiles s files s
  | OnUpload file => handleAddImageElement s file s
  | OnUrlUpload fresh url loaded => handleUrlUpload fresh url loaded s
  | OnGenerate fresh b editImage prompt => fst (handleGenerateArt fresh b editImage prompt s)
  end.

Definition session (events : list UserEvent) (s : AppState) : AppState :=
  fold_left (fun st ev => react ev st) events s.

(** ** The elements a state holds *)


















(** ** Sessions *)

(** A path drawn by a click at (1,1), then a click of the select tool on
    that very point. *)
Definition dotSession : list UserEvent :=
  [OnPickTool draw;
   OnMouseDown "dot" (Some pageOrigin) (pointerAt 1 1);
   OnMouseUp;
   OnPickTool select;
   OnMouseDown "unused" (Some pageOrigin) (pointerAt 1 1);
   OnMouseUp].


(** * Properties *)

(** ** Comparisons *)

Lemma num_le_iff (a b : Q) : num_le a b = true <-> a <= b.
Proof. unfold num_le. apply Qle_bool_iff. Qed.

Lemma num_ge_iff (a b : Q) : num_ge a b = true <-> b <= a.
Proof. unfold num_ge. apply Qle_bool_iff. Qed.

Lemma num_lt_iff (a b : Q) : num_lt a b = true <-> a < b.
Proof.
  unfold num_lt. rewrite negb_true_iff, <- not_true_iff_false, Qle_bool_iff.
  split; [apply Qnot_le_lt | apply Qlt_not_le].
Qed.

Lemma num_gt_iff (a b : Q) : num_gt a b = true <-> b < a.
Proof.
  unfold num_gt. rewrite negb_true_iff, <- not_true_iff_false, Qle_bool_iff.
  split; [apply Qnot_le_lt | apply Qlt_not_le].
Qed.

Lemma num_lt_false_iff (a b : Q) : num_lt a b = false <-> b <= a.
Proof.
  rewrite <- not_true_iff_false, num_lt_iff.
  split; [apply Qnot_lt_le | apply Qle_not_lt].
Qed.

Lemma orZero_eq (v : Q) : orZero v == v.
Proof.
  unfold orZero. destruct (Qeq_bool v 0) eqn:E; [|reflexivity].
  apply Qeq_bool_iff in E. symmetry. exact E.
Qed.

Ltac bool_to_prop :=
  repeat rewrite andb_true_iff;
  repeat rewrite num_ge_iff; repeat rewrite num_le_iff;
  repeat rewrite num_lt_iff; repeat rewrite num_gt_iff.

(** ** Hit-testing *)

(** The loop's test is containment with the two-point guard. *)
Lemma matchesAt_iff (x y : Q) (e : Element) :
  matchesAt x y e = true <-> contains x y e.
Proof.
  unfold contains, inRect.
  destruct e as [i | s | p]; simpl.
  - bool_to_prop. tauto.
  - bool_to_prop. tauto.
  - destruct (p_points p) as [| p0 [| p1 rest]] eqn:Hp; simpl.
    + split; [discriminate | intros [_ H]; lia].
    + split; [discriminate | intros [_ H]; lia].
    + destruct (extent rest _) as [[[minX maxX] minY] maxY]. simpl.
      bool_to_prop. split.
      * intros [[[H1 H2] H3] H4]. repeat split; try lra. lia.
      * intros [[H1 [H2 [H3 H4]]] _]. repeat split; lra.
Qed.

Lemma matchesAt_false_iff (x y : Q) (e : Element) :
  matchesAt x y e = false <-> ~ contains x y e.
Proof. rewrite <- matchesAt_iff. symmetry. apply not_true_iff_false. Qed.

(** The running extent only widens, and it encloses every point it has
    visited. *)
Lemma extent_encloses (pts : list Point) (minX maxX minY maxY : Q) :
  let '(a, b, c, d) := extent pts (minX, maxX, minY, maxY) in
  a <= minX /\ maxX <= b /\ c <= minY /\ maxY <= d /\
  forall pt, In pt pts -> a <= px pt /\ px pt <= b /\ c <= py pt /\ py pt <= d.
Proof.
  revert minX maxX minY maxY.
  induction pts as [| p rest IH]; intros minX maxX minY maxY; simpl.
  - do 4 (split; [lra |]). intros pt [].
  - specialize (IH (Qmin minX (px p)) (Qmax maxX (px p))
                   (Qmin minY (py p)) (Qmax maxY (py p))).
    destruct (extent rest _) as [[[a b] c] d].
    destruct IH as [H1 [H2 [H3 [H4 H5]]]].
    pose proof (Q.le_min_l minX (px p)). pose proof (Q.le_min_r minX (px p)).
    pose proof (Q.le_max_l maxX (px p)). pose proof (Q.le_max_r maxX (px p)).
    pose proof (Q.le_min_l minY (py p)). pose proof (Q.le_min_r minY (py p)).
    pose proof (Q.le_max_l maxY (py p)). pose proof (Q.le_max_r maxY (py p)).
    do 4 (split; [lra |]).
    intros pt [<- | Hin]; [repeat split; lra | apply H5; exact Hin].
Qed.

(** [getElementBounds] of a path is a bounding box: every point of the
    path lies in it. *)
Lemma getElementBounds_encloses_points (p : PathElement) (pt : Point) :
  In pt (p_points p) -> inRect (px pt) (py pt) (getElementBounds (Path p)).
Proof.
  unfold inRect. simpl. destruct (p_points p) as [| p0 rest] eqn:E; [intros [] |].
  intros Hin. rewrite <- E in Hin.
  pose proof (extent_encloses (p_points p) (px p0) (px p0) (py p0) (py p0)) as H.
  rewrite E in H, Hin.
  destruct (extent (p0 :: rest) _) as [[[a b] c] d].
  destruct H as [_ [_ [_ [_ H]]]]. specialize (H pt Hin). simpl. lra.
Qed.

(** What the downward loop has found once it has visited the indices
    below [n]. *)
Lemma scanFrom_spec (x y : Q) (els : list Element) (n : nat) :
  match scanFrom x y els n with
  | Some e =>
      exists i, (i < n)%nat /\ nth_error els i = Some e /\ matchesAt x y e = true /\
                forall j e', (i < j < n)%nat -> nth_error els j = Some e' ->
                             matchesAt x y e' = false
  | None =>
      forall j e', (j < n)%nat -> nth_error els j = Some e' -> matchesAt x y e' = false
  end.
Proof.
  induction n as [| n IH]; simpl.
  - intros j e' Hj. lia.
  - destruct (nth_error els n) as [el |] eqn:Hn.
    + destruct (matchesAt x y el) eqn:Hm.
      * exists n. repeat split; auto. intros j e' Hj. lia.
      * destruct (scanFrom x y els n) as [e |].
        -- destruct IH as [i [Hi [Hnth [Hhit Hrest]]]].
           exists i. repeat split; auto.
           intros j e' Hj Hj'.
           destruct (Nat.eq_dec j n) as [-> | Hne].
           ++ congruence.
           ++ apply (Hrest j); auto. lia.
        -- intros j e' Hj Hj'.
           destruct (Nat.eq_dec j n) as [-> | Hne].
           ++ congruence.
           ++ apply (IH j); auto. lia.
    + destruct (scanFrom x y els n) as [e |].
      * destruct IH as [i [Hi [Hnth [Hhit Hrest]]]].
        exists i. repeat split; auto.
        intros j e' Hj Hj'.
        destruct (Nat.eq_dec j n) as [-> | Hne].
        -- congruence.
        -- apply (Hrest j); auto. lia.
      * intros j e' Hj Hj'.
        destruct (Nat.eq_dec j n) as [-> | Hne].
        -- congruence.
        -- apply (IH j); auto. lia.
Qed.

Lemma nth_error_bound {A : Type} (l : list A) (j : nat) (a : A) :
  nth_error l j = Some a -> (j < List.length l)%nat.
Proof. intros H. apply nth_error_Some. congruence. Qed.

(** What the loop returns is an element of the list that passed the
    test. *)
Lemma hitTest_result_matches (x y : Q) (els : list Element) (e : Element) :
  getElementAtPosition x y els = Some e -> In e els /\ matchesAt x y e = true.
Proof.
  unfold getElementAtPosition. intros H.
  pose proof (scanFrom_spec x y els (List.length els)) as S. rewrite H in S.
  destruct S as [i [_ [Hnth [Hhit _]]]].
  split; [eapply nth_error_In; exact Hnth | exact Hhit].
Qed.

(** The test never passes on a path of fewer than two points. *)
Lemma matchesAt_path_two_points (x y : Q) (p : PathElement) :
  matchesAt x y (Path p) = true -> (2 <= List.length (p_points p))%nat.
Proof.
  simpl. destruct (p_points p) as [| p0 [| p1 rest]]; try discriminate.
  intros _. simpl. lia.
Qed.

(** C4 (amended): [getElementAtPosition] returns the topmost element that
    contains the point, where an image or shape contains it iff the point
    lies in [[x, x+width] x [y, y+height]] and a path contains it iff it
    has at least two points and the point lies in its bounding box;
    nothing is returned exactly when no element contains the point. *)
Theorem hitTest_returns_topmost (x y : Q) (els : list Element) :
  topmost (contains x y) els (getElementAtPosition x y els).
Proof.
  unfold getElementAtPosition, topmost.
  pose proof (scanFrom_spec x y els (List.length els)) as H.
  destruct (scanFrom x y els (List.length els)) as [e |].
  - destruct H as [i [Hi [Hnth [Hhit Hrest]]]].
    exists i. split; [exact Hnth |]. split; [apply matchesAt_iff; exact Hhit |].
    intros j e' Hj Hj'. apply matchesAt_false_iff.
    apply (Hrest j); auto. split; [exact Hj |]. eapply nth_error_bound; eauto.
  - intros e Hin. apply In_nth_error in Hin. destruct Hin as [j Hj].
    apply matchesAt_false_iff. apply (H j); auto. eapply nth_error_bound; eauto.
Qed.

(** A click with the select tool never selects a path of fewer than two
    points. *)
Lemma click_never_selects_short_path (fresh : string) (rect : DOMRect)
      (ev : PointerEvent) (s : AppState) (p : PathElement) :
  activeTool s = select -> croppingState s = None -> resizeTarget s ev = None ->
  selectedElement (handleMouseDown fresh (Some rect) ev s) = Some (Path p) ->
  (2 <= List.length (p_points p))%nat.
Proof.
  intros Ht Hc Hr. unfold handleMouseDown. rewrite Hc, Ht, Hr.
  destruct (getElementAtPosition _ _ (elements s)) as [clicked |] eqn:E; cbn.
  - intros H. inversion H; subst clicked.
    apply hitTest_result_matches in E.
    apply (matchesAt_path_two_points _ _ _ (proj2 E)).
  - discriminate.
Qed.

(** Pressing the eraser on a document made of such paths deletes
    nothing. *)
Lemma erase_down_spares_short_paths (fresh : string) (rect : DOMRect)
      (ev : PointerEvent) (s : AppState) :
  activeTool s = erase -> croppingState s = None ->
  (forall e, In e (elements s) ->
             exists p, e = Path p /\ (List.length (p_points p) < 2)%nat) ->
  elements (handleMouseDown fresh (Some rect) ev s) = elements s /\
  history (handleMouseDown fresh (Some rect) ev s) = history s.
Proof.
  intros Ht Hc Hall. unfold handleMouseDown. rewrite Hc, Ht.
  destruct (getElementAtPosition _ _ (elements s)) as [hit |] eqn:E.
  - apply hitTest_result_matches in E. destruct E as [Hin Hm].
    destruct (Hall hit Hin) as [p [-> Hlen]].
    apply matchesAt_path_two_points in Hm. lia.
  - split; reflexivity.
Qed.

(** The hit-test never returns a path with fewer than two points, and a
    path made of one point is not hit at that very point. *)
Lemma short_paths_are_never_hit :
  (forall (x y : Q) (els : list Element) (p : PathElement),
      getElementAtPosition x y els = Some (Path p) ->
      (2 <= List.length (p_points p))%nat) /\
  (forall (id : string) (x y : Q) (before after : list Element) (e : Element),
      createElement id draw x y = Some e ->
      getElementAtPosition x y (before ++ e :: after) <> Some e).
Proof.
  split.
  - intros x y els p H.
    apply hitTest_result_matches in H. destruct H as [_ Hm].
    exact (matchesAt_path_two_points x y p Hm).
  - intros id x y before after e He Hhit.
    unfold createElement in He. simpl in He. inversion He; subst e.
    apply hitTest_result_matches in Hhit. destruct Hhit as [_ Hm].
    simpl in Hm. discriminate.
Qed.

(** ** History stack *)

Lemma commitAction_history (d : list Element) (s : AppState) :
  history (commitAction d s) = firstn (S (historyIndex s)) (history s) ++ [d].
Proof. reflexivity. Qed.

Lemma commitAction_cursor_last (d : list Element) (s : AppState) :
  S (historyIndex (commitAction d s)) = List.length (history (commitAction d s)).
Proof.
  unfold commitAction. simpl. rewrite length_app. simpl. lia.
Qed.

Lemma commitAction_cursor (d : list Element) (s : AppState) :
  cursorValid s -> historyIndex (commitAction d s) = S (historyIndex s).
Proof.
  unfold cursorValid. intros H.
  pose proof (commitAction_cursor_last d s) as L.
  rewrite commitAction_history, length_app, length_firstn in L.
  change (List.length [d]) with 1%nat in L. lia.
Qed.

Lemma commitAction_elements (d : list Element) (s : AppState) :
  elements (commitAction d s) = elements s.
Proof. reflexivity. Qed.

Lemma replaceDocument_at_end (d : list Element) (s : AppState) :
  S (historyIndex s) = List.length (history s) ->
  history (replaceDocument d s) = history s ++ [d] /\
  historyIndex (replaceDocument d s) = S (historyIndex s) /\
  elements (replaceDocument d s) = d.
Proof.
  intros H. unfold replaceDocument, commitAction.
  cbn [history historyIndex elements setElements setHistory setHistoryIndex].
  rewrite H, firstn_all, length_app. cbn [List.length]. repeat split. lia.
Qed.

Lemma last_default_irrelevant {A : Type} (l : list A) (a d d' : A) :
  last (a :: l) d = last (a :: l) d'.
Proof.
  revert a. induction l as [| b l IH]; intros a; [reflexivity |].
  change (last (a :: b :: l) d) with (last (b :: l) d).
  change (last (a :: b :: l) d') with (last (b :: l) d').
  apply IH.
Qed.

Lemma last_is_nth_cons {A : Type} (l : list A) (a d : A) :
  last l a = nth (0 + List.length l) (a :: l) d.
Proof.
  revert a. induction l as [| b l IH]; intros a; [reflexivity |].
  change (nth (0 + List.length (b :: l)) (a :: b :: l) d)
    with (nth (0 + List.length l) (b :: l) d).
  rewrite <- IH. destruct l as [| c l]; [reflexivity |].
  change (last (b :: c :: l) a) with (last (c :: l) a).
  apply last_default_irrelevant.
Qed.

Lemma replaceDocument_run (snaps : list (list Element)) (s : AppState) :
  S (historyIndex s) = List.length (history s) ->
  let s' := fold_left (fun st d => replaceDocument d st) snaps s in
  history s' = history s ++ snaps /\
  historyIndex s' = (historyIndex s + List.length snaps)%nat /\
  elements s' = last snaps (elements s).
Proof.
  revert s. induction snaps as [| d rest IH]; intros s H; simpl.
  - rewrite app_nil_r. repeat split. lia.
  - destruct (replaceDocument_at_end d s H) as [Hh [Hi He]].
    assert (H' : S (historyIndex (replaceDocument d s))
                 = List.length (history (replaceDocument d s))).
    { rewrite Hh, Hi, length_app. simpl. lia. }
    destruct (IH _ H') as [Ih [Ii Ie]].
    rewrite Ih, Ii, Ie, Hh, Hi, He. rewrite <- app_assoc. simpl.
    repeat split; [lia |].
    destruct rest as [| d' rest]; [reflexivity |].
    change (last (d :: d' :: rest) (elements s)) with (last (d' :: rest) (elements s)).
    apply last_default_irrelevant.
Qed.

Lemma handleUndo_history (s : AppState) : history (handleUndo s) = history s.
Proof. unfold handleUndo. destruct (0 <? historyIndex s)%nat; reflexivity. Qed.

Lemma handleUndo_cursor (s : AppState) :
  historyIndex (handleUndo s) = (historyIndex s - 1)%nat.
Proof.
  unfold handleUndo. destruct (0 <? historyIndex s)%nat eqn:E; simpl; [reflexivity |].
  apply Nat.ltb_ge in E. lia.
Qed.

Lemma handleUndo_synced (s : AppState) : synced s -> synced (handleUndo s).
Proof.
  unfold synced, handleUndo. destruct (0 <? historyIndex s)%nat; auto.
Qed.

Lemma undo_times (k : nat) (s : AppState) :
  synced s ->
  history (times k handleUndo s) = history s /\
  historyIndex (times k handleUndo s) = (historyIndex s - k)%nat /\
  synced (times k handleUndo s).
Proof.
  revert s. induction k as [| k IH]; intros s Hs; simpl.
  - repeat split; [lia | exact Hs].
  - destruct (IH (handleUndo s) (handleUndo_synced s Hs)) as [Ih [Ii Is]].
    rewrite Ih, Ii, handleUndo_history, handleUndo_cursor.
    repeat split; [lia | exact Is].
Qed.

(** The cursor stays inside the history under commit, undo and redo, so
    both handlers read an entry that exists. *)
Lemma commitAction_cursorValid (d : list Element) (s : AppState) :
  cursorValid (commitAction d s).
Proof.
  unfold cursorValid. pose proof (commitAction_cursor_last d s). lia.
Qed.

Lemma handleUndo_cursorValid (s : AppState) : cursorValid s -> cursorValid (handleUndo s).
Proof.
  unfold cursorValid. rewrite handleUndo_history, handleUndo_cursor. lia.
Qed.

Lemma handleRedo_cursorValid (s : AppState) : cursorValid s -> cursorValid (handleRedo s).
Proof.
  unfold cursorValid, handleRedo.
  destruct (historyIndex s <? List.length (history s) - 1)%nat eqn:E; [| auto].
  apply Nat.ltb_lt in E. cbn [history historyIndex setElements setHistoryIndex]. lia.
Qed.

Lemma snapshotAt_inside (s : AppState) (i : nat) :
  (i < List.length (history s))%nat -> nth_error (history s) i = Some (snapshotAt s i).
Proof. intros H. unfold snapshotAt. apply nth_error_nth'. exact H. Qed.

(** An undo that moves the cursor is reverted by the next redo, on the
    whole state. *)
Lemma redo_undo_id (s : AppState) :
  cursorValid s -> synced s -> (0 < historyIndex s)%nat ->
  handleRedo (handleUndo s) = s.
Proof.
  unfold cursorValid, synced, handleUndo, handleRedo, snapshotAt.
  destruct s; simpl. intros Hv Hs Hpos.
  destruct (0 <? historyIndex0)%nat eqn:E1; [| apply Nat.ltb_ge in E1; lia].
  simpl.
  destruct (historyIndex0 - 1 <? List.length history0 - 1)%nat eqn:E2;
    [| apply Nat.ltb_ge in E2; lia].
  simpl. replace (historyIndex0 - 1 + 1)%nat with historyIndex0 by lia.
  rewrite <- Hs. reflexivity.
Qed.

(** C2: after any sequence of N commits from the initial empty document,
    N undos bring the document back to the empty one, and after fewer
    than N undos a further undo followed by a redo restores the snapshot
    that was current before that undo (the state is the same again). *)
Theorem undo_all_and_redo_after_undo (snaps : list (list Element)) :
  let s := fold_left (fun st d => replaceDocument d st) snaps initialState in
  let N := List.length snaps in
  elements (times N handleUndo s) = [] /\
  historyIndex (times N handleUndo s) = 0%nat /\
  forall k, (k < N)%nat ->
            let s' := times k handleUndo s in
            elements (handleRedo (handleUndo s')) = snapshotAt s' (historyIndex s') /\
            handleRedo (handleUndo s') = s'.
Proof.
  intros s N.
  destruct (replaceDocument_run snaps initialState eq_refl) as [Hh [Hi He]].
  fold s in Hh, Hi, He. simpl in Hh, Hi, He.
  assert (Hs : synced s).
  { unfold synced, snapshotAt. rewrite Hh, Hi, He.
    clear. change ([[]] ++ snaps) with (([] : list Element) :: snaps).
    apply last_is_nth_cons. }
  split; [| split].
  - destruct (undo_times N s Hs) as [Uh [Ui Us]].
    unfold synced, snapshotAt in Us. rewrite Us, Ui, Uh, Hh, Hi.
    replace (List.length snaps - N)%nat with 0%nat by (unfold N; lia).
    reflexivity.
  - destruct (undo_times N s Hs) as [_ [Ui _]]. rewrite Ui, Hi. unfold N. lia.
  - intros k Hk s'.
    destruct (undo_times k s Hs) as [Uh [Ui Us]]. fold s' in Uh, Ui, Us.
    assert (Hid : handleRedo (handleUndo s') = s').
    { apply redo_undo_id.
      - unfold cursorValid. rewrite Uh, Ui, Hh, Hi. simpl. lia.
      - exact Us.
      - rewrite Ui, Hi. unfold N in Hk. lia. }
    split; [| exact Hid].
    rewrite Hid. exact Us.
Qed.

(** C3: a commit keeps the entries up to the cursor, appends the
    snapshot and puts the cursor on the new last entry; in particular a
    commit that follows an undo drops every entry the undo had made
    redoable, and redo is unavailable afterwards. *)
Theorem commit_truncates_and_disables_redo :
  (forall (d : list Element) (s : AppState),
      history (commitAction d s) = firstn (S (historyIndex s)) (history s) ++ [d] /\
      S (historyIndex (commitAction d s)) = List.length (history (commitAction d s)) /\
      canRedo (commitAction d s) = false /\
      handleRedo (commitAction d s) = commitAction d s) /\
  (forall (d : list Element) (s : AppState),
      let s' := commitAction d (handleUndo s) in
      history s' = firstn (S (historyIndex s - 1)) (history s) ++ [d] /\
      S (historyIndex s') = List.length (history s') /\
      canRedo s' = false /\
      handleRedo s' = s').
Proof.
  assert (G : forall d s,
             history (commitAction d s) = firstn (S (historyIndex s)) (history s) ++ [d] /\
             S (historyIndex (commitAction d s)) = List.length (history (commitAction d s)) /\
             canRedo (commitAction d s) = false /\
             handleRedo (commitAction d s) = commitAction d s).
  { intros d s.
    pose proof (commitAction_cursor_last d s) as L.
    assert (R : canRedo (commitAction d s) = false).
    { unfold canRedo. apply Nat.ltb_ge. lia. }
    repeat split; auto.
    unfold handleRedo. unfold canRedo in R. rewrite R. reflexivity. }
  split; [exact G |].
  intros d s s'. unfold s'.
  destruct (G d (handleUndo s)) as [Gh [Gi [Gc Gr]]].
  rewrite handleUndo_history, handleUndo_cursor in Gh.
  repeat split; auto.
Qed.

(** ** Rubber-band selection *)

Lemma isElementInSelectionBox_iff (e : Element) (B : Rect) :
  isElementInSelectionBox e B = true <-> inSelectionBox e B.
Proof.
  destruct e as [i | sh | p]; simpl.
  - pose proof (orZero_eq (i_width i)). pose proof (orZero_eq (i_height i)).
    bool_to_prop. split; intros; repeat split; lra.
  - pose proof (orZero_eq (s_width sh)). pose proof (orZero_eq (s_height sh)).
    bool_to_prop. split; intros; repeat split; lra.
  - rewrite existsb_exists. split.
    + intros [pt [Hin Ht]]. exists pt. revert Ht. bool_to_prop. tauto.
    + intros [pt [Hin Ht]]. exists pt. bool_to_prop. tauto.
Qed.

(** C5: pointer-up on a rubber band selects exactly the elements that
    satisfy the box-membership rule (a path by any point within the
    inclusive bounds, an image or shape by strict rectangle overlap) and
    clears the band; on the box (0,0,100,100) the shapes at (10,10,5,5)
    and (95,95,20,20) are selected and the one at (200,200,10,10) is not. *)
Theorem rubber_band_selects_by_membership :
  (forall (s : AppState) (B : Rect),
      croppingState s = None -> action s = drawing -> activeTool s = select ->
      selectionBox s = Some B ->
      exists chosen,
        selectedElementIds (handleMouseUp s) = map el_id chosen /\
        (forall e, In e chosen <-> In e (elements s) /\ inSelectionBox e B) /\
        selectionBox (handleMouseUp s) = None) /\
  (inSelectionBox shapeInside rubberBandBox /\
   inSelectionBox shapeOverlapping rubberBandBox /\
   ~ inSelectionBox shapeOutside rubberBandBox /\
   selectedElementIds (handleMouseUp rubberBandState) = ["inside"; "overlapping"]).
Proof.
  split.
  - intros s B Hc Ha Ht Hb.
    exists (filter (fun element => isElementInSelectionBox element B) (elements s)).
    unfold handleMouseUp. rewrite Hc, Ha, Ht, Hb.
    split; [reflexivity |]. split; [| reflexivity].
    intros e. rewrite filter_In, isElementInSelectionBox_iff. tauto.
  - split; [apply isElementInSelectionBox_iff; reflexivity |].
    split; [apply isElementInSelectionBox_iff; reflexivity |].
    split; [| reflexivity].
    rewrite <- isElementInSelectionBox_iff. vm_compute. discriminate.
Qed.

(** ** Copy and paste *)

Lemma withPos_x (e : Element) (x y : Q) : el_x (withPos e x y) = x.
Proof. destruct e; reflexivity. Qed.

Lemma withPos_y (e : Element) (x y : Q) : el_y (withPos e x y) = y.
Proof. destruct e; reflexivity. Qed.

Lemma withPos_withId_id (e : Element) (id : string) (x y : Q) :
  el_id (withPos (withId e id) x y) = id.
Proof. destruct e; reflexivity. Qed.

Lemma withPos_withId_sameFields (e : Element) (id : string) (x y : Q) :
  sameFieldsButIdAndPosition (withPos (withId e id) x y) e.
Proof. destruct e; reflexivity. Qed.

Lemma handlePaste_elements (fresh : string) (s : AppState) (clip : Element) :
  clipboard s = Some clip ->
  elements (handlePaste fresh s)
  = elements s ++ [withPos (withId clip fresh) (el_x clip + 10) (el_y clip + 10)].
Proof. intros H. unfold handlePaste. rewrite H. reflexivity. Qed.

Lemma handlePaste_clipboard (fresh : string) (s : AppState) :
  clipboard (handlePaste fresh s) = clipboard s.
Proof. unfold handlePaste. destruct (clipboard s) eqn:E; exact E. Qed.

(** With a non-empty clipboard, paste appends one element that carries
    the id it is handed, the clipboard element's other fields, and the
    clipboard element's position moved by (+10, +10); the document is
    committed and the clipboard is left as it was. *)
Lemma handlePaste_appends (fresh : string) (s : AppState) (clip : Element) :
  clipboard s = Some clip ->
  exists pasted,
    elements (handlePaste fresh s) = elements s ++ [pasted] /\
    el_id pasted = fresh /\
    el_x pasted = el_x clip + 10 /\ el_y pasted = el_y clip + 10 /\
    sameFieldsButIdAndPosition pasted clip /\
    clipboard (handlePaste fresh s) = Some clip /\
    synced (handlePaste fresh s).
Proof.
  intros Hc.
  exists (withPos (withId clip fresh) (el_x clip + 10) (el_y clip + 10)).
  split; [apply handlePaste_elements; exact Hc |].
  split; [apply withPos_withId_id |].
  split; [apply withPos_x |].
  split; [apply withPos_y |].
  split; [apply withPos_withId_sameFields |].
  split; [rewrite handlePaste_clipboard; exact Hc |].
  unfold synced, snapshotAt, handlePaste. rewrite Hc.
  unfold replaceDocument, commitAction.
  cbn [history historyIndex elements setElements setHistory setHistoryIndex].
  rewrite length_app. cbn [List.length].
  replace (List.length (firstn (S (historyIndex s)) (history s)) + 1 - 1)%nat
    with (List.length (firstn (S (historyIndex s)) (history s))) by lia.
  rewrite nth_middle. reflexivity.
Qed.

(** Two pastes in a row append two elements, both offset from the
    clipboard element, carrying the two ids in order. *)
Lemma handlePaste_twice (fresh1 fresh2 : string) (s : AppState) (clip : Element) :
  clipboard s = Some clip ->
  elements (handlePaste fresh2 (handlePaste fresh1 s))
  = elements s ++ [withPos (withId clip fresh1) (el_x clip + 10) (el_y clip + 10);
                   withPos (withId clip fresh2) (el_x clip + 10) (el_y clip + 10)].
Proof.
  intros Hc.
  assert (Hc1 : clipboard (handlePaste fresh1 s) = Some clip)
    by (rewrite handlePaste_clipboard; exact Hc).
  rewrite (handlePaste_elements fresh2 _ clip Hc1).
  rewrite (handlePaste_elements fresh1 s clip Hc).
  rewrite <- app_assoc. reflexivity.
Qed.

(** ** Generated ids *)

Lemma string_of_uint_noUnderscore (d : Decimal.uint) :
  noUnderscore (NilEmpty.string_of_uint d) = true.
Proof. induction d; simpl; try reflexivity; exact IHd. Qed.

Lemma decimal_inj (a b : N) : decimal a = decimal b -> a = b.
Proof.
  unfold decimal. intros E.
  assert (U : Some (N.to_uint a) = Some (N.to_uint b)).
  { rewrite <- (NilEmpty.usu (N.to_uint a)), <- (NilEmpty.usu (N.to_uint b)), E.
    reflexivity. }
  inversion U as [U']. rewrite <- (Unsigned.of_to a), <- (Unsigned.of_to b), U'.
  reflexivity.
Qed.

(** The first underscore after the digits of the clock ends them. *)
Lemma separator_splits (d1 d2 s1 s2 : string) :
  noUnderscore d1 = true -> noUnderscore d2 = true ->
  (d1 ++ "_" ++ s1 = d2 ++ "_" ++ s2)%string -> d1 = d2 /\ s1 = s2.
Proof.
  revert d2. induction d1 as [| c d1 IH]; intros [| c' d2] H1 H2 E; simpl in *.
  - inversion E. split; reflexivity.
  - inversion E; subst c'. simpl in H2. discriminate.
  - inversion E; subst c. simpl in H1. discriminate.
  - apply andb_true_iff in H1, H2. inversion E; subst c'.
    destruct (IH d2 (proj2 H1) (proj2 H2) H3) as [-> ->]. split; reflexivity.
Qed.

(** Two calls of [generateId] return the same id exactly when they read
    the same clock value and get random texts with the same characters
    at positions 2 to 10. *)
Lemma generateId_eq_iff (a b : IdSource) :
  generateId a = generateId b <->
  clock a = clock b /\ substring 2 9 (randomText a) = substring 2 9 (randomText b).
Proof.
  unfold generateId. split.
  - intros E. simpl in E. inversion E as [E'].
    destruct (separator_splits _ _ _ _ (string_of_uint_noUnderscore _)
                (string_of_uint_noUnderscore _) E') as [D S].
    split; [apply decimal_inj; exact D | exact S].
  - intros [-> ->]. reflexivity.
Qed.

(** C6 (amended): with a non-empty clipboard, paste appends one element
    that carries the id [generateId] returned, the clipboard element's
    other fields, and the clipboard element's position moved by
    (+10, +10); the document is committed and the clipboard is left as
    it was, so two pastes of a copy at (5,5) both land at (15,15).
    Their ids are the two generated ones: they are equal exactly when
    the two calls of [generateId] read the same clock value and got the
    same nine characters from the random number, and distinct
    otherwise. *)
Theorem paste_offsets_and_generated_ids :
  (forall (src : IdSource) (s : AppState) (clip : Element),
      clipboard s = Some clip ->
      exists pasted,
        elements (handlePaste (generateId src) s) = elements s ++ [pasted] /\
        el_id pasted = generateId src /\
        el_x pasted = el_x clip + 10 /\ el_y pasted = el_y clip + 10 /\
        sameFieldsButIdAndPosition pasted clip /\
        clipboard (handlePaste (generateId src) s) = Some clip /\
        synced (handlePaste (generateId src) s)) /\
  (forall (src1 src2 : IdSource) (s : AppState) (clip : Element),
      clipboard s = Some clip -> el_x clip == 5 -> el_y clip == 5 ->
      exists first second,
        elements (handlePaste (generateId src2) (handlePaste (generateId src1) s))
        = elements s ++ [first; second] /\
        el_x first == 15 /\ el_y first == 15 /\
        el_x second == 15 /\ el_y second == 15 /\
        el_id first = generateId src1 /\ el_id second = generateId src2 /\
        (el_id first = el_id second <->
         clock src1 = clock src2 /\
         substring 2 9 (randomText src1) = substring 2 9 (randomText src2))).
Proof.
  split.
  - intros src s clip Hc. apply handlePaste_appends. exact Hc.
  - intros src1 src2 s clip Hc Hx Hy.
    exists (withPos (withId clip (generateId src1)) (el_x clip + 10) (el_y clip + 10)).
    exists (withPos (withId clip (generateId src2)) (el_x clip + 10) (el_y clip + 10)).
    split; [apply handlePaste_twice; exact Hc |].
    rewrite !withPos_x, !withPos_y, !withPos_withId_id.
    do 4 (split; [lra |]).
    split; [reflexivity |]. split; [reflexivity |].
    apply generateId_eq_iff.
Qed.

(** ** Resizing *)

Ltac split_ifs :=
  repeat match goal with
         | |- context [if ?b then _ else _] =>
             let E := fresh "E" in destruct b eqn:E; cbv beta iota zeta
         end.


(** With the aspect lock the dimension the other one is derived from
    still respects the floor. *)
Lemma resize_floor_of_driving_dimension (info : ResizeStartInfo) (c : Point) :
  shiftKey info = true ->
  let '(_, _, newWidth, newHeight) := resizeGeometry info c in
  if includes "t" (handle info) || includes "b" (handle info)
  then 10 <= newHeight else 10 <= newWidth.
Proof.
  intros Hs. unfold resizeGeometry. rewrite Hs. cbv beta iota zeta.
  destruct (includes "t" (handle info)), (includes "b" (handle info));
    cbv beta iota zeta; simpl orb; cbv beta iota zeta;
    split_ifs;
    repeat match goal with
           | H : num_lt _ _ = false |- _ => apply num_lt_false_iff in H
           end;
    lra.
Qed.

(** C1 (the code at the failing input): a 20x40 shape dragged by its
    bottom-middle handle with shift held, from (10,40) up to (10,5), is
    first clamped to height 10 and then given the width 10 * (20/40) = 5,
    below the floor; pointer-up commits that geometry. *)
Theorem resize_with_shift_breaks_floor :
  exists sh,
    elements tallDragged = [Shape sh] /\
    s_width sh == 5 /\ s_height sh == 10 /\ s_width sh < 10 /\
    snapshotAt (handleMouseUp tallDragged) (historyIndex (handleMouseUp tallDragged))
    = [Shape sh].
Proof.
  eexists. split; [vm_compute; reflexivity |].
  repeat split; vm_compute; reflexivity.
Qed.

(** ** The placeholder coordinates of paths *)




Lemma removeId_keeps_paths_at_origin (id : string) (els : list Element) :
  forallb pathAtOrigin els = true -> forallb pathAtOrigin (removeId id els) = true.
Proof.
  rewrite !forallb_forall. intros H e Hin. apply H.
  unfold removeId in Hin. apply filter_In in Hin. tauto.
Qed.

Lemma handleDelete_keeps_paths_at_origin (s : AppState) :
  forallb pathAtOrigin (elements s) = true ->
  forallb pathAtOrigin (elements (handleDelete s)) = true.
Proof.
  intros H. unfold handleDelete.
  destruct (selectedElementIds s) as [| id ids].
  - destruct (selectedElement s) as [sel |]; [| exact H].
    apply (removeId_keeps_paths_at_origin (el_id sel)). exact H.
  - cbn [elements setSelectedElementIds setSelectedElement replaceDocument
         commitAction setHistoryIndex setHistory setElements].
    rewrite forallb_forall in *. intros e Hin. apply H.
    apply filter_In in Hin. tauto.
Qed.

(** [handlePaste] is the one function of the component that would write
    the placeholders: were a drawn path copied and handed to it, the new
    path would have the same points and [x = y = 10].  No element and
    no handler calls it (the [paste] listener of the window has a
    [handlePaste] of its own, for image files). *)
Remark uncalled_handlePaste_moves_placeholders :
  exists original pasted,
    elements pathPasted = [Path original; Path pasted] /\
    pathAtOrigin (Path original) = true /\
    p_points pasted = p_points original /\
    p_x pasted == 10 /\ p_y pasted == 10 /\
    pathAtOrigin (Path pasted) = false.
Proof.
  do 2 eexists. split; [vm_compute; reflexivity |].
  repeat split; vm_compute; reflexivity.
Qed.

(** ** Erase gestures *)

Section EraseMoves.

Variable rect : DOMRect.
Variable s0 : AppState.               (* the state pointer-down left *)

Lemma deselectErased_erasing (s s' : AppState) (id : string) :
  erasing s0 s' -> erasing s0 (deselectErased s id s').
Proof.
  unfold deselectErased. destruct (selectedIs s id); auto.
Qed.

(** A pointer-move of an erase gesture deletes without committing. *)
Lemma erase_move_keeps_history (s : AppState) (ev : PointerEvent) :
  erasing s0 s -> erasing s0 (handleMouseMove (Some rect) ev s).
Proof.
  intros [Ha [Ht [Hc [Hh Hi]]]].
  unfold handleMouseMove. rewrite Hc, Ha, Ht.
  assert (G : erasing s0
                (if Tool_eqb erase draw && truthy (currentDrawingElementId s)
                 then s else
                   match getElementAtPosition (px (toCanvas s rect ev))
                           (py (toCanvas s rect ev)) (elements s) with
                   | Some elementToErase =>
                       deselectErased s (el_id elementToErase)
                         (setElements (removeId (el_id elementToErase) (elements s)) s)
                   | None => s
                   end)).
  { simpl. destruct (getElementAtPosition _ _ (elements s)).
    - apply deselectErased_erasing. repeat split; cbn; assumption.
    - repeat split; cbn; assumption. }
  destruct (selectedElement s), (resizeStartInfo s); exact G.
Qed.

Lemma erase_moves_keep_history (moves : list PointerEvent) (s : AppState) :
  erasing s0 s ->
  erasing s0 (fold_left (fun st ev => handleMouseMove (Some rect) ev st) moves s).
Proof.
  revert s. induction moves as [| ev rest IH]; intros s H; simpl; [exact H |].
  apply IH. apply erase_move_keeps_history. exact H.
Qed.

End EraseMoves.

(** Pointer-up of an erase gesture commits the live document. *)
Lemma erase_up_commits (s : AppState) :
  action s = drawing -> activeTool s = erase -> croppingState s = None ->
  history (handleMouseUp s) = firstn (S (historyIndex s)) (history s) ++ [elements s].
Proof.
  intros Ha Ht Hc. unfold handleMouseUp. rewrite Hc, Ha, Ht.
  destruct (selectionBox s); reflexivity.
Qed.

(** The history an erase gesture leaves: the entry of pointer-up, and
    before it one more entry whenever pointer-down itself was on an
    element. *)
Lemma erase_gesture_history (fresh : string) (rect : DOMRect) (down : PointerEvent)
      (moves : list PointerEvent) (s : AppState) :
  activeTool s = erase -> croppingState s = None -> cursorValid s ->
  let c := toCanvas s rect down in
  let s' := gesture fresh rect down moves s in
  let kept := firstn (S (historyIndex s)) (history s) in
  match getElementAtPosition (px c) (py c) (elements s) with
  | Some hit => history s' = kept ++ [removeId (el_id hit) (elements s); elements s']
  | None => history s' = kept ++ [elements s']
  end.
Proof.
  intros Ht Hc Hv c s' kept.
  set (sd := handleMouseDown fresh (Some rect) down s).
  set (sm := fold_left (fun st ev => handleMouseMove (Some rect) ev st) moves sd).
  assert (Hsd : (action sd = drawing /\ activeTool sd = erase /\ croppingState sd = None) /\
                match getElementAtPosition (px c) (py c) (elements s) with
                | Some hit =>
                    history sd = kept ++ [removeId (el_id hit) (elements s)] /\
                    historyIndex sd = S (historyIndex s)
                | None => history sd = history s /\ historyIndex sd = historyIndex s
                end).
  { unfold sd, handleMouseDown. rewrite Hc, Ht. fold c.
    destruct (getElementAtPosition (px c) (py c) (elements s)) as [hit |].
    - split.
      + unfold deselectErased.
        destruct (selectedIs s (el_id hit)); repeat split; cbn; assumption.
      + unfold deselectErased. destruct (selectedIs s (el_id hit)); split;
          try reflexivity; apply (commitAction_cursor _ _ Hv).
    - split; [repeat split; cbn; assumption | split; reflexivity]. }
  destruct Hsd as [[Hda [Hdt Hdc]] Hd].
  assert (He : erasing sd sd) by (repeat split; assumption).
  pose proof (erase_moves_keep_history rect sd moves sd He) as Hm. fold sm in Hm.
  destruct Hm as [Ha [Ht' [Hc' [Hh Hi]]]].
  assert (Hup : history s' = firstn (S (historyIndex sm)) (history sm) ++ [elements sm])
    by (apply erase_up_commits; assumption).
  assert (Hel : elements s' = elements sm).
  { unfold s', gesture. fold sd. fold sm. unfold handleMouseUp. rewrite Hc', Ha, Ht'.
    destruct (selectionBox sm); reflexivity. }
  rewrite Hel, Hup, Hh, Hi.
  destruct (getElementAtPosition (px c) (py c) (elements s)) as [hit |];
    destruct Hd as [Hd1 Hd2]; rewrite Hd1, Hd2.
  - rewrite firstn_all2.
    + rewrite <- app_assoc. reflexivity.
    + rewrite length_app. unfold kept. rewrite length_firstn.
      unfold cursorValid in Hv. cbn [List.length]. lia.
  - reflexivity.
Qed.

(** C8 (the code at the failing input): with the erase tool, pressing
    on the only shape of the document and releasing deletes it and
    leaves two new history entries, one from pointer-down and one from
    pointer-up. *)
Theorem erase_click_commits_twice :
  elements eraseReady = [shapeAt "dot" 0 0 20 20] /\
  elements eraseClicked = [] /\
  history eraseClicked = history eraseReady ++ [[]; []] /\
  List.length (history eraseClicked) = (List.length (history eraseReady) + 2)%nat /\
  historyIndex eraseClicked = (historyIndex eraseReady + 2)%nat.
Proof. repeat split; vm_compute; reflexivity. Qed.

(** ** Image-generation adapter *)

Lemma promiseAll_rejects {A : Type} (ps : list (Settled A)) (m : string) :
  In (Rejected m) ps -> exists m', promiseAll ps = Rejected m'.
Proof.
  induction ps as [| p rest IH]; simpl; [tauto |].
  intros [-> | Hin].
  - exists m. reflexivity.
  - destruct p as [a | m0]; [| exists m0; reflexivity].
    destruct (IH Hin) as [m' ->]. exists m'. reflexivity.
Qed.

Section Conversion.

Variable b : Browser.
Variable editImage : list InputImage -> string -> Settled ServiceResult.
Variables fresh prompt : string.

(** What the [catch] block does cover: an exception thrown while the
    canvas is set up is answered with the blank image. *)
Lemma convertImage_sync_throw (el : ImageElement) (thrown : string) :
  String.prefix "data:" (i_href el) = false ->
  domThrows b = Some thrown -> context2d b = true ->
  convertImage b el = Fulfilled (mkInput (blankPng b) "image/png").
Proof. intros Hp Ht Hc. unfold convertImage. rewrite Hp, Ht, Hc. reflexivity. Qed.

(** A load failure rejects the callback's promise. *)
Lemma convertImage_load_failure (el : ImageElement) :
  String.prefix "data:" (i_href el) = false ->
  domThrows b = None ->
  loadImage b (i_href el) (orString (i_mimeType el) "image/png") = None ->
  convertImage b el = Rejected ("Failed to load image: " ++ i_href el)%string.
Proof. intros Hp Ht Hl. unfold convertImage. rewrite Hp, Ht, Hl. reflexivity. Qed.

(** One selected image that fails to load ends the run before any
    request is sent. *)
Lemma load_failure_aborts_generation (s : AppState) (el : ImageElement) :
  trimsToEmpty prompt = false ->
  In el (selectedImageElements s) ->
  String.prefix "data:" (i_href el) = false ->
  domThrows b = None ->
  loadImage b (i_href el) (orString (i_mimeType el) "image/png") = None ->
  snd (handleGenerateArt fresh b editImage prompt s) = [] /\
  elements (fst (handleGenerateArt fresh b editImage prompt s)) = elements s /\
  exists m, error (fst (handleGenerateArt fresh b editImage prompt s))
            = Some ("Failed to generate image: " ++ m)%string.
Proof.
  intros Hp Hin Hd Ht Hl. unfold handleGenerateArt. rewrite Hp.
  assert (G : exists m, gatherInputs b s = Rejected m).
  { unfold gatherInputs. destruct (selectedImageElements s) as [| i0 rest] eqn:E.
    - destruct Hin.
    - apply (promiseAll_rejects _ ("Failed to load image: " ++ i_href el)%string).
      rewrite <- (convertImage_load_failure el Hd Ht Hl).
      apply in_map. exact Hin. }
  destruct G as [m ->]. simpl. repeat split. exists m. reflexivity.
Qed.

End Conversion.

(** C9 (the code at the failing input): with an inline image and an
    image whose URL fails to load both selected, no blank image is
    substituted: the run ends with the error message, the document is
    unchanged and no request reaches the service. *)
Theorem failed_load_aborts_whole_batch :
  convertImage offlineBrowser remoteImage
  = Rejected "Failed to load image: https://example.com/b.png" /\
  snd (handleGenerateArt "img_c" offlineBrowser echoService "make it blue" twoImagesSelected)
  = [] /\
  error (fst (handleGenerateArt "img_c" offlineBrowser echoService "make it blue"
                                twoImagesSelected))
  = Some "Failed to generate image: Failed to load image: https://example.com/b.png" /\
  elements (fst (handleGenerateArt "img_c" offlineBrowser echoService "make it blue"
                                   twoImagesSelected))
  = [Image inlineImage; Image remoteImage].
Proof. repeat split; vm_compute; reflexivity. Qed.

(** When every image loads, the request carries one input per selected
    image, in document order. *)
Example generation_sends_every_input :
  snd (handleGenerateArt "img_c" onlineBrowser echoService "make it blue" twoImagesSelected)
  = [([mkInput "data:image/png;base64,AAAA" "image/png";
       mkInput "data:reencoded,https://example.com/b.png" "image/png"],
      "make it blue")].
Proof. vm_compute. reflexivity. Qed.

(** ** Counterexample and instances *)

(** C4 as stated fails: the point (1,1) lies in the bounding box of the
    path whose only point is (1,1), yet the hit-test returns nothing. *)
Lemma hitTest_as_described_fails :
  ~ topmost (containsAsDescribed 1 1) [onePointPath]
            (getElementAtPosition 1 1 [onePointPath]).
Proof.
  change (getElementAtPosition 1 1 [onePointPath]) with (@None Element).
  unfold topmost. intros H.
  apply (H onePointPath); [left; reflexivity |].
  unfold containsAsDescribed, inRect. simpl.
  repeat split; unfold Qle; simpl; lia.
Qed.

Lemma undo_all_and_redo_after_undo_witness :
  elements (times 2 handleUndo
              (fold_left (fun st d => replaceDocument d st)
                         [[shapeInside]; [shapeInside; shapeOutside]] initialState))
  = [] /\
  handleRedo (handleUndo
                (times 1 handleUndo
                   (fold_left (fun st d => replaceDocument d st)
                              [[shapeInside]; [shapeInside; shapeOutside]] initialState)))
  = times 1 handleUndo
      (fold_left (fun st d => replaceDocument d st)
                 [[shapeInside]; [shapeInside; shapeOutside]] initialState).
Proof.
  destruct (undo_all_and_redo_after_undo [[shapeInside]; [shapeInside; shapeOutside]])
    as [H1 [_ H3]].
  split; [exact H1 |].
  exact (proj2 (H3 1%nat (le_n 2))).
Defined.

Lemma rubber_band_selects_by_membership_witness :
  exists chosen,
    selectedElementIds (handleMouseUp rubberBandState) = map el_id chosen /\
    (forall e, In e chosen <->
               In e (elements rubberBandState) /\ inSelectionBox e rubberBandBox) /\
    selectionBox (handleMouseUp rubberBandState) = None.
Proof.
  exact (proj1 rubber_band_selects_by_membership rubberBandState rubberBandBox
               eq_refl eq_refl eq_refl eq_refl).
Defined.

(** C6 as stated fails: two pastes whose calls of [generateId] read the
    same clock value and get two random numbers that agree on the nine
    characters kept give the two pasted elements one and the same id. *)
Lemma pasted_ids_can_coincide :
  randomText sameTick <> randomText sameTickAgain /\
  exists first second,
    elements (handlePaste (generateId sameTickAgain)
                (handlePaste (generateId sameTick) copiedState))
    = elements copiedState ++ [first; second] /\
    el_id first = "id_1700000000000_4fzyo82mv" /\
    el_id second = "id_1700000000000_4fzyo82mv".
Proof.
  split; [discriminate |].
  do 2 eexists. split; [apply (handlePaste_twice _ _ copiedState copiedShape eq_refl) |].
  split; reflexivity.
Qed.

Lemma paste_offsets_and_generated_ids_witness :
  clipboard copiedState = Some copiedShape /\
  exists first second,
    elements (handlePaste (generateId nextTick) (handlePaste (generateId sameTick) copiedState))
    = elements copiedState ++ [first; second] /\
    el_x first == 15 /\ el_y first == 15 /\
    el_x second == 15 /\ el_y second == 15 /\
    el_id first <> el_id second.
Proof.
  split; [reflexivity |].
  destruct (proj2 paste_offsets_and_generated_ids sameTick nextTick copiedState copiedShape
              eq_refl ltac:(reflexivity) ltac:(reflexivity))
    as [first [second [E [X1 [Y1 [X2 [Y2 [_ [_ D]]]]]]]]].
  exists first, second.
  do 5 (split; [assumption |]).
  intros Eq. apply D in Eq. destruct Eq as [Eq _]. discriminate Eq.
Defined.

(** * Further properties of the code *)

(** ** Undo and redo as inverse walks *)

Lemma times_shift (k : nat) (f : AppState -> AppState) (s : AppState) :
  times k f (f s) = f (times k f s).
Proof.
  revert s. induction k as [| k IH]; intros s; [reflexivity |].
  simpl. rewrite IH. reflexivity.
Qed.

Lemma handleRedo_history (s : AppState) : history (handleRedo s) = history s.
Proof.
  unfold handleRedo.
  destruct (historyIndex s <? List.length (history s) - 1)%nat; reflexivity.
Qed.

Lemma handleRedo_synced (s : AppState) : synced s -> synced (handleRedo s).
Proof.
  unfold synced, handleRedo.
  destruct (historyIndex s <? List.length (history s) - 1)%nat; auto.
Qed.

Lemma undo_redo_id (s : AppState) :
  synced s -> canRedo s = true -> handleUndo (handleRedo s) = s.
Proof.
  unfold synced, canRedo, handleUndo, handleRedo, snapshotAt.
  destruct s; simpl. intros Hs Hr. rewrite Hr. simpl.
  destruct (0 <? historyIndex0 + 1)%nat eqn:E; [| apply Nat.ltb_ge in E; lia].
  simpl. replace (historyIndex0 + 1 - 1)%nat with historyIndex0 by lia.
  rewrite <- Hs. reflexivity.
Qed.

Lemma redo_times (k : nat) (s : AppState) :
  synced s -> (historyIndex s + k < List.length (history s))%nat ->
  history (times k handleRedo s) = history s /\
  historyIndex (times k handleRedo s) = (historyIndex s + k)%nat /\
  synced (times k handleRedo s).
Proof.
  revert s. induction k as [| k IH]; intros s Hs Hk; simpl.
  - repeat split; [lia | exact Hs].
  - assert (E : (historyIndex s <? List.length (history s) - 1)%nat = true)
      by (apply Nat.ltb_lt; lia).
    assert (Hi : historyIndex (handleRedo s) = S (historyIndex s)).
    { unfold handleRedo. rewrite E. cbn [historyIndex setElements setHistoryIndex]. lia. }
    destruct (IH (handleRedo s) (handleRedo_synced s Hs)) as [Ih [Ii Is]].
    { rewrite handleRedo_history, Hi. lia. }
    rewrite Ih, Ii, handleRedo_history, Hi. repeat split; [lia | exact Is].
Qed.

(** X1: undo and redo are inverse walks along the history.  From a state
    whose document is the snapshot under a valid cursor, [k] undos
    followed by [k] redos give the state back when the cursor is at
    least [k], and [k] redos followed by [k] undos give it back when at
    least [k] entries lie beyond the cursor. *)
Theorem undo_redo_inverse_walks (k : nat) (s : AppState) :
  cursorValid s -> synced s ->
  ((k <= historyIndex s)%nat ->
   times k handleRedo (times k handleUndo s) = s) /\
  ((historyIndex s + k < List.length (history s))%nat ->
   times k handleUndo (times k handleRedo s) = s).
Proof.
  revert s. induction k as [| k IH]; intros s Hv Hs; [split; reflexivity |].
  split; intros Hk.
  - change (times (S k) handleUndo s) with (times k handleUndo (handleUndo s)).
    change (times (S k) handleRedo (times k handleUndo (handleUndo s)))
      with (times k handleRedo (handleRedo (times k handleUndo (handleUndo s)))).
    rewrite times_shift.
    destruct (IH (handleUndo s) (handleUndo_cursorValid s Hv) (handleUndo_synced s Hs))
      as [IH1 _].
    rewrite IH1 by (rewrite handleUndo_cursor; lia).
    apply redo_undo_id; auto. lia.
  - change (times (S k) handleRedo s) with (times k handleRedo (handleRedo s)).
    change (times (S k) handleUndo (times k handleRedo (handleRedo s)))
      with (times k handleUndo (handleUndo (times k handleRedo (handleRedo s)))).
    rewrite times_shift.
    assert (E : (historyIndex s <? List.length (history s) - 1)%nat = true)
      by (apply Nat.ltb_lt; lia).
    assert (Hi : historyIndex (handleRedo s) = S (historyIndex s)).
    { unfold handleRedo. rewrite E. cbn [historyIndex setElements setHistoryIndex]. lia. }
    destruct (IH (handleRedo s) (handleRedo_cursorValid s Hv) (handleRedo_synced s Hs))
      as [_ IH2].
    rewrite IH2 by (rewrite handleRedo_history, Hi; lia).
    apply undo_redo_id; auto.
Qed.

(** X2: undo reverts a command.  After a command has replaced and
    committed the document, one undo shows the previous document again
    with the previous cursor, and one redo after it shows the command's
    document. *)
Theorem undo_reverts_command (d : list Element) (s : AppState) :
  cursorValid s -> synced s ->
  elements (handleUndo (replaceDocument d s)) = elements s /\
  historyIndex (handleUndo (replaceDocument d s)) = historyIndex s /\
  elements (handleRedo (handleUndo (replaceDocument d s))) = d.
Proof.
  intros Hv Hs.
  assert (Hc : historyIndex (replaceDocument d s) = S (historyIndex s))
    by (apply (commitAction_cursor d (setElements d s)); exact Hv).
  assert (Hh : history (replaceDocument d s)
               = firstn (S (historyIndex s)) (history s) ++ [d]) by reflexivity.
  assert (Hl : List.length (firstn (S (historyIndex s)) (history s)) = S (historyIndex s)).
  { rewrite length_firstn. unfold cursorValid in Hv. lia. }
  assert (Hu : handleUndo (replaceDocument d s)
               = setElements (snapshotAt (replaceDocument d s) (historyIndex s))
                   (setHistoryIndex (historyIndex s) (replaceDocument d s))).
  { unfold handleUndo. rewrite Hc. simpl (0 <? S _)%nat. cbv iota.
    replace (S (historyIndex s) - 1)%nat with (historyIndex s) by lia. reflexivity. }
  assert (He : snapshotAt (replaceDocument d s) (historyIndex s) = elements s).
  { unfold snapshotAt. rewrite Hh, app_nth1 by lia.
    rewrite Hs. unfold snapshotAt.
    rewrite <- (firstn_skipn (S (historyIndex s)) (history s)) at 2.
    rewrite app_nth1 by lia. reflexivity. }
  rewrite Hu. split; [exact He |]. split; [reflexivity |].
  unfold handleRedo.
  cbn [history historyIndex setElements setHistoryIndex].
  rewrite Hh, length_app, Hl. cbn [List.length].
  destruct (historyIndex s <? S (historyIndex s) + 1 - 1)%nat eqn:E;
    [| apply Nat.ltb_ge in E; lia].
  cbn [elements setElements]. unfold snapshotAt.
  cbn [history setElements setHistoryIndex]. rewrite Hh.
  replace (historyIndex s + 1)%nat with (List.length (firstn (S (historyIndex s)) (history s)))
    by lia.
  apply nth_middle.
Qed.

(** ** Bounding boxes and the scan *)

(** Each bound of the running extent is the initial one or is attained
    at a visited point. *)
Lemma extent_attained (pts : list Point) (minX maxX minY maxY : Q) :
  let '(a, b, c, d) := extent pts (minX, maxX, minY, maxY) in
  (a == minX \/ exists pt, In pt pts /\ a == px pt) /\
  (b == maxX \/ exists pt, In pt pts /\ b == px pt) /\
  (c == minY \/ exists pt, In pt pts /\ c == py pt) /\
  (d == maxY \/ exists pt, In pt pts /\ d == py pt).
Proof.
  revert minX maxX minY maxY.
  induction pts as [| p rest IH]; intros minX maxX minY maxY; simpl.
  - repeat split; left; reflexivity.
  - specialize (IH (Qmin minX (px p)) (Qmax maxX (px p))
                   (Qmin minY (py p)) (Qmax maxY (py p))).
    destruct (extent rest _) as [[[a b] c] d].
    destruct IH as [Ha [Hb [Hc Hd]]].
    assert (L : forall (v w u : Q) (proj : Point -> Q),
               (v == w \/ v == proj p) ->
               (u == v \/ exists pt, In pt rest /\ u == proj pt) ->
               u == w \/ exists pt, In pt (p :: rest) /\ u == proj pt).
    { intros v w u proj [V | V] [U | [pt [Hin U]]].
      - left. rewrite U. exact V.
      - right. exists pt. split; [right; exact Hin | exact U].
      - right. exists p. split; [left; reflexivity | rewrite U; exact V].
      - right. exists pt. split; [right; exact Hin | exact U]. }
    repeat split.
    + apply (L (Qmin minX (px p)) minX a px); [| exact Ha].
      destruct (Q.min_spec minX (px p)) as [[_ E] | [_ E]]; [left | right]; exact E.
    + apply (L (Qmax maxX (px p)) maxX b px); [| exact Hb].
      destruct (Q.max_spec maxX (px p)) as [[_ E] | [_ E]]; [right | left]; exact E.
    + apply (L (Qmin minY (py p)) minY c py); [| exact Hc].
      destruct (Q.min_spec minY (py p)) as [[_ E] | [_ E]]; [left | right]; exact E.
    + apply (L (Qmax maxY (py p)) maxY d py); [| exact Hd].
      destruct (Q.max_spec maxY (py p)) as [[_ E] | [_ E]]; [right | left]; exact E.
Qed.

(** X3: [getElementBounds] of a path with points is spanned by extreme
    points of the path: its left and top sides are the smallest [x] and
    the smallest [y] among the points, its width and height are the
    differences to the largest [x] and the largest [y], and neither is
    negative.  A path without points gets the zero rectangle at the
    origin. *)
Theorem path_bounds_are_tight (p : PathElement) :
  (p_points p = [] -> getElementBounds (Path p) = mkRect 0 0 0 0) /\
  (p_points p <> [] ->
   let b := getElementBounds (Path p) in
   exists leftPt rightPt topPt bottomPt,
     In leftPt (p_points p) /\ In rightPt (p_points p) /\
     In topPt (p_points p) /\ In bottomPt (p_points p) /\
     (forall pt, In pt (p_points p) ->
                 px leftPt <= px pt /\ px pt <= px rightPt /\
                 py topPt <= py pt /\ py pt <= py bottomPt) /\
     rx b == px leftPt /\ ry b == py topPt /\
     rwidth b == px rightPt - px leftPt /\
     rheight b == py bottomPt - py topPt /\
     0 <= rwidth b /\ 0 <= rheight b).
Proof.
  split.
  - intros E. simpl. rewrite E. reflexivity.
  - intros Hne. simpl. destruct (p_points p) as [| p0 rest] eqn:E; [congruence |].
    pose proof (extent_encloses (p0 :: rest) (px p0) (px p0) (py p0) (py p0)) as He.
    pose proof (extent_attained (p0 :: rest) (px p0) (px p0) (py p0) (py p0)) as Ha.
    destruct (extent (p0 :: rest) _) as [[[a b] c] d].
    destruct He as [H1 [H2 [H3 [H4 H5]]]]. destruct Ha as [A1 [A2 [A3 A4]]].
    assert (P0 : In p0 (p0 :: rest)) by (left; reflexivity).
    assert (B1 : exists pt, In pt (p0 :: rest) /\ a == px pt)
      by (destruct A1 as [A | A]; [exists p0; split; assumption | exact A]).
    assert (B2 : exists pt, In pt (p0 :: rest) /\ b == px pt)
      by (destruct A2 as [A | A]; [exists p0; split; assumption | exact A]).
    assert (B3 : exists pt, In pt (p0 :: rest) /\ c == py pt)
      by (destruct A3 as [A | A]; [exists p0; split; assumption | exact A]).
    assert (B4 : exists pt, In pt (p0 :: rest) /\ d == py pt)
      by (destruct A4 as [A | A]; [exists p0; split; assumption | exact A]).
    destruct B1 as [lo [I1 E1]], B2 as [hi [I2 E2]], B3 as [top [I3 E3]],
             B4 as [bot [I4 E4]].
    exists lo, hi, top, bot. cbn [rx ry rwidth rheight].
    do 4 (split; [assumption |]).
    split; [intros pt Hin; specialize (H5 pt Hin); lra |].
    repeat split; lra.
Qed.

Lemma scanFrom_app (x y : Q) (els more : list Element) (n : nat) :
  (n <= List.length els)%nat -> scanFrom x y (els ++ more) n = scanFrom x y els n.
Proof.
  induction n as [| n IH]; intros Hn; [reflexivity |].
  simpl. rewrite nth_error_app1 by lia. rewrite IH by lia. reflexivity.
Qed.

(** X4: the element painted last wins.  Hit-testing a document with one
    more element on top returns that element when it passes the test at
    the point, and otherwise what the document below returns. *)
Theorem hitTest_top_element_first (x y : Q) (els : list Element) (e : Element) :
  getElementAtPosition x y (els ++ [e])
  = if matchesAt x y e then Some e else getElementAtPosition x y els.
Proof.
  unfold getElementAtPosition. rewrite length_app. cbn [List.length].
  replace (List.length els + 1)%nat with (S (List.length els)) by lia.
  cbn [scanFrom]. rewrite nth_error_app2 by lia.
  replace (List.length els - List.length els)%nat with 0%nat by lia.
  cbn [nth_error]. rewrite scanFrom_app by lia. reflexivity.
Qed.

(** X5: [spanRect] does not depend on the direction of the drag: its
    sizes are the absolute differences of the coordinates of the two
    corner points and are not negative, its left and top sides are the
    smaller coordinates, and swapping the two points gives the same
    rectangle. *)
Theorem spanRect_is_normalised (start c : Point) :
  let r := spanRect start c in
  0 <= rwidth r /\ 0 <= rheight r /\
  rx r == Qmin (px start) (px c) /\ ry r == Qmin (py start) (py c) /\
  rwidth r == Qabs (px c - px start) /\ rheight r == Qabs (py c - py start) /\
  rx (spanRect c start) == rx r /\ ry (spanRect c start) == ry r /\
  rwidth (spanRect c start) == rwidth r /\ rheight (spanRect c start) == rheight r.
Proof.
  unfold spanRect. cbn [rx ry rwidth rheight].
  pose proof (Qabs_nonneg (px c - px start)) as Wn.
  pose proof (Qabs_nonneg (py c - py start)) as Hn.
  assert (Sx : Qabs (px start - px c) == Qabs (px c - px start)).
  { rewrite <- (Qabs_opp (px c - px start)). apply Qabs_wd. ring. }
  assert (Sy : Qabs (py start - py c) == Qabs (py c - py start)).
  { rewrite <- (Qabs_opp (py c - py start)). apply Qabs_wd. ring. }
  split; [exact Wn |]. split; [exact Hn |].
  assert (M : forall a b : Q, (if num_lt (b - a) 0 then b else a) == Qmin a b).
  { intros a b. destruct (num_lt (b - a) 0) eqn:Ex;
      [apply num_lt_iff in Ex | apply num_lt_false_iff in Ex];
      destruct (Q.min_spec a b) as [[? M] | [? M]]; rewrite M; lra. }
  split; [apply M |]. split; [apply M |].
  split; [reflexivity |]. split; [reflexivity |].
  split; [rewrite !M; apply Q.min_comm |]. split; [rewrite !M; apply Q.min_comm |].
  split; [exact Sx | exact Sy].
Qed.

(** ** Rubber band: growth and the degenerate band of a click *)

(** X6: growing the rubber band never deselects.  An element in a box
    is in every box that encloses it, and so is its id in the selection
    pointer-up computes. *)
Theorem rubber_band_is_monotone (B B' : Rect) :
  rx B' <= rx B -> rx B + rwidth B <= rx B' + rwidth B' ->
  ry B' <= ry B -> ry B + rheight B <= ry B' + rheight B' ->
  (forall e, isElementInSelectionBox e B = true -> isElementInSelectionBox e B' = true) /\
  (forall els id, In id (boxSelectedIds els B) -> In id (boxSelectedIds els B')).
Proof.
  intros H1 H2 H3 H4.
  assert (G : forall e, isElementInSelectionBox e B = true ->
                        isElementInSelectionBox e B' = true).
  { intros e. rewrite !isElementInSelectionBox_iff.
    destruct e as [i | sh | p]; simpl.
    - intros [A1 [A2 [A3 A4]]]. repeat split; lra.
    - intros [A1 [A2 [A3 A4]]]. repeat split; lra.
    - intros [pt [Hin [A1 [A2 [A3 A4]]]]]. exists pt. repeat split; auto; lra. }
  split; [exact G |].
  intros els id. unfold boxSelectedIds. rewrite !in_map_iff.
  intros [e [Hid Hin]]. exists e. split; [exact Hid |].
  apply filter_In in Hin. apply filter_In. split; [tauto |]. apply G. tauto.
Qed.

Lemma hitTest_none_all_fail (x y : Q) (els : list Element) :
  getElementAtPosition x y els = None ->
  forall e, In e els -> matchesAt x y e = false.
Proof.
  unfold getElementAtPosition. intros H e Hin.
  pose proof (scanFrom_spec x y els (List.length els)) as S. rewrite H in S.
  apply In_nth_error in Hin. destruct Hin as [j Hj].
  apply (S j); [eapply nth_error_bound; exact Hj | exact Hj].
Qed.

(** An element in the zero-size box at a point the test rejects it at
    is a path of one point, lying at that point. *)
Lemma degenerate_band_member (x y : Q) (e : Element) :
  matchesAt x y e = false ->
  isElementInSelectionBox e (mkRect x y 0 0) = true ->
  exists p pt, e = Path p /\ p_points p = [pt] /\ px pt == x /\ py pt == y.
Proof.
  intros Hm Hb. apply isElementInSelectionBox_iff in Hb.
  apply matchesAt_false_iff in Hm. unfold contains, inRect in Hm.
  destruct e as [i | sh | p]; simpl in Hb, Hm.
  - exfalso. apply Hm. destruct Hb as [A1 [A2 [A3 A4]]]. repeat split; lra.
  - exfalso. apply Hm. destruct Hb as [A1 [A2 [A3 A4]]]. repeat split; lra.
  - destruct Hb as [pt [Hin [A1 [A2 [A3 A4]]]]].
    destruct (p_points p) as [| p0 [| p1 rest]] eqn:E.
    + destruct Hin.
    + destruct Hin as [-> | []]. exists p, pt. repeat split; auto; lra.
    + exfalso. apply Hm.
      pose proof (extent_encloses (p0 :: p1 :: rest) (px p0) (px p0) (py p0) (py p0)) as He.
      destruct (extent (p0 :: p1 :: rest) _) as [[[a b] c] d].
      destruct He as [_ [_ [_ [_ H5]]]]. specialize (H5 pt Hin).
      cbn [rx ry rwidth rheight]. split; [repeat split; lra | simpl; lia].
Qed.

(** X7: a click with the select tool where the hit-test finds nothing
    (pointer-down and pointer-up, no move) runs the rubber-band
    selection on a zero-size box: it selects exactly the elements of
    that box, and each of them is a one-point path lying at the clicked
    point. *)
Theorem click_on_empty_spot_selects_point_paths
        (fresh : string) (rect : DOMRect) (down : PointerEvent) (s : AppState) :
  activeTool s = select -> croppingState s = None -> resizeTarget s down = None ->
  let c := toCanvas s rect down in
  getElementAtPosition (px c) (py c) (elements s) = None ->
  let s' := gesture fresh rect down [] s in
  selectedElementIds s' = boxSelectedIds (elements s) (mkRect (px c) (py c) 0 0) /\
  selectedElement s' = None /\
  elements s' = elements s /\ history s' = history s /\
  forall e, In e (elements s) ->
            isElementInSelectionBox e (mkRect (px c) (py c) 0 0) = true ->
            exists p pt, e = Path p /\ p_points p = [pt] /\
                         px pt == px c /\ py pt == py c.
Proof.
  intros Ht Hc Hr c Hnone s'.
  assert (E : s' = clearGesture
                     (setSelectionBox None
                        (setSelectedElementIds
                           (boxSelectedIds (elements s) (mkRect (px c) (py c) 0 0))
                           (setSelectionBox (Some (mkRect (px c) (py c) 0 0))
                              (setAction drawing
                                 (setSelectedElementIds []
                                    (setSelectedElement None (set_startPoint c s)))))))).
  { unfold s', gesture. cbn [fold_left].
    unfold handleMouseDown. rewrite Hc, Ht, Hr. fold c. rewrite Hnone.
    unfold handleMouseUp.
    cbn [croppingState cropStartInfo action activeTool selectionBox elements
         setSelectionBox setAction setSelectedElementIds setSelectedElement set_startPoint].
    rewrite Hc, Ht. reflexivity. }
  rewrite E. repeat split.
  intros e Hin Hb.
  apply (degenerate_band_member (px c) (py c) e); [| exact Hb].
  apply (hitTest_none_all_fail _ _ _ Hnone e Hin).
Qed.

(** ** Branches of the pointer handlers, on any state that takes them *)

Lemma truthy_nonempty (id : string) : id <> EmptyString -> truthy (Some id) = true.
Proof.
  intros H. unfold truthy. destruct (String.eqb id EmptyString) eqn:E; [| reflexivity].
  apply String.eqb_eq in E. contradiction.
Qed.

Lemma clearGesture_elements (st : AppState) : elements (clearGesture st) = elements st.
Proof. reflexivity. Qed.

Lemma clearGesture_history (st : AppState) : history (clearGesture st) = history st.
Proof. reflexivity. Qed.

Lemma clearGesture_historyIndex (st : AppState) :
  historyIndex (clearGesture st) = historyIndex st.
Proof. reflexivity. Qed.

Lemma clearGesture_idle (st : AppState) :
  action (clearGesture st) = none /\ currentDrawingElementId (clearGesture st) = None /\
  dragStartElementPositions (clearGesture st) = [] /\
  resizeStartInfo (clearGesture st) = None /\ cropStartInfo (clearGesture st) = None.
Proof. repeat split. Qed.

(** The pointer-moves of a gesture, one at a time. *)
Lemma moves_nil (rect : DOMRect) (st : AppState) :
  fold_left (fun st ev => handleMouseMove (Some rect) ev st) [] st = st.
Proof. reflexivity. Qed.

Lemma moves_cons (rect : DOMRect) (ev : PointerEvent) (rest : list PointerEvent)
      (st : AppState) :
  fold_left (fun st ev => handleMouseMove (Some rect) ev st) (ev :: rest) st
  = fold_left (fun st ev => handleMouseMove (Some rect) ev st) rest
              (handleMouseMove (Some rect) ev st).
Proof. reflexivity. Qed.

Lemma gesture_unfold (fresh : string) (rect : DOMRect) (down : PointerEvent)
      (moves : list PointerEvent) (s : AppState) :
  gesture fresh rect down moves s
  = handleMouseUp
      (fold_left (fun st ev => handleMouseMove (Some rect) ev st) moves
                 (handleMouseDown fresh (Some rect) down s)).
Proof. reflexivity. Qed.

Section Branches.

Variable rect : DOMRect.
Variable ev : PointerEvent.
Variable st : AppState.
Hypothesis not_cropping : croppingState st = None.

(** The shape-drawing branch of [handleMouseMove]. *)
Lemma shape_step (id : string) :
  action st = drawing -> isShapeTool (activeTool st) = true ->
  currentDrawingElementId st = Some id -> id <> EmptyString ->
  handleMouseMove (Some rect) ev st
  = setElements
      (map (fun el =>
              if idIs (Some id) el then
                match el with
                | Shape _ =>
                    withGeom el (rx (spanRect (startPoint st) (toCanvas st rect ev)))
                             (ry (spanRect (startPoint st) (toCanvas st rect ev)))
                             (rwidth (spanRect (startPoint st) (toCanvas st rect ev)))
                             (rheight (spanRect (startPoint st) (toCanvas st rect ev)))
                | _ => el
                end
              else el)
           (elements st))
      st.
Proof.
  intros Ha Ht Hid Hne. unfold handleMouseMove.
  rewrite not_cropping, Ha, Hid, (truthy_nonempty id Hne).
  destruct (activeTool st); try discriminate;
    destruct (selectedElement st), (resizeStartInfo st); reflexivity.
Qed.

(** The path-drawing branch of [handleMouseMove]. *)
Lemma draw_step (id : string) :
  action st = drawing -> activeTool st = draw ->
  currentDrawingElementId st = Some id -> id <> EmptyString ->
  handleMouseMove (Some rect) ev st
  = setElements
      (map (fun el =>
              if idIs (Some id) el then
                match el with
                | Path p => Path (withPoints p (p_points p ++ [toCanvas st rect ev]))
                | _ => el
                end
              else el)
           (elements st))
      st.
Proof.
  intros Ha Ht Hid Hne. unfold handleMouseMove.
  rewrite not_cropping, Ha, Ht, Hid, (truthy_nonempty id Hne).
  destruct (selectedElement st), (resizeStartInfo st); reflexivity.
Qed.

(** Pointer-up after drawing a shape or a path. *)
Lemma drawing_up (id : string) :
  action st = drawing -> isShapeTool (activeTool st) = true \/ activeTool st = draw ->
  currentDrawingElementId st = Some id -> id <> EmptyString ->
  handleMouseUp st = clearGesture (commitAction (elements st) st).
Proof.
  intros Ha Ht Hid Hne. unfold handleMouseUp.
  rewrite not_cropping, Ha, Hid, (truthy_nonempty id Hne).
  destruct Ht as [Ht | Ht].
  - destruct (activeTool st); try discriminate; reflexivity.
  - rewrite Ht. reflexivity.
Qed.

(** The moving branch of [handleMouseMove]. *)
Lemma moving_step (sel : Element) :
  action st = moving -> selectedElement st = Some sel -> activeTool st = select ->
  handleMouseMove (Some rect) ev st
  = match mapThrow (dragged st (px (toCanvas st rect ev) - px (startPoint st))
                            (py (toCanvas st rect ev) - py (startPoint st)) sel)
                   (elements st) with
    | Some newElements => setElements newElements st
    | None => st
    end.
Proof.
  intros Ha Hs Ht. unfold handleMouseMove. rewrite not_cropping, Ha, Hs, Ht. reflexivity.
Qed.

(** Pointer-up while moving with something selected. *)
Lemma moving_up (sel : Element) :
  action st = moving -> selectedElement st = Some sel ->
  handleMouseUp st = clearGesture (commitAction (elements st) st).
Proof.
  intros Ha Hs. unfold handleMouseUp. rewrite not_cropping, Ha, Hs.
  destruct (activeTool st), (selectionBox st); reflexivity.
Qed.

(** Pointer-up while moving with nothing selected. *)
Lemma moving_up_unselected :
  action st = moving -> selectedElement st = None ->
  handleMouseUp st = clearGesture st.
Proof.
  intros Ha Hs. unfold handleMouseUp. rewrite not_cropping, Ha, Hs.
  destruct (activeTool st), (selectionBox st), (resizeStartInfo st); reflexivity.
Qed.



(** The pan branch of [handleMouseMove]. *)
Lemma pan_step :
  action st = moving -> activeTool st = pan ->
  handleMouseMove (Some rect) ev st
  = set_startPoint (mkPoint (clientX ev) (clientY ev))
      (setPanOffset (mkPoint (px (panOffset st) + (clientX ev - px (startPoint st)))
                             (py (panOffset st) + (clientY ev - py (startPoint st))))
                    st).
Proof.
  intros Ha Ht. unfold handleMouseMove. rewrite not_cropping, Ha, Ht.
  destruct (selectedElement st), (resizeStartInfo st); reflexivity.
Qed.

End Branches.

(** The cropping branches of the three handlers. *)
Lemma crop_down (fresh : string) (rect : DOMRect) (ev : PointerEvent)
      (st : AppState) (cs : CroppingState) :
  croppingState st = Some cs ->
  handleMouseDown fresh (Some rect) ev st
  = set_cropStartInfo (Some (mkCropStart (cropBox cs) (toCanvas st rect ev)))
      (set_startPoint (toCanvas st rect ev) st).
Proof. intros Hc. unfold handleMouseDown. rewrite Hc. reflexivity. Qed.

Lemma crop_step (rect : DOMRect) (ev : PointerEvent) (st : AppState)
      (cs : CroppingState) (info : CropStartInfo) :
  croppingState st = Some cs -> cropStartInfo st = Some info ->
  handleMouseMove (Some rect) ev st
  = setCroppingState
      (Some (mkCropping (elementId cs) (originalImage cs)
               (mkRect (rx (originalCropBox info)
                        + (px (toCanvas st rect ev) - px (cropStartCanvasPoint info)))
                       (ry (originalCropBox info)
                        + (py (toCanvas st rect ev) - py (cropStartCanvasPoint info)))
                       (rwidth (originalCropBox info)) (rheight (originalCropBox info)))))
      st.
Proof. intros Hc Hi. unfold handleMouseMove. rewrite Hc, Hi. reflexivity. Qed.

Lemma crop_up (st : AppState) (cs : CroppingState) (info : CropStartInfo) :
  croppingState st = Some cs -> cropStartInfo st = Some info ->
  handleMouseUp st = set_cropStartInfo None st.
Proof. intros Hc Hi. unfold handleMouseUp. rewrite Hc, Hi. reflexivity. Qed.

(** ** Drawing gestures *)

Lemma map_id_unused (f : Element -> Element) (id : string) (els : list Element) :
  idUnused id els ->
  map (fun el => if idIs (Some id) el then f el else el) els = els.
Proof.
  intros H. rewrite <- (map_id els) at 2. apply map_ext_in.
  intros e Hin. unfold idIs.
  destruct (String.eqb (el_id e) id) eqn:E; [| reflexivity].
  apply String.eqb_eq in E. elim (H e Hin E).
Qed.

Section GestureInProgress.

Variable s : AppState.
Variable fresh : string.
Variable rect : DOMRect.
Hypothesis not_cropping : croppingState s = None.
Hypothesis fresh_nonempty : fresh <> EmptyString.
Hypothesis fresh_unused : idUnused fresh (elements s).

Lemma shapeDrawing_setElements (c0 : Point) (g g' : Rect) :
  setElements (elements s ++ [drawnShape s fresh g']) (shapeDrawing s fresh c0 g)
  = shapeDrawing s fresh c0 g'.
Proof. reflexivity. Qed.

Lemma pathDrawing_setElements (c0 : Point) (pts pts' : list Point) :
  setElements (elements s ++ [drawnPath s fresh pts']) (pathDrawing s fresh c0 pts)
  = pathDrawing s fresh c0 pts'.
Proof. reflexivity. Qed.

Lemma shape_down (down : PointerEvent) :
  isShapeTool (activeTool s) = true ->
  handleMouseDown fresh (Some rect) down s
  = shapeDrawing s fresh (toCanvas s rect down)
      (mkRect (px (toCanvas s rect down)) (py (toCanvas s rect down)) 0 0).
Proof.
  intros Ht. unfold handleMouseDown, shapeDrawing, drawnShape. rewrite not_cropping.
  destruct (activeTool s) eqn:E; try discriminate; reflexivity.
Qed.

Lemma shape_move (c0 : Point) (g : Rect) (ev : PointerEvent) :
  isShapeTool (activeTool s) = true ->
  handleMouseMove (Some rect) ev (shapeDrawing s fresh c0 g)
  = shapeDrawing s fresh c0 (spanRect c0 (toCanvas s rect ev)).
Proof.
  intros Ht.
  rewrite (shape_step rect ev (shapeDrawing s fresh c0 g) not_cropping fresh
                      eq_refl Ht eq_refl fresh_nonempty).
  change (elements (shapeDrawing s fresh c0 g)) with (elements s ++ [drawnShape s fresh g]).
  change (startPoint (shapeDrawing s fresh c0 g)) with c0.
  change (toCanvas (shapeDrawing s fresh c0 g) rect ev) with (toCanvas s rect ev).
  rewrite map_app, (map_id_unused _ fresh (elements s) fresh_unused).
  cbn [map]. unfold idIs at 1. unfold drawnShape at 1 2. cbn [el_id s_id].
  rewrite String.eqb_refl. apply shapeDrawing_setElements.
Qed.

Lemma shape_moves (c0 : Point) (g : Rect) (moves : list PointerEvent) (last : PointerEvent) :
  isShapeTool (activeTool s) = true ->
  fold_left (fun st ev => handleMouseMove (Some rect) ev st) (moves ++ [last])
            (shapeDrawing s fresh c0 g)
  = shapeDrawing s fresh c0 (spanRect c0 (toCanvas s rect last)).
Proof.
  intros Ht. revert g. induction moves as [| ev rest IH]; intros g.
  - rewrite app_nil_l, moves_cons, moves_nil. apply shape_move. exact Ht.
  - rewrite <- app_comm_cons, moves_cons, shape_move by exact Ht. apply IH.
Qed.

Lemma shape_up (c0 : Point) (g : Rect) :
  isShapeTool (activeTool s) = true ->
  handleMouseUp (shapeDrawing s fresh c0 g)
  = clearGesture (commitAction (elements s ++ [drawnShape s fresh g])
                               (shapeDrawing s fresh c0 g)).
Proof.
  intros Ht.
  apply (drawing_up (shapeDrawing s fresh c0 g) not_cropping fresh
                    eq_refl (or_introl Ht) eq_refl fresh_nonempty).
Qed.

Lemma draw_down (down : PointerEvent) :
  activeTool s = draw ->
  handleMouseDown fresh (Some rect) down s
  = pathDrawing s fresh (toCanvas s rect down) [toCanvas s rect down].
Proof.
  intros Ht. unfold handleMouseDown. rewrite not_cropping, Ht.
  unfold pathDrawing, drawnPath. cbn [createElement isShapeTool Tool_eqb p_id p_x p_y].
  destruct (toCanvas s rect down); reflexivity.
Qed.

Lemma draw_move (c0 : Point) (pts : list Point) (ev : PointerEvent) :
  activeTool s = draw ->
  handleMouseMove (Some rect) ev (pathDrawing s fresh c0 pts)
  = pathDrawing s fresh c0 (pts ++ [toCanvas s rect ev]).
Proof.
  intros Ht.
  rewrite (draw_step rect ev (pathDrawing s fresh c0 pts) not_cropping fresh
                     eq_refl Ht eq_refl fresh_nonempty).
  change (elements (pathDrawing s fresh c0 pts)) with (elements s ++ [drawnPath s fresh pts]).
  change (toCanvas (pathDrawing s fresh c0 pts) rect ev) with (toCanvas s rect ev).
  rewrite map_app, (map_id_unused _ fresh (elements s) fresh_unused).
  cbn [map]. unfold idIs at 1. unfold drawnPath at 1 2. cbn [el_id p_id].
  rewrite String.eqb_refl. apply pathDrawing_setElements.
Qed.

Lemma draw_moves (c0 : Point) (pts : list Point) (moves : list PointerEvent) :
  activeTool s = draw ->
  fold_left (fun st ev => handleMouseMove (Some rect) ev st) moves
            (pathDrawing s fresh c0 pts)
  = pathDrawing s fresh c0 (pts ++ map (toCanvas s rect) moves).
Proof.
  intros Ht. revert pts. induction moves as [| ev rest IH]; intros pts.
  - rewrite moves_nil. cbn [map]. rewrite app_nil_r. reflexivity.
  - rewrite moves_cons, draw_move by exact Ht. rewrite IH, <- app_assoc. reflexivity.
Qed.

Lemma draw_up (c0 : Point) (pts : list Point) :
  activeTool s = draw ->
  handleMouseUp (pathDrawing s fresh c0 pts)
  = clearGesture (commitAction (elements s ++ [drawnPath s fresh pts])
                               (pathDrawing s fresh c0 pts)).
Proof.
  intros Ht.
  apply (drawing_up (pathDrawing s fresh c0 pts) not_cropping fresh
                    eq_refl (or_intror Ht) eq_refl fresh_nonempty).
Qed.

End GestureInProgress.

(** The entry pointer-up commits, and the cursor after it. *)
Lemma committed_gesture (X : list Element) (st s : AppState) :
  elements st = X -> history st = history s -> historyIndex st = historyIndex s ->
  cursorValid s ->
  elements (clearGesture (commitAction X st)) = X /\
  history (clearGesture (commitAction X st))
  = firstn (S (historyIndex s)) (history s) ++ [X] /\
  historyIndex (clearGesture (commitAction X st)) = S (historyIndex s).
Proof.
  intros He Hh Hi Hv.
  rewrite clearGesture_elements, clearGesture_history, clearGesture_historyIndex.
  rewrite commitAction_elements, commitAction_history, Hh, Hi.
  split; [exact He |]. split; [reflexivity |].
  rewrite <- Hi. apply commitAction_cursor. unfold cursorValid. rewrite Hh, Hi. exact Hv.
Qed.

(** X8: a shape-tool gesture adds one shape and one history entry.
    With a generated id that is not empty and not yet in the document,
    pointer-down, any pointer-moves and pointer-up leave the old
    document with one new shape on top, whose rectangle is the one
    spanned by the first and the last pointer position (intermediate
    positions leave no trace), commit exactly that document and return
    to idle; without any move the new shape has size zero and is
    committed all the same. *)
Theorem shape_gesture_adds_spanned_shape
        (fresh : string) (rect : DOMRect) (down : PointerEvent)
        (moves : list PointerEvent) (last : PointerEvent) (s : AppState) :
  isShapeTool (activeTool s) = true -> croppingState s = None ->
  fresh <> EmptyString -> idUnused fresh (elements s) -> cursorValid s ->
  let c0 := toCanvas s rect down in
  let c1 := toCanvas s rect last in
  let afterDrag := gesture fresh rect down (moves ++ [last]) s in
  let afterClick := gesture fresh rect down [] s in
  (elements afterDrag = elements s ++ [drawnShape s fresh (spanRect c0 c1)] /\
   history afterDrag
   = firstn (S (historyIndex s)) (history s)
     ++ [elements s ++ [drawnShape s fresh (spanRect c0 c1)]] /\
   historyIndex afterDrag = S (historyIndex s) /\
   action afterDrag = none /\ currentDrawingElementId afterDrag = None) /\
  (elements afterClick = elements s ++ [drawnShape s fresh (mkRect (px c0) (py c0) 0 0)] /\
   history afterClick
   = firstn (S (historyIndex s)) (history s)
     ++ [elements s ++ [drawnShape s fresh (mkRect (px c0) (py c0) 0 0)]]).
Proof.
  intros Ht Hc Hne Hun Hv c0 c1 afterDrag afterClick.
  split.
  - unfold afterDrag. rewrite gesture_unfold.
    rewrite (shape_down s fresh rect Hc down Ht).
    rewrite (shape_moves s fresh rect Hc Hne Hun _ _ moves last Ht).
    rewrite (shape_up s fresh Hc Hne _ _ Ht).
    destruct (committed_gesture (elements s ++ [drawnShape s fresh (spanRect c0 c1)])
                (shapeDrawing s fresh c0 (spanRect c0 c1)) s
                eq_refl eq_refl eq_refl Hv) as [H1 [H2 H3]].
    repeat split; assumption.
  - unfold afterClick. rewrite gesture_unfold, moves_nil.
    rewrite (shape_down s fresh rect Hc down Ht).
    rewrite (shape_up s fresh Hc Hne _ _ Ht).
    destruct (committed_gesture
                (elements s ++ [drawnShape s fresh (mkRect (px c0) (py c0) 0 0)])
                (shapeDrawing s fresh c0 (mkRect (px c0) (py c0) 0 0)) s
                eq_refl eq_refl eq_refl Hv) as [H1 [H2 H3]].
    split; assumption.
Qed.

(** X9: a draw-tool gesture adds one path and one history entry.  The
    new path collects the pointer-down position followed by every
    pointer-move position in order, keeps the placeholders [x = y = 0],
    and is committed once at pointer-up; a click without a move commits
    a path of a single point. *)
Theorem draw_gesture_collects_points
        (fresh : string) (rect : DOMRect) (down : PointerEvent)
        (moves : list PointerEvent) (s : AppState) :
  activeTool s = draw -> croppingState s = None ->
  fresh <> EmptyString -> idUnused fresh (elements s) -> cursorValid s ->
  let pts := toCanvas s rect down :: map (toCanvas s rect) moves in
  let s' := gesture fresh rect down moves s in
  elements s' = elements s ++ [drawnPath s fresh pts] /\
  history s'
  = firstn (S (historyIndex s)) (history s) ++ [elements s ++ [drawnPath s fresh pts]] /\
  historyIndex s' = S (historyIndex s) /\
  action s' = none /\ currentDrawingElementId s' = None.
Proof.
  intros Ht Hc Hne Hun Hv pts s'. unfold s'. rewrite gesture_unfold.
  rewrite (draw_down s fresh rect Hc down Ht).
  rewrite (draw_moves s fresh rect Hc Hne Hun _ _ moves Ht).
  rewrite (draw_up s fresh Hc Hne _ _ Ht).
  change ([toCanvas s rect down] ++ map (toCanvas s rect) moves) with pts.
  destruct (committed_gesture (elements s ++ [drawnPath s fresh pts])
              (pathDrawing s fresh (toCanvas s rect down) pts) s
              eq_refl eq_refl eq_refl Hv) as [H1 [H2 H3]].
  repeat split; assumption.
Qed.

(** ** Dragging an element with the select tool *)

Lemma mapGet_mapSet (k : string) (v : DragStart) (m : list (string * DragStart)) :
  mapGet k (mapSet k v m) = Some v.
Proof.
  induction m as [| [k' v'] rest IH]; simpl.
  - rewrite String.eqb_refl. reflexivity.
  - destruct (String.eqb k' k) eqn:E; simpl.
    + rewrite String.eqb_refl. reflexivity.
    + rewrite E. exact IH.
Qed.

(** A second pointer-move forgets the first: the callback reads the
    drag-start record, not the element's current place. *)
Lemma dragged_forgets (st : AppState) (dx dy dx' dy' : Q) (sel el el' : Element) :
  dragged st dx dy sel el = Some el' ->
  dragged st dx' dy' sel el' = dragged st dx' dy' sel el.
Proof.
  unfold dragged. destruct (String.eqb (el_id el) (el_id sel)) eqn:E.
  - destruct el as [i | sh | p];
      destruct (mapGet _ (dragStartElementPositions st)) as [[ox oy | pts] |] eqn:G;
      intros H; inversion H; subst el'; cbn [el_id withPos withPoints i_id s_id p_id] in *;
      rewrite E, G; reflexivity.
  - intros H. inversion H; subst el'. rewrite E. reflexivity.
Qed.

Lemma dragged_throws_alike (st : AppState) (dx dy dx' dy' : Q) (sel el : Element) :
  dragged st dx dy sel el = None -> dragged st dx' dy' sel el = None.
Proof.
  unfold dragged. destruct (String.eqb (el_id el) (el_id sel)); [| discriminate].
  destruct el as [i | sh | p];
    destruct (mapGet _ (dragStartElementPositions st)) as [[ox oy | pts] |];
    intros H; try discriminate; reflexivity.
Qed.

Lemma mapThrow_forgets (f g : Element -> option Element) (X X1 : list Element) :
  (forall el el', f el = Some el' -> g el' = g el) ->
  mapThrow f X = Some X1 -> mapThrow g X1 = mapThrow g X.
Proof.
  intros Hfg. revert X1. induction X as [| el rest IH]; simpl; intros X1 H.
  - inversion H. reflexivity.
  - destruct (f el) as [el' |] eqn:E; [| discriminate].
    destruct (mapThrow f rest) as [rest' |]; [| discriminate].
    inversion H; subst X1. simpl. rewrite (Hfg _ _ E), (IH rest' eq_refl). reflexivity.
Qed.

Lemma mapThrow_throws_alike (f g : Element -> option Element) (X : list Element) :
  (forall el, f el = None -> g el = None) ->
  mapThrow f X = None -> mapThrow g X = None.
Proof.
  intros Hfg. induction X as [| el rest IH]; simpl; [discriminate |].
  destruct (f el) as [el' |] eqn:E.
  - destruct (mapThrow f rest) as [rest' |]; [discriminate |].
    intros _. rewrite (IH eq_refl). destruct (g el); reflexivity.
  - intros _. rewrite (Hfg el E). reflexivity.
Qed.

Lemma mapThrow_total (f : Element -> option Element) (g : Element -> Element)
      (X : list Element) :
  (forall el, In el X -> f el = Some (g el)) -> mapThrow f X = Some (map g X).
Proof.
  induction X as [| el rest IH]; intros H; simpl; [reflexivity |].
  rewrite (H el (or_introl eq_refl)), IH; [reflexivity |].
  intros e Hin. apply H. right. exact Hin.
Qed.

(** The element whose drag-start record was just taken is translated. *)
Lemma dragged_at_start (st : AppState) (dx dy : Q) (e : Element) :
  mapGet (el_id e) (dragStartElementPositions st) = Some (dragStartOf e) ->
  dragged st dx dy e e = Some (translated dx dy e).
Proof.
  intros G. unfold dragged. rewrite String.eqb_refl.
  destruct e; cbn [el_id dragStartOf] in *; rewrite G; reflexivity.
Qed.

Section SelectDrag.

Variable s : AppState.
Variable clicked : Element.
Variable rect : DOMRect.
Hypothesis tool_select : activeTool s = select.
Hypothesis not_cropping : croppingState s = None.

Lemma movingState_setElements (c0 : Point) (X Y : list Element) :
  setElements Y (movingState s clicked c0 X) = movingState s clicked c0 Y.
Proof. reflexivity. Qed.

Lemma moveTo_forgets (c0 c1 c2 : Point) (X : list Element) :
  moveTo s clicked c0 c2 (moveTo s clicked c0 c1 X) = moveTo s clicked c0 c2 X.
Proof.
  set (st := movingState s clicked c0 X).
  set (f1 := dragged st (px c1 - px c0) (py c1 - py c0) clicked).
  set (f2 := dragged st (px c2 - px c0) (py c2 - py c0) clicked).
  assert (U : forall Y, moveTo s clicked c0 c1 Y
                        = match mapThrow f1 Y with Some n => n | None => Y end)
    by reflexivity.
  assert (V : forall Y, moveTo s clicked c0 c2 Y
                        = match mapThrow f2 Y with Some n => n | None => Y end)
    by reflexivity.
  rewrite U. destruct (mapThrow f1 X) as [X1 |] eqn:E; [| reflexivity].
  rewrite !V.
  assert (R : mapThrow f2 X1 = mapThrow f2 X).
  { apply (mapThrow_forgets f1 f2 X X1); [| exact E].
    intros el el' H. apply (dragged_forgets st _ _ _ _ clicked el el' H). }
  rewrite R. destruct (mapThrow f2 X) as [X2 |] eqn:E2; [reflexivity |].
  assert (N : mapThrow f1 X = None).
  { apply (mapThrow_throws_alike f2 f1 X); [| exact E2].
    intros el H. apply (dragged_throws_alike st _ _ _ _ clicked el H). }
  congruence.
Qed.

Lemma select_down (fresh : string) (down : PointerEvent) :
  resizeTarget s down = None ->
  getElementAtPosition (px (toCanvas s rect down)) (py (toCanvas s rect down)) (elements s)
  = Some clicked ->
  handleMouseDown fresh (Some rect) down s
  = movingState s clicked (toCanvas s rect down) (elements s).
Proof.
  intros Hr Hhit. unfold handleMouseDown. rewrite not_cropping, tool_select, Hr, Hhit.
  unfold movingState, dragStartOf. destruct clicked; reflexivity.
Qed.

Lemma select_move (c0 : Point) (X : list Element) (ev : PointerEvent) :
  handleMouseMove (Some rect) ev (movingState s clicked c0 X)
  = movingState s clicked c0 (moveTo s clicked c0 (toCanvas s rect ev) X).
Proof.
  rewrite (moving_step rect ev (movingState s clicked c0 X) not_cropping clicked
                       eq_refl eq_refl tool_select).
  change (toCanvas (movingState s clicked c0 X) rect ev) with (toCanvas s rect ev).
  change (startPoint (movingState s clicked c0 X)) with c0.
  change (elements (movingState s clicked c0 X)) with X.
  unfold moveTo. destruct (mapThrow _ X) as [Y |].
  - apply movingState_setElements.
  - reflexivity.
Qed.

Lemma select_moves (c0 : Point) (X : list Element) (moves : list PointerEvent)
      (last : PointerEvent) :
  fold_left (fun st ev => handleMouseMove (Some rect) ev st) (moves ++ [last])
            (movingState s clicked c0 X)
  = movingState s clicked c0 (moveTo s clicked c0 (toCanvas s rect last) X).
Proof.
  revert X. induction moves as [| ev rest IH]; intros X.
  - rewrite app_nil_l, moves_cons, moves_nil. apply select_move.
  - rewrite <- app_comm_cons, moves_cons, select_move, IH, moveTo_forgets. reflexivity.
Qed.

Lemma select_up (c0 : Point) (X : list Element) :
  handleMouseUp (movingState s clicked c0 X)
  = clearGesture (commitAction X (movingState s clicked c0 X)).
Proof.
  apply (moving_up (movingState s clicked c0 X) not_cropping clicked eq_refl eq_refl).
Qed.

(** With one element of that id, a pointer-move at [c] translates it by
    [c - c0] and keeps the rest. *)
Lemma moveTo_translates (c0 c : Point) :
  In clicked (elements s) -> idNamesOnly clicked (elements s) ->
  moveTo s clicked c0 c (elements s)
  = map (fun el => if String.eqb (el_id el) (el_id clicked)
                   then translated (px c - px c0) (py c - py c0) clicked else el)
        (elements s).
Proof.
  intros Hin Huniq. unfold moveTo.
  rewrite (mapThrow_total _
             (fun el => if String.eqb (el_id el) (el_id clicked)
                        then translated (px c - px c0) (py c - py c0) clicked else el));
    [reflexivity |].
  intros el Hel.
  destruct (String.eqb (el_id el) (el_id clicked)) eqn:E.
  - apply String.eqb_eq in E. rewrite (Huniq el Hel E).
    apply dragged_at_start. apply mapGet_mapSet.
  - unfold dragged. rewrite E. reflexivity.
Qed.

End SelectDrag.

(** X10: a drag with the select tool is anchored at pointer-down.  When
    pointer-down hits an element, the document after any sequence of
    pointer-moves is the one the last pointer-move alone would give;
    pointer-up commits it as one history entry and returns to idle.
    The selection keeps the element as it was at pointer-down, which is
    what a copy made afterwards captures.  A click without a move
    leaves the document alone and commits it once more. *)
Theorem select_drag_is_anchored
        (fresh : string) (rect : DOMRect) (down : PointerEvent)
        (moves : list PointerEvent) (last : PointerEvent)
        (s : AppState) (clicked : Element) :
  activeTool s = select -> croppingState s = None -> resizeTarget s down = None ->
  getElementAtPosition (px (toCanvas s rect down)) (py (toCanvas s rect down)) (elements s)
  = Some clicked ->
  cursorValid s ->
  let s' := gesture fresh rect down (moves ++ [last]) s in
  let click := gesture fresh rect down [] s in
  (elements s' = elements (gesture fresh rect down [last] s) /\
   history s' = firstn (S (historyIndex s)) (history s) ++ [elements s'] /\
   historyIndex s' = S (historyIndex s) /\ action s' = none /\
   selectedElement s' = Some clicked /\ selectedElementIds s' = [el_id clicked] /\
   clipboard (handleCopy s') = Some clicked) /\
  (elements click = elements s /\
   history click = firstn (S (historyIndex s)) (history s) ++ [elements s]).
Proof.
  intros Ht Hc Hr Hhit Hv s' click.
  set (c0 := toCanvas s rect down) in *.
  set (X := moveTo s clicked c0 (toCanvas s rect last) (elements s)).
  assert (E : s' = clearGesture (commitAction X (movingState s clicked c0 X))).
  { unfold s'. rewrite gesture_unfold, (select_down s clicked rect Ht Hc fresh down Hr Hhit).
    fold c0. rewrite (select_moves s clicked rect Ht Hc), (select_up s clicked Hc).
    reflexivity. }
  assert (E1 : gesture fresh rect down [last] s
               = clearGesture (commitAction X (movingState s clicked c0 X))).
  { rewrite gesture_unfold, (select_down s clicked rect Ht Hc fresh down Hr Hhit).
    fold c0. rewrite moves_cons, moves_nil.
    rewrite (select_move s clicked rect Ht Hc), (select_up s clicked Hc).
    reflexivity. }
  assert (E0 : click = clearGesture (commitAction (elements s)
                                       (movingState s clicked c0 (elements s)))).
  { unfold click. rewrite gesture_unfold, moves_nil.
    rewrite (select_down s clicked rect Ht Hc fresh down Hr Hhit).
    fold c0. apply (select_up s clicked Hc). }
  split.
  - rewrite E1, E.
    destruct (committed_gesture X (movingState s clicked c0 X) s
                eq_refl eq_refl eq_refl Hv) as [H1 [H2 H3]].
    rewrite H1, H2, H3. repeat split.
  - rewrite E0.
    destruct (committed_gesture (elements s) (movingState s clicked c0 (elements s)) s
                eq_refl eq_refl eq_refl Hv) as [H1 [H2 _]].
    rewrite H1, H2. split; reflexivity.
Qed.

Lemma select_drag_moved
      (fresh : string) (rect : DOMRect) (down : PointerEvent)
      (moves : list PointerEvent) (last : PointerEvent)
      (s : AppState) (clicked : Element) :
  activeTool s = select -> croppingState s = None -> resizeTarget s down = None ->
  getElementAtPosition (px (toCanvas s rect down)) (py (toCanvas s rect down)) (elements s)
  = Some clicked ->
  idNamesOnly clicked (elements s) ->
  elements (gesture fresh rect down (moves ++ [last]) s)
  = map (fun el => if String.eqb (el_id el) (el_id clicked)
                   then translated (px (toCanvas s rect last) - px (toCanvas s rect down))
                                   (py (toCanvas s rect last) - py (toCanvas s rect down))
                                   clicked
                   else el)
        (elements s).
Proof.
  intros Ht Hc Hr Hhit Hu.
  rewrite gesture_unfold, (select_down s clicked rect Ht Hc fresh down Hr Hhit).
  rewrite (select_moves s clicked rect Ht Hc), (select_up s clicked Hc).
  rewrite clearGesture_elements, commitAction_elements.
  change (elements (movingState s clicked (toCanvas s rect down)
                      (moveTo s clicked (toCanvas s rect down) (toCanvas s rect last)
                              (elements s))))
    with (moveTo s clicked (toCanvas s rect down) (toCanvas s rect last) (elements s)).
  apply moveTo_translates; [| exact Hu].
  apply (hitTest_result_matches _ _ _ _ Hhit).
Qed.

(** X11: the displacement of a drag.  When the element hit at
    pointer-down is the only one of its id, the gesture leaves every
    other element as it was and puts in its place the element
    translated by the difference between the last pointer position and
    the pointer-down position: an image or a shape by its [x] and [y],
    a path by each of its points. *)
Theorem select_drag_translates_element
        (fresh : string) (rect : DOMRect) (down : PointerEvent)
        (moves : list PointerEvent) (last : PointerEvent)
        (s : AppState) (clicked : Element) :
  activeTool s = select -> croppingState s = None -> resizeTarget s down = None ->
  getElementAtPosition (px (toCanvas s rect down)) (py (toCanvas s rect down)) (elements s)
  = Some clicked ->
  idNamesOnly clicked (elements s) ->
  let dx := px (toCanvas s rect last) - px (toCanvas s rect down) in
  let dy := py (toCanvas s rect last) - py (toCanvas s rect down) in
  elements (gesture fresh rect down (moves ++ [last]) s)
  = map (fun el => if String.eqb (el_id el) (el_id clicked)
                   then translated dx dy clicked else el)
        (elements s).
Proof.
  intros Ht Hc Hr Hhit Hu dx dy.
  exact (select_drag_moved fresh rect down moves last s clicked Ht Hc Hr Hhit Hu).
Qed.

(** ** Resizing gestures *)




Section ResizeDrag.

Variable s : AppState.
Variable info : ResizeStartInfo.
Variable rect : DOMRect.
Hypothesis not_cropping : croppingState s = None.




End ResizeDrag.



(** ** Panning gestures *)

Section PanDrag.

Variable s : AppState.
Variable rect : DOMRect.
Hypothesis tool_pan : activeTool s = pan.
Hypothesis not_cropping : croppingState s = None.

Lemma pan_down (fresh : string) (down : PointerEvent) :
  handleMouseDown fresh (Some rect) down s
  = panningState s (mkPoint (clientX down) (clientY down)) (panOffset s).
Proof.
  unfold handleMouseDown. rewrite not_cropping, tool_pan. reflexivity.
Qed.

Lemma pan_move (p q : Point) (ev : PointerEvent) :
  handleMouseMove (Some rect) ev (panningState s p q)
  = panningState s (mkPoint (clientX ev) (clientY ev))
                 (mkPoint (px q + (clientX ev - px p)) (py q + (clientY ev - py p))).
Proof.
  rewrite (pan_step rect ev (panningState s p q) not_cropping eq_refl tool_pan).
  reflexivity.
Qed.

(** The offsets telescope: what counts is where the pointer ends. *)
Lemma pan_moves (p q : Point) (moves : list PointerEvent) (last : PointerEvent) :
  exists q',
    fold_left (fun st ev => handleMouseMove (Some rect) ev st) (moves ++ [last])
              (panningState s p q)
    = panningState s (mkPoint (clientX last) (clientY last)) q' /\
    px q' == px q + (clientX last - px p) /\
    py q' == py q + (clientY last - py p).
Proof.
  revert p q. induction moves as [| ev rest IH]; intros p q.
  - rewrite app_nil_l, moves_cons, moves_nil, pan_move.
    eexists. split; [reflexivity |]. split; reflexivity.
  - rewrite <- app_comm_cons, moves_cons, pan_move.
    destruct (IH (mkPoint (clientX ev) (clientY ev))
                 (mkPoint (px q + (clientX ev - px p)) (py q + (clientY ev - py p))))
      as [q' [E [Hx Hy]]].
    exists q'. split; [exact E |]. cbn [px py] in Hx, Hy. split; lra.
Qed.

Lemma pan_up (p q : Point) :
  handleMouseUp (panningState s p q)
  = match selectedElement s with
    | Some _ => clearGesture (commitAction (elements s) (panningState s p q))
    | None => clearGesture (panningState s p q)
    end.
Proof.
  destruct (selectedElement s) as [sel |] eqn:E.
  - apply (moving_up (panningState s p q) not_cropping sel eq_refl E).
  - apply (moving_up_unselected (panningState s p q) not_cropping eq_refl E).
Qed.

End PanDrag.

(** X13: a pan gesture moves the view by where the pointer ends.  The
    pan offset after pointer-down, any pointer-moves and pointer-up is
    the old offset plus the screen-space difference between the last
    pointer position and the pointer-down position, whatever the way in
    between; the document is not touched.  Pointer-up adds no history
    entry when nothing is selected, and commits the unchanged document
    as a new entry when an element is selected. *)
Theorem pan_gesture_telescopes
        (fresh : string) (rect : DOMRect) (down : PointerEvent)
        (moves : list PointerEvent) (last : PointerEvent) (s : AppState) :
  activeTool s = pan -> croppingState s = None -> cursorValid s ->
  let s' := gesture fresh rect down (moves ++ [last]) s in
  px (panOffset s') == px (panOffset s) + (clientX last - clientX down) /\
  py (panOffset s') == py (panOffset s) + (clientY last - clientY down) /\
  elements s' = elements s /\ action s' = none /\
  (selectedElement s = None ->
   history s' = history s /\ historyIndex s' = historyIndex s) /\
  (selectedElement s <> None ->
   history s' = firstn (S (historyIndex s)) (history s) ++ [elements s] /\
   historyIndex s' = S (historyIndex s)).
Proof.
  intros Ht Hc Hv s'.
  destruct (pan_moves s rect Ht Hc (mkPoint (clientX down) (clientY down)) (panOffset s)
                      moves last) as [q' [E [Hx Hy]]].
  cbn [px py] in Hx, Hy.
  assert (E' : s' = match selectedElement s with
                    | Some _ =>
                        clearGesture
                          (commitAction (elements s)
                             (panningState s (mkPoint (clientX last) (clientY last)) q'))
                    | None =>
                        clearGesture
                          (panningState s (mkPoint (clientX last) (clientY last)) q')
                    end).
  { unfold s'. rewrite gesture_unfold, (pan_down s rect Ht Hc), E.
    apply (pan_up s Hc). }
  rewrite E'. destruct (selectedElement s) as [sel |] eqn:Hsel.
  - destruct (committed_gesture (elements s)
                (panningState s (mkPoint (clientX last) (clientY last)) q') s
                eq_refl eq_refl eq_refl Hv) as [H1 [H2 H3]].
    split; [exact Hx |]. split; [exact Hy |]. split; [exact H1 |].
    split; [reflexivity |]. split; [discriminate |]. intros _. split; assumption.
  - split; [exact Hx |]. split; [exact Hy |]. split; [reflexivity |].
    split; [reflexivity |]. split; [intros _; split; reflexivity |].
    intros H. elim H. reflexivity.
Qed.

(** ** Cropping *)

Lemma croppingState_eta (cs : CroppingState) :
  mkCropping (elementId cs) (originalImage cs) (cropBox cs) = cs.
Proof. destruct cs. reflexivity. Qed.

Section CropDrag.

Variable s : AppState.
Variable cs : CroppingState.
Variable rect : DOMRect.
Hypothesis cropping : croppingState s = Some cs.

Lemma cropping_down (fresh : string) (down : PointerEvent) :
  handleMouseDown fresh (Some rect) down s
  = croppingDrag s cs (toCanvas s rect down) (cropBox cs).
Proof.
  rewrite (crop_down fresh rect down s cs cropping).
  unfold croppingDrag, set_cropStartInfo, set_startPoint.
  cbn [history historyIndex elements selectedElement clipboard action activeTool
       panOffset zoom drawingOptions selectedElementIds selectionBox canvasSize error
       croppingState isGenerating startPoint currentDrawingElementId resizeStartInfo
       cropStartInfo dragStartElementPositions].
  rewrite cropping, croppingState_eta. reflexivity.
Qed.

Lemma cropping_move (c0 : Point) (box : Rect) (ev : PointerEvent) :
  handleMouseMove (Some rect) ev (croppingDrag s cs c0 box)
  = croppingDrag s cs c0
      (mkRect (rx (cropBox cs) + (px (toCanvas s rect ev) - px c0))
              (ry (cropBox cs) + (py (toCanvas s rect ev) - py c0))
              (rwidth (cropBox cs)) (rheight (cropBox cs))).
Proof.
  rewrite (crop_step rect ev (croppingDrag s cs c0 box)
                     (mkCropping (elementId cs) (originalImage cs) box)
                     (mkCropStart (cropBox cs) c0) eq_refl eq_refl).
  reflexivity.
Qed.

Lemma cropping_moves (c0 : Point) (box : Rect) (moves : list PointerEvent)
      (last : PointerEvent) :
  fold_left (fun st ev => handleMouseMove (Some rect) ev st) (moves ++ [last])
            (croppingDrag s cs c0 box)
  = croppingDrag s cs c0
      (mkRect (rx (cropBox cs) + (px (toCanvas s rect last) - px c0))
              (ry (cropBox cs) + (py (toCanvas s rect last) - py c0))
              (rwidth (cropBox cs)) (rheight (cropBox cs))).
Proof.
  revert box. induction moves as [| ev rest IH]; intros box.
  - rewrite app_nil_l, moves_cons, moves_nil. apply cropping_move.
  - rewrite <- app_comm_cons, moves_cons, cropping_move. apply IH.
Qed.

Lemma cropping_up (c0 : Point) (box : Rect) :
  handleMouseUp (croppingDrag s cs c0 box)
  = set_cropStartInfo None (croppingDrag s cs c0 box).
Proof.
  apply (crop_up (croppingDrag s cs c0 box)
                 (mkCropping (elementId cs) (originalImage cs) box)
                 (mkCropStart (cropBox cs) c0) eq_refl eq_refl).
Qed.

End CropDrag.

(** X14: while an image is being cropped, pointer gestures only move
    the crop box.  Whatever the active tool, pointer-down, pointer-moves
    and pointer-up translate the crop box by the difference between the
    last pointer position and the pointer-down position and keep its
    size; the document, the history, the selection, the tool and the
    action are as before, and the drag anchor is cleared. *)
Theorem crop_gesture_translates_box
        (fresh : string) (rect : DOMRect) (down : PointerEvent)
        (moves : list PointerEvent) (last : PointerEvent)
        (s : AppState) (cs : CroppingState) :
  croppingState s = Some cs ->
  let dx := px (toCanvas s rect last) - px (toCanvas s rect down) in
  let dy := py (toCanvas s rect last) - py (toCanvas s rect down) in
  let s' := gesture fresh rect down (moves ++ [last]) s in
  croppingState s'
  = Some (mkCropping (elementId cs) (originalImage cs)
            (mkRect (rx (cropBox cs) + dx) (ry (cropBox cs) + dy)
                    (rwidth (cropBox cs)) (rheight (cropBox cs)))) /\
  elements s' = elements s /\ history s' = history s /\
  historyIndex s' = historyIndex s /\
  selectedElement s' = selectedElement s /\ selectedElementIds s' = selectedElementIds s /\
  activeTool s' = activeTool s /\ action s' = action s /\ cropStartInfo s' = None.
Proof.
  intros Hc dx dy s'. unfold s'.
  rewrite gesture_unfold, (cropping_down s cs rect Hc), (cropping_moves s cs rect),
    (cropping_up s cs).
  repeat split.
Qed.

Lemma cropTo_own_geometry (img : ImageElement) (els : list Element) :
  idNamesOnly (Image img) els ->
  map (cropTo (i_id img) (mkRect (i_x img) (i_y img) (i_width img) (i_height img))) els
  = els.
Proof.
  intros Hu. rewrite <- (map_id els) at 2. apply map_ext_in. intros el Hin.
  destruct el as [i | sh | p]; cbn [cropTo]; try reflexivity.
  destruct (String.eqb (i_id i) (i_id img)) eqn:E; [| reflexivity].
  apply String.eqb_eq in E. pose proof (Hu (Image i) Hin E) as Heq.
  inversion Heq; subst i. destruct img; reflexivity.
Qed.

(** X15: cropping without moving the box changes nothing in the
    document.  When the selected image is the document's only element
    of its id, starting a crop and confirming it at once leaves the
    document as it was, ends the crop mode and adds one history entry
    holding that same document; cancelling instead adds none. *)
Theorem crop_confirm_without_drag (s : AppState) (img : ImageElement) :
  selectedElement s = Some (Image img) ->
  idNamesOnly (Image img) (elements s) ->
  elements (handleConfirmCrop (handleStartCrop s)) = elements s /\
  croppingState (handleConfirmCrop (handleStartCrop s)) = None /\
  history (handleConfirmCrop (handleStartCrop s))
  = firstn (S (historyIndex s)) (history s) ++ [elements s] /\
  elements (handleCancelCrop (handleStartCrop s)) = elements s /\
  history (handleCancelCrop (handleStartCrop s)) = history s /\
  croppingState (handleCancelCrop (handleStartCrop s)) = None.
Proof.
  intros Hs Hu. unfold handleStartCrop. rewrite Hs.
  unfold handleConfirmCrop, handleCancelCrop.
  cbn [croppingState setCroppingState elementId cropBox elements history historyIndex
       replaceDocument commitAction setElements setHistory setHistoryIndex].
  rewrite (cropTo_own_geometry img (elements s) Hu). repeat split.
Qed.

Lemma select_gesture_state
      (fresh : string) (rect : DOMRect) (down : PointerEvent)
      (moves : list PointerEvent) (last : PointerEvent)
      (s : AppState) (clicked : Element) :
  activeTool s = select -> croppingState s = None -> resizeTarget s down = None ->
  getElementAtPosition (px (toCanvas s rect down)) (py (toCanvas s rect down)) (elements s)
  = Some clicked ->
  gesture fresh rect down (moves ++ [last]) s
  = clearGesture
      (commitAction
         (moveTo s clicked (toCanvas s rect down) (toCanvas s rect last) (elements s))
         (movingState s clicked (toCanvas s rect down)
            (moveTo s clicked (toCanvas s rect down) (toCanvas s rect last) (elements s)))).
Proof.
  intros Ht Hc Hr Hhit.
  rewrite gesture_unfold, (select_down s clicked rect Ht Hc fresh down Hr Hhit).
  rewrite (select_moves s clicked rect Ht Hc), (select_up s clicked Hc). reflexivity.
Qed.

(** X16: the selection is not refreshed by a drag, so a crop confirmed
    right after it undoes the drag.  When an image that is the only
    element of its id is dragged with the select tool, and a crop is
    then started and confirmed without moving the crop box, the
    document is again the one from before the drag. *)
Theorem crop_after_drag_restores_position
        (fresh : string) (rect : DOMRect) (down : PointerEvent)
        (moves : list PointerEvent) (last : PointerEvent)
        (s : AppState) (img : ImageElement) :
  activeTool s = select -> croppingState s = None -> resizeTarget s down = None ->
  getElementAtPosition (px (toCanvas s rect down)) (py (toCanvas s rect down)) (elements s)
  = Some (Image img) ->
  idNamesOnly (Image img) (elements s) ->
  let s' := gesture fresh rect down (moves ++ [last]) s in
  selectedElement s' = Some (Image img) /\
  elements (handleConfirmCrop (handleStartCrop s')) = elements s.
Proof.
  intros Ht Hc Hr Hhit Hu s'.
  pose proof (select_gesture_state fresh rect down moves last s (Image img) Ht Hc Hr Hhit)
    as E. fold s' in E.
  assert (Hsel : selectedElement s' = Some (Image img)) by (rewrite E; reflexivity).
  assert (Hel : elements s'
                = map (fun el => if String.eqb (el_id el) (el_id (Image img))
                                 then translated
                                        (px (toCanvas s rect last) - px (toCanvas s rect down))
                                        (py (toCanvas s rect last) - py (toCanvas s rect down))
                                        (Image img)
                                 else el)
                      (elements s)).
  { apply (select_drag_moved fresh rect down moves last s (Image img) Ht Hc Hr Hhit Hu). }
  split; [exact Hsel |].
  unfold handleStartCrop. rewrite Hsel. unfold handleConfirmCrop.
  cbn [croppingState setCroppingState elementId cropBox elements history historyIndex
       replaceDocument commitAction setElements setHistory setHistoryIndex].
  rewrite Hel, map_map. rewrite <- (map_id (elements s)) at 2.
  apply map_ext_in. intros el Hin. cbn [el_id].
  destruct (String.eqb (el_id el) (i_id img)) eqn:E1.
  - apply String.eqb_eq in E1. rewrite (Hu el Hin E1).
    cbn [translated withPos cropTo i_id]. rewrite String.eqb_refl.
    destruct img; reflexivity.
  - destruct el as [i | sh | p]; cbn [cropTo]; try reflexivity.
    cbn [el_id] in E1. rewrite E1. reflexivity.
Qed.

(** ** Layer order *)

Lemma findIndex_split (f : Element -> bool) (els : list Element) (i : nat) :
  findIndex f els = Some i ->
  exists A e B, els = A ++ e :: B /\ List.length A = i /\ f e = true /\
                forall a, In a A -> f a = false.
Proof.
  revert i. induction els as [| el rest IH]; simpl; intros i H; [discriminate |].
  destruct (f el) eqn:E.
  - inversion H; subst i. exists [], el, rest. repeat split; auto. intros a [].
  - destruct (findIndex f rest) as [j |]; [| discriminate].
    inversion H; subst i. destruct (IH j eq_refl) as [A [e [B [-> [Hl [He Ha]]]]]].
    exists (el :: A), e, B. repeat split; auto.
    + simpl. rewrite Hl. reflexivity.
    + intros a [<- | Hin]; auto.
Qed.

Lemma findIndex_at (f : Element -> bool) (A B : list Element) (e : Element) :
  (forall a, In a A -> f a = false) -> f e = true ->
  findIndex f (A ++ e :: B) = Some (List.length A).
Proof.
  intros Ha He. induction A as [| a A IH]; simpl.
  - rewrite He. reflexivity.
  - rewrite (Ha a (or_introl eq_refl)), IH; [reflexivity |].
    intros a' Hin. apply Ha. right. exact Hin.
Qed.

Lemma findIndex_none (f : Element -> bool) (els : list Element) :
  findIndex f els = None <-> forall a, In a els -> f a = false.
Proof.
  induction els as [| el rest IH]; simpl.
  - split; [intros _ a [] | reflexivity].
  - destruct (f el) eqn:E.
    + split; [discriminate |]. intros H. specialize (H el (or_introl eq_refl)). congruence.
    + destruct (findIndex f rest) as [j |] eqn:F; simpl.
      * split; [discriminate |]. intros H.
        assert (N : Some j = None)
          by (apply IH; intros a Hin; apply H; right; exact Hin).
        discriminate.
      * split; [| reflexivity]. intros _ a [<- | Hin]; [exact E |].
        apply (proj1 IH eq_refl a Hin).
Qed.

Lemma removeAt_middle (A B : list Element) (e : Element) :
  removeAt (List.length A) (A ++ e :: B) = A ++ B.
Proof.
  unfold removeAt. rewrite firstn_app, firstn_all, Nat.sub_diag. cbn [firstn].
  rewrite app_nil_r.
  replace (S (List.length A)) with (List.length (A ++ [e]))
    by (rewrite length_app; simpl; lia).
  rewrite (app_assoc A [e] B : A ++ e :: B = (A ++ [e]) ++ B) at 1.
  rewrite skipn_app, skipn_all, Nat.sub_diag. reflexivity.
Qed.

Lemma insertAt_length (A B : list Element) (e : Element) :
  insertAt (List.length A) e (A ++ B) = A ++ e :: B.
Proof.
  unfold insertAt.
  rewrite firstn_app, firstn_all, Nat.sub_diag, skipn_app, skipn_all, Nat.sub_diag.
  cbn [firstn skipn]. rewrite app_nil_r. reflexivity.
Qed.

(** The document after a layer action on the element at the end of [A]. *)
Lemma layer_action_at (id : string) (act : LayerAction) (s : AppState)
      (A B : list Element) (e : Element) :
  elements s = A ++ e :: B ->
  (forall a, In a A -> el_id a <> id) -> el_id e = id ->
  handleLayerAction id act s
  = replaceDocument
      (match act with
       | front => A ++ B ++ [e]
       | back => e :: A ++ B
       | forward => match B with
                    | [] => A ++ [e]
                    | next :: B' => A ++ next :: e :: B'
                    end
       | backward => match rev A with
                     | [] => e :: B
                     | previous :: A' => rev A' ++ e :: previous :: B
                     end
       end) s.
Proof.
  intros Hel Ha He. unfold handleLayerAction. rewrite Hel.
  rewrite (findIndex_at _ A B e).
  2:{ intros a Hin. apply String.eqb_neq. apply Ha. exact Hin. }
  2:{ apply String.eqb_eq. exact He. }
  rewrite nth_error_app2, Nat.sub_diag by lia. cbn [nth_error].
  rewrite removeAt_middle. f_equal. destruct act.
  - rewrite app_assoc. reflexivity.
  - reflexivity.
  - destruct B as [| next B'].
    + rewrite app_nil_r. rewrite Nat.min_l by lia.
      rewrite <- (app_nil_r A) at 2. rewrite insertAt_length. reflexivity.
    + rewrite Nat.min_r by (rewrite length_app; simpl; lia).
      replace (List.length A + 1)%nat with (List.length (A ++ [next]))
        by (rewrite length_app; simpl; lia).
      rewrite (app_assoc A [next] B' : A ++ next :: B' = (A ++ [next]) ++ B').
      rewrite insertAt_length, <- app_assoc. reflexivity.
  - destruct (rev A) as [| previous A'] eqn:R.
    + assert (A = []) by (apply (f_equal (@rev Element)) in R; rewrite rev_involutive in R;
                          exact R).
      subst A. reflexivity.
    + assert (EA : A = rev A' ++ [previous]).
      { apply (f_equal (@rev Element)) in R. rewrite rev_involutive in R. exact R. }
      rewrite EA, length_app. cbn [List.length].
      replace (Nat.max 0 (List.length (rev A') + 1 - 1)) with (List.length (rev A')) by lia.
      rewrite <- app_assoc. rewrite insertAt_length. reflexivity.
Qed.

(** X17: a layer action only reorders.  With an id no element carries
    the handler does nothing at all; otherwise the new document is a
    permutation of the old one, committed as one history entry. *)
Theorem layer_action_permutes (id : string) (act : LayerAction) (s : AppState) :
  ((forall e, In e (elements s) -> el_id e <> id) -> handleLayerAction id act s = s) /\
  Permutation (elements s) (elements (handleLayerAction id act s)) /\
  ((exists e, In e (elements s) /\ el_id e = id) ->
   history (handleLayerAction id act s)
   = firstn (S (historyIndex s)) (history s) ++ [elements (handleLayerAction id act s)]).
Proof.
  destruct (findIndex (fun el => String.eqb (el_id el) id) (elements s)) as [i |] eqn:F.
  - destruct (findIndex_split _ _ _ F) as [A [e [B [Hel [_ [He Ha]]]]]].
    apply String.eqb_eq in He.
    assert (Ha' : forall a, In a A -> el_id a <> id)
      by (intros a Hin; apply String.eqb_neq; apply Ha; exact Hin).
    rewrite (layer_action_at id act s A B e Hel Ha' He).
    split; [| split].
    + intros H. elim (H e); [| exact He]. rewrite Hel. apply in_elt.
    + rewrite Hel. cbn [replaceDocument commitAction elements setElements setHistory
                        setHistoryIndex].
      destruct act.
      * apply Permutation_app_head. apply Permutation_cons_append.
      * symmetry. apply Permutation_middle.
      * destruct B as [| next B'].
        -- reflexivity.
        -- apply Permutation_app_head. apply perm_swap.
      * destruct (rev A) as [| previous A'] eqn:R.
        -- apply (f_equal (@rev Element)) in R. rewrite rev_involutive in R. subst A.
           reflexivity.
        -- apply (f_equal (@rev Element)) in R. rewrite rev_involutive in R. subst A.
           cbn [rev]. rewrite <- app_assoc. apply Permutation_app_head. apply perm_swap.
    + intros _. reflexivity.
  - assert (N : handleLayerAction id act s = s)
      by (unfold handleLayerAction; rewrite F; reflexivity).
    rewrite N. split; [intros _; reflexivity |]. split; [reflexivity |].
    intros [e [Hin He]]. apply findIndex_none with (a := e) in F; [| exact Hin].
    apply String.eqb_neq in F. contradiction.
Qed.

(** X18: what each layer action does to the order.  For the first
    element [e] of the given id, with [A] below it and [B] above it:
    [front] moves it above everything and [back] below everything, the
    others keeping their order; [forward] swaps it with the element
    just above and [backward] with the element just below; [forward] on
    the topmost and [backward] on the bottommost element leave the
    order as it is. *)
Theorem layer_action_moves_one_step (id : string) (s : AppState)
        (A B : list Element) (e : Element) :
  elements s = A ++ e :: B ->
  (forall a, In a A -> el_id a <> id) -> el_id e = id ->
  elements (handleLayerAction id front s) = A ++ B ++ [e] /\
  elements (handleLayerAction id back s) = e :: A ++ B /\
  (forall next B', B = next :: B' ->
                   elements (handleLayerAction id forward s) = A ++ next :: e :: B') /\
  (B = [] -> elements (handleLayerAction id forward s) = elements s) /\
  (forall A' previous, A = A' ++ [previous] ->
                       elements (handleLayerAction id backward s)
                       = A' ++ e :: previous :: B) /\
  (A = [] -> elements (handleLayerAction id backward s) = elements s).
Proof.
  intros Hel Ha He.
  rewrite !(layer_action_at id _ s A B e Hel Ha He).
  cbn [replaceDocument commitAction elements setElements setHistory setHistoryIndex].
  split; [reflexivity |]. split; [reflexivity |].
  split; [intros next B' ->; reflexivity |].
  split; [intros ->; rewrite Hel; reflexivity |].
  split.
  - intros A' previous ->. rewrite rev_app_distr. cbn [rev app].
    rewrite rev_involutive. reflexivity.
  - intros ->. rewrite Hel. reflexivity.
Qed.

Lemma uniqueIds_others (A B : list Element) (e : Element) :
  uniqueIds (A ++ e :: B) ->
  (forall a, In a A -> el_id a <> el_id e) /\ (forall b, In b B -> el_id b <> el_id e).
Proof.
  unfold uniqueIds. rewrite map_app. cbn [map]. intros H.
  apply NoDup_remove_2 in H. rewrite in_app_iff in H.
  split; intros x Hin Heq; apply H; [left | right]; rewrite <- Heq; apply in_map; exact Hin.
Qed.

(** X19: with unique ids, [forward] and [backward] undo each other.
    For an element that is not topmost, [forward] followed by
    [backward] gives the original order back; for one that is not
    bottommost, so does [backward] followed by [forward]. *)
Theorem layer_forward_backward_round_trip (s : AppState) (A B : list Element)
        (e other : Element) :
  (elements s = A ++ e :: other :: B -> uniqueIds (elements s) ->
   elements (handleLayerAction (el_id e) backward (handleLayerAction (el_id e) forward s))
   = elements s) /\
  (elements s = A ++ other :: e :: B -> uniqueIds (elements s) ->
   elements (handleLayerAction (el_id e) forward (handleLayerAction (el_id e) backward s))
   = elements s).
Proof.
  split; intros Hel Hu.
  - rewrite Hel in Hu. destruct (uniqueIds_others A (other :: B) e Hu) as [HA HB].
    rewrite (layer_action_at (el_id e) forward s A (other :: B) e Hel HA eq_refl).
    rewrite (layer_action_at (el_id e) backward _ (A ++ [other]) B e).
    + cbn [replaceDocument commitAction elements setElements setHistory setHistoryIndex].
      rewrite rev_app_distr. cbn [rev app]. rewrite rev_involutive, Hel. reflexivity.
    + cbn [replaceDocument commitAction elements setElements setHistory setHistoryIndex].
      rewrite <- app_assoc. reflexivity.
    + intros a Hin. apply in_app_or in Hin. destruct Hin as [Hin | [<- | []]].
      * apply HA. exact Hin.
      * apply HB. left. reflexivity.
    + reflexivity.
  - rewrite Hel in Hu.
    rewrite (app_assoc A [other] (e :: B) : A ++ other :: e :: B = (A ++ [other]) ++ e :: B)
      in Hu, Hel.
    destruct (uniqueIds_others (A ++ [other]) B e Hu) as [HA HB].
    rewrite (layer_action_at (el_id e) backward s (A ++ [other]) B e Hel HA eq_refl).
    rewrite rev_app_distr. cbn [rev app]. rewrite rev_involutive.
    rewrite (layer_action_at (el_id e) forward _ A (other :: B) e).
    + cbn [replaceDocument commitAction elements setElements setHistory setHistoryIndex].
      rewrite Hel, <- app_assoc. reflexivity.
    + reflexivity.
    + intros a Hin. apply HA. apply in_or_app. left. exact Hin.
    + reflexivity.
Qed.

(** ** Fill colour *)

Lemma recolour_matchesAt (id c : string) (x y : Q) (el : Element) :
  matchesAt x y (recolour id c el) = matchesAt x y el.
Proof.
  destruct el as [i | sh | p]; cbn [recolour]; try reflexivity.
  destruct (String.eqb (s_id sh) id); reflexivity.
Qed.

Lemma scanFrom_map (f : Element -> Element) (x y : Q) (els : list Element) (n : nat) :
  (forall el, matchesAt x y (f el) = matchesAt x y el) ->
  scanFrom x y (map f els) n = option_map f (scanFrom x y els n).
Proof.
  intros Hf. induction n as [| n IH]; [reflexivity |].
  cbn [scanFrom]. rewrite nth_error_map.
  destruct (nth_error els n) as [el |]; cbn [option_map]; [| exact IH].
  rewrite Hf. destruct (matchesAt x y el); [reflexivity | exact IH].
Qed.

(** X20: changing a fill colour changes nothing else.  The new document
    has the same ids and the same bounds element by element, so every
    point hits the same element as before (recoloured); images and
    paths are not touched even when they carry the id; and when no
    shape carries the id the document is unchanged but is committed as
    a new history entry all the same. *)
Theorem fill_change_keeps_geometry (id newColor : string) (s : AppState) :
  let s' := handleFillColorChange id newColor s in
  (forall x y, getElementAtPosition x y (elements s')
               = option_map (recolour id newColor) (getElementAtPosition x y (elements s))) /\
  map el_id (elements s') = map el_id (elements s) /\
  map getElementBounds (elements s') = map getElementBounds (elements s) /\
  (forall el, In el (elements s) ->
              (forall sh, el <> Shape sh) -> In el (elements s')) /\
  ((forall sh, In (Shape sh) (elements s) -> s_id sh <> id) ->
   elements s' = elements s /\
   history s' = firstn (S (historyIndex s)) (history s) ++ [elements s]).
Proof.
  intros s'.
  assert (E : elements s' = map (recolour id newColor) (elements s)) by reflexivity.
  assert (H : history s'
              = firstn (S (historyIndex s)) (history s)
                ++ [map (recolour id newColor) (elements s)]) by reflexivity.
  split; [| split; [| split; [| split]]].
  - intros x y. rewrite E. unfold getElementAtPosition. rewrite length_map.
    apply scanFrom_map. intros el. apply recolour_matchesAt.
  - rewrite E, map_map. apply map_ext. intros el.
    destruct el as [i | sh | p]; cbn [recolour]; try reflexivity.
    destruct (String.eqb (s_id sh) id); reflexivity.
  - rewrite E, map_map. apply map_ext. intros el.
    destruct el as [i | sh | p]; cbn [recolour]; try reflexivity.
    destruct (String.eqb (s_id sh) id); reflexivity.
  - intros el Hin Hns. rewrite E. apply in_map_iff. exists el. split; [| exact Hin].
    destruct el as [i | sh | p]; cbn [recolour]; try reflexivity.
    elim (Hns sh). reflexivity.
  - intros Hno.
    assert (M : map (recolour id newColor) (elements s) = elements s).
    { rewrite <- (map_id (elements s)) at 2. apply map_ext_in. intros el Hin.
      destruct el as [i | sh | p]; cbn [recolour]; try reflexivity.
      destruct (String.eqb (s_id sh) id) eqn:Q; [| reflexivity].
      apply String.eqb_eq in Q. elim (Hno sh Hin Q). }
    rewrite E, H, M. split; reflexivity.
Qed.

(** ** Rubber band and delete *)

Lemma uniqueIds_injective (els : list Element) (a b : Element) :
  uniqueIds els -> In a els -> In b els -> el_id a = el_id b -> a = b.
Proof.
  unfold uniqueIds. induction els as [| e rest IH]; cbn [map]; intros Hu Ha Hb Hid.
  - destruct Ha.
  - inversion Hu as [| x l Hnot Hrest]; subst.
    destruct Ha as [<- | Ha], Hb as [<- | Hb].
    + reflexivity.
    + elim Hnot. rewrite Hid. apply in_map. exact Hb.
    + elim Hnot. rewrite <- Hid. apply in_map. exact Ha.
    + apply IH; assumption.
Qed.

Lemma box_ids_member (els : list Element) (B : Rect) (el : Element) :
  uniqueIds els -> In el els ->
  existsb (String.eqb (el_id el)) (boxSelectedIds els B) = isElementInSelectionBox el B.
Proof.
  intros Hu Hin. unfold boxSelectedIds.
  destruct (isElementInSelectionBox el B) eqn:E.
  - apply existsb_exists. exists (el_id el). split; [| apply String.eqb_refl].
    apply in_map. apply filter_In. split; assumption.
  - apply not_true_iff_false. intros H. apply existsb_exists in H.
    destruct H as [id [Hid Heq]]. apply String.eqb_eq in Heq. subst id.
    apply in_map_iff in Hid. destruct Hid as [e' [Hid' Hf]].
    apply filter_In in Hf. destruct Hf as [Hin' Hbox].
    rewrite (uniqueIds_injective els e' el Hu Hin' Hin Hid') in Hbox. congruence.
Qed.

Lemma handleDelete_ids (st : AppState) (id : string) (ids : list string) :
  selectedElementIds st = id :: ids ->
  let kept := filter (fun el => negb (existsb (String.eqb (el_id el)) (id :: ids)))
                     (elements st) in
  elements (handleDelete st) = kept /\
  selectedElementIds (handleDelete st) = [] /\
  selectedElement (handleDelete st) = None /\
  history (handleDelete st) = firstn (S (historyIndex st)) (history st) ++ [kept].
Proof.
  intros H kept. unfold handleDelete. rewrite H. repeat split.
Qed.

Lemma handleDelete_nothing (st : AppState) :
  selectedElementIds st = [] -> selectedElement st = None -> handleDelete st = st.
Proof. intros H1 H2. unfold handleDelete. rewrite H1, H2. reflexivity. Qed.

Lemma filter_all (l : list Element) : filter (fun _ => true) l = l.
Proof. induction l as [| e r IH]; [reflexivity |]. cbn [filter]. rewrite IH. reflexivity. Qed.

(** X21: selecting with the rubber band and deleting removes what the
    band touched.  In a document with unique ids, pointer-up on a
    rubber band followed by delete keeps, in order, exactly the
    elements outside the band and clears the selection; one history
    entry is added when the band selected something, and none when it
    selected nothing. *)
Theorem rubber_band_then_delete (s : AppState) (B : Rect) :
  croppingState s = None -> action s = drawing -> activeTool s = select ->
  selectionBox s = Some B -> selectedElement s = None -> uniqueIds (elements s) ->
  let s' := handleDelete (handleMouseUp s) in
  elements s' = filter (fun el => negb (isElementInSelectionBox el B)) (elements s) /\
  selectedElementIds s' = [] /\
  (boxSelectedIds (elements s) B <> [] ->
   history s' = firstn (S (historyIndex s)) (history s) ++ [elements s']) /\
  (boxSelectedIds (elements s) B = [] -> history s' = history s).
Proof.
  intros Hc Ha Ht Hb Hs Hu s'.
  set (st := handleMouseUp s) in *.
  assert (U : st = clearGesture (setSelectionBox None
                                   (setSelectedElementIds (boxSelectedIds (elements s) B) s))).
  { unfold st, handleMouseUp. rewrite Hc, Ha, Ht, Hb. reflexivity. }
  assert (U1 : selectedElementIds st = boxSelectedIds (elements s) B)
    by (rewrite U; reflexivity).
  assert (U2 : selectedElement st = None) by (rewrite U; exact Hs).
  assert (U3 : elements st = elements s) by (rewrite U; reflexivity).
  assert (U4 : history st = history s) by (rewrite U; reflexivity).
  assert (U5 : historyIndex st = historyIndex s) by (rewrite U; reflexivity).
  assert (F : filter (fun el => negb (existsb (String.eqb (el_id el))
                                             (boxSelectedIds (elements s) B)))
                     (elements s)
              = filter (fun el => negb (isElementInSelectionBox el B)) (elements s)).
  { apply filter_ext_in. intros el Hin. rewrite (box_ids_member _ B el Hu Hin). reflexivity. }
  destruct (boxSelectedIds (elements s) B) as [| id ids] eqn:Ids.
  - unfold s'. rewrite (handleDelete_nothing st U1 U2), U3, U4.
    split; [| split; [exact U1 | split; [intros H; elim H; reflexivity | reflexivity]]].
    rewrite <- F. cbn [existsb negb]. rewrite filter_all. reflexivity.
  - destruct (handleDelete_ids st id ids U1) as [D1 [D2 [_ D4]]].
    rewrite U3, U4, U5, F in *. unfold s'.
    split; [exact D1 |]. split; [exact D2 |]. split; [| discriminate].
    intros _. rewrite D1. exact D4.
Qed.

(** ** Keyboard *)

(** X22: the canvas size stays within 50 and 200 under the size
    shortcuts.  From a size in that range, any sequence of key events
    leaves the size in the range, so the scale factor of the coordinate
    transform is never zero; the shortcuts touch neither the document
    nor the history. *)
Theorem zoom_keys_keep_size_in_range (keys : list KeyEvent) (s : AppState) :
  50 <= canvasSize s -> canvasSize s <= 200 ->
  let s' := fold_left (fun st e => handleZoomKey e st) keys s in
  50 <= canvasSize s' /\ canvasSize s' <= 200 /\ ~ canvasSize s' / 100 == 0 /\
  elements s' = elements s /\ history s' = history s /\ historyIndex s' = historyIndex s.
Proof.
  revert s. induction keys as [| e rest IH]; intros s Hlo Hhi; cbn [fold_left].
  - repeat split; auto. intros H. unfold Qdiv in H.
    assert (canvasSize s == 0 * 100).
    { rewrite <- H. field. }
    lra.
  - assert (Step : 50 <= canvasSize (handleZoomKey e s) /\
                   canvasSize (handleZoomKey e s) <= 200 /\
                   elements (handleZoomKey e s) = elements s /\
                   history (handleZoomKey e s) = history s /\
                   historyIndex (handleZoomKey e s) = historyIndex s).
    { unfold handleZoomKey.
      destruct (ctrlKey e || metaKey e); [| repeat split; assumption].
      destruct (String.eqb (key e) "=" || String.eqb (key e) "+").
      - cbn [canvasSize setCanvasSize elements history historyIndex].
        destruct (Q.min_spec 200 (canvasSize s + 10)) as [[L M] | [L M]];
          repeat split; try rewrite M; lra.
      - destruct (String.eqb (key e) "-"); [| repeat split; assumption].
        cbn [canvasSize setCanvasSize elements history historyIndex].
        destruct (Q.max_spec 50 (canvasSize s - 10)) as [[L M] | [L M]];
          repeat split; try rewrite M; lra. }
    destruct Step as [S1 [S2 [S3 [S4 S5]]]].
    destruct (IH (handleZoomKey e s) S1 S2) as [I1 [I2 [I3 [I4 [I5 I6]]]]].
    rewrite I4, I5, I6, S3, S4, S5. repeat split; assumption.
Qed.

(** X23: which keys reach undo, redo and delete.  The first listener
    undoes on Ctrl/Cmd+z whatever the shift state, so its
    Ctrl/Cmd+Shift+z test is never reached and redo is run by
    Ctrl/Cmd+y only; both also act while an input has the focus.
    Delete or Backspace deletes only outside inputs and only when
    something is selected. *)
Theorem key_commands (e : KeyEvent) (s : AppState) :
  (appKeyCommand e s = KeyUndo <->
   (ctrlKey e || metaKey e) = true /\ key e = "z") /\
  (appKeyCommand e s = KeyRedo <->
   (ctrlKey e || metaKey e) = true /\ key e = "y") /\
  (appKeyCommand e s = KeyDelete ->
   targetIsInput e = false /\ (key e = "Delete" \/ key e = "Backspace") /\
   (selectedElement s <> None \/ selectedElementIds s <> [])).
Proof.
  unfold appKeyCommand.
  destruct (ctrlKey e || metaKey e) eqn:C;
    destruct (String.eqb (key e) "z") eqn:Z;
    destruct (String.eqb (key e) "y") eqn:Y;
    destruct (keyShift e);
    destruct (targetIsInput e) eqn:T;
    destruct (String.eqb (key e) "Delete") eqn:D;
    destruct (String.eqb (key e) "Backspace") eqn:K;
    destruct (selectedElement s) as [sel |] eqn:Sel;
    destruct (0 <? List.length (selectedElementIds s))%nat eqn:L;
    cbn [andb orb negb];
    repeat match goal with
           | H : String.eqb _ _ = true |- _ => apply String.eqb_eq in H
           | H : String.eqb _ _ = false |- _ => apply String.eqb_neq in H
           end;
    repeat match goal with
           | |- _ /\ _ => split
           | |- _ <-> _ => split
           | |- _ -> _ => intro
           | H : _ /\ _ |- _ => destruct H
           end;
    try discriminate; try congruence; auto;
    try (left; congruence); try (right; congruence);
    try (left; discriminate);
    try (right; intros N; rewrite N in L; discriminate).
Qed.

(** ** The history under the events *)

(** The setters that leave the history and its cursor alone. *)
Lemma history_of_setElements v (s : AppState) : history (setElements v s) = history s.
Proof. reflexivity. Qed.

Lemma historyIndex_of_setElements v (s : AppState) : historyIndex (setElements v s) = historyIndex s.
Proof. reflexivity. Qed.

Lemma history_of_setSelectedElement v (s : AppState) : history (setSelectedElement v s) = history s.
Proof. reflexivity. Qed.

Lemma historyIndex_of_setSelectedElement v (s : AppState) : historyIndex (setSelectedElement v s) = historyIndex s.
Proof. reflexivity. Qed.

Lemma history_of_setClipboard v (s : AppState) : history (setClipboard v s) = history s.
Proof. reflexivity. Qed.

Lemma historyIndex_of_setClipboard v (s : AppState) : historyIndex (setClipboard v s) = historyIndex s.
Proof. reflexivity. Qed.

Lemma history_of_setAction v (s : AppState) : history (setAction v s) = history s.
Proof. reflexivity. Qed.

Lemma historyIndex_of_setAction v (s : AppState) : historyIndex (setAction v s) = historyIndex s.
Proof. reflexivity. Qed.

Lemma history_of_setActiveTool v (s : AppState) : history (setActiveTool v s) = history s.
Proof. reflexivity. Qed.

Lemma historyIndex_of_setActiveTool v (s : AppState) : historyIndex (setActiveTool v s) = historyIndex s.
Proof. reflexivity. Qed.

Lemma history_of_setPanOffset v (s : AppState) : history (setPanOffset v s) = history s.
Proof. reflexivity. Qed.

Lemma historyIndex_of_setPanOffset v (s : AppState) : historyIndex (setPanOffset v s) = historyIndex s.
Proof. reflexivity. Qed.

Lemma history_of_setSelectedElementIds v (s : AppState) : history (setSelectedElementIds v s) = history s.
Proof. reflexivity. Qed.

Lemma historyIndex_of_setSelectedElementIds v (s : AppState) : historyIndex (setSelectedElementIds v s) = historyIndex s.
Proof. reflexivity. Qed.

Lemma history_of_setSelectionBox v (s : AppState) : history (setSelectionBox v s) = history s.
Proof. reflexivity. Qed.

Lemma historyIndex_of_setSelectionBox v (s : AppState) : historyIndex (setSelectionBox v s) = historyIndex s.
Proof. reflexivity. Qed.

Lemma history_of_setError v (s : AppState) : history (setError v s) = history s.
Proof. reflexivity. Qed.

Lemma historyIndex_of_setError v (s : AppState) : historyIndex (setError v s) = historyIndex s.
Proof. reflexivity. Qed.

Lemma history_of_setCroppingState v (s : AppState) : history (setCroppingState v s) = history s.
Proof. reflexivity. Qed.

Lemma historyIndex_of_setCroppingState v (s : AppState) : historyIndex (setCroppingState v s) = historyIndex s.
Proof. reflexivity. Qed.

Lemma history_of_setIsGenerating v (s : AppState) : history (setIsGenerating v s) = history s.
Proof. reflexivity. Qed.

Lemma historyIndex_of_setIsGenerating v (s : AppState) : historyIndex (setIsGenerating v s) = historyIndex s.
Proof. reflexivity. Qed.

Lemma history_of_set_startPoint v (s : AppState) : history (set_startPoint v s) = history s.
Proof. reflexivity. Qed.

Lemma historyIndex_of_set_startPoint v (s : AppState) : historyIndex (set_startPoint v s) = historyIndex s.
Proof. reflexivity. Qed.

Lemma history_of_set_currentDrawingElementId v (s : AppState) : history (set_currentDrawingElementId v s) = history s.
Proof. reflexivity. Qed.

Lemma historyIndex_of_set_currentDrawingElementId v (s : AppState) : historyIndex (set_currentDrawingElementId v s) = historyIndex s.
Proof. reflexivity. Qed.

Lemma history_of_set_resizeStartInfo v (s : AppState) : history (set_resizeStartInfo v s) = history s.
Proof. reflexivity. Qed.

Lemma historyIndex_of_set_resizeStartInfo v (s : AppState) : historyIndex (set_resizeStartInfo v s) = historyIndex s.
Proof. reflexivity. Qed.

Lemma history_of_set_cropStartInfo v (s : AppState) : history (set_cropStartInfo v s) = history s.
Proof. reflexivity. Qed.

Lemma historyIndex_of_set_cropStartInfo v (s : AppState) : historyIndex (set_cropStartInfo v s) = historyIndex s.
Proof. reflexivity. Qed.

Lemma history_of_set_dragStartElementPositions v (s : AppState) : history (set_dragStartElementPositions v s) = history s.
Proof. reflexivity. Qed.

Lemma historyIndex_of_set_dragStartElementPositions v (s : AppState) : historyIndex (set_dragStartElementPositions v s) = historyIndex s.
Proof. reflexivity. Qed.

Lemma history_of_setCanvasSize v (s : AppState) : history (setCanvasSize v s) = history s.
Proof. reflexivity. Qed.

Lemma historyIndex_of_setCanvasSize v (s : AppState) : historyIndex (setCanvasSize v s) = historyIndex s.
Proof. reflexivity. Qed.

Lemma history_of_clearGesture (s : AppState) : history (clearGesture s) = history s.
Proof. reflexivity. Qed.

Lemma historyIndex_of_clearGesture (s : AppState) :
  historyIndex (clearGesture s) = historyIndex s.
Proof. reflexivity. Qed.

Lemma history_of_deselectErased (s s' : AppState) (id : string) :
  history (deselectErased s id s') = history s'.
Proof. unfold deselectErased. destruct (selectedIs s id); reflexivity. Qed.

Lemma historyIndex_of_deselectErased (s s' : AppState) (id : string) :
  historyIndex (deselectErased s id s') = historyIndex s'.
Proof. unfold deselectErased. destruct (selectedIs s id); reflexivity. Qed.

Lemma history_of_commitAction (d : list Element) (s : AppState) :
  history (commitAction d s) = firstn (S (historyIndex s)) (history s) ++ [d].
Proof. reflexivity. Qed.

Lemma historyIndex_of_commitAction (d : list Element) (s : AppState) :
  historyIndex (commitAction d s)
  = (List.length (firstn (S (historyIndex s)) (history s) ++ [d]) - 1)%nat.
Proof. reflexivity. Qed.

Create Rewrite HintDb frame.

#[local] Hint Rewrite history_of_setElements historyIndex_of_setElements
  history_of_setSelectedElement historyIndex_of_setSelectedElement
  history_of_setClipboard historyIndex_of_setClipboard history_of_setAction
  historyIndex_of_setAction history_of_setActiveTool historyIndex_of_setActiveTool
  history_of_setPanOffset historyIndex_of_setPanOffset history_of_setSelectedElementIds
  historyIndex_of_setSelectedElementIds history_of_setSelectionBox
  historyIndex_of_setSelectionBox history_of_setError historyIndex_of_setError
  history_of_setCroppingState historyIndex_of_setCroppingState
  history_of_setIsGenerating historyIndex_of_setIsGenerating history_of_set_startPoint
  historyIndex_of_set_startPoint history_of_set_currentDrawingElementId
  historyIndex_of_set_currentDrawingElementId history_of_set_resizeStartInfo
  historyIndex_of_set_resizeStartInfo history_of_set_cropStartInfo
  historyIndex_of_set_cropStartInfo history_of_set_dragStartElementPositions
  historyIndex_of_set_dragStartElementPositions history_of_setCanvasSize
  historyIndex_of_setCanvasSize history_of_clearGesture historyIndex_of_clearGesture
  history_of_deselectErased historyIndex_of_deselectErased history_of_commitAction
  historyIndex_of_commitAction : frame.

Ltac same_history := left; split; autorewrite with frame; reflexivity.
Ltac one_commit := right; eexists; split; autorewrite with frame; reflexivity.
Ltac history_effect := first [same_history | one_commit].

Lemma atMostOneCommit_refl (s : AppState) : atMostOneCommit s s.
Proof. left. split; reflexivity. Qed.

Lemma atMostOneCommit_replaceDocument (d : list Element) (s : AppState) :
  atMostOneCommit s (replaceDocument d s).
Proof. unfold replaceDocument. one_commit. Qed.

Lemma handleMouseDown_commits (fresh : string) (rect : option DOMRect)
      (event : PointerEvent) (s : AppState) :
  atMostOneCommit s (handleMouseDown fresh rect event s).
Proof.
  unfold handleMouseDown.
  destruct rect as [r |]; [| apply atMostOneCommit_refl].
  destruct (croppingState s); [same_history |].
  destruct (activeTool s).
  - destruct (resizeTarget s event) as [[h b] |]; [same_history |].
    destruct (getElementAtPosition _ _ (elements s)); same_history.
  - same_history.
  - destruct (createElement fresh draw _ _) as [[i | sh | p] |]; same_history.
  - destruct (getElementAtPosition _ _ (elements s)); history_effect.
  - destruct (createElement fresh rectangle _ _) as [[i | sh | p] |]; same_history.
  - destruct (createElement fresh circle _ _) as [[i | sh | p] |]; same_history.
  - destruct (createElement fresh triangle _ _) as [[i | sh | p] |]; same_history.
Qed.

Lemma handleMouseMove_keeps_history (rect : option DOMRect) (event : PointerEvent)
      (s : AppState) :
  history (handleMouseMove rect event s) = history s /\
  historyIndex (handleMouseMove rect event s) = historyIndex s.
Proof.
  unfold handleMouseMove.
  destruct rect as [r |]; [| split; reflexivity].
  destruct (croppingState s) as [cs |], (cropStartInfo s) as [info |];
    try (split; reflexivity).
  all: destruct (action s), (selectedElement s) as [sel |], (activeTool s),
         (resizeStartInfo s) as [ri |];
    try (split; reflexivity).
  all: try (destruct (mapThrow _ (elements s)); split; reflexivity).
  all: try (destruct (resizeGeometry _ _) as [[[x y] w] h]; split; reflexivity).
  all: cbn [Tool_eqb andb];
    try (destruct (truthy (currentDrawingElementId s)); split; reflexivity).
  all: destruct (getElementAtPosition _ _ (elements s));
    split; autorewrite with frame; reflexivity.
Qed.

Lemma handleMouseUp_commits (s : AppState) :
  atMostOneCommit s (handleMouseUp s) /\ elements (handleMouseUp s) = elements s.
Proof.
  unfold handleMouseUp.
  destruct (croppingState s) as [cs |], (cropStartInfo s) as [info |];
    try (split; [same_history | reflexivity]).
  all: destruct (action s), (activeTool s), (selectionBox s) as [box |];
    cbn [Action_eqb Tool_eqb isShapeTool andb];
    try (split; [history_effect | reflexivity]).
  all: try (destruct (truthy (currentDrawingElementId s));
            (split; [history_effect | reflexivity])).
  all: try (destruct (selectedElement s) as [sel |];
            (split; [history_effect | reflexivity])).
  all: try (destruct (resizeStartInfo s) as [ri |];
            try (split; [history_effect | reflexivity])).
  all: match goal with
       | |- context [find ?f ?l] => destruct (find f l)
       end; (split; [history_effect | reflexivity]).
Qed.

Lemma wellFormed_after_commit (s s' : AppState) :
  historyWellFormed s -> atMostOneCommit s s' -> historyWellFormed s'.
Proof.
  unfold historyWellFormed, cursorValid.
  intros [Hv Hh] [[E1 E2] | [d [E1 E2]]]; rewrite E1, E2.
  - split; assumption.
  - rewrite length_app. cbn [List.length]. split; [lia |].
    destruct (history s) as [| first rest]; [simpl in Hv; lia |].
    cbn [firstn app hd_error]. exact Hh.
Qed.

Lemma wellFormed_same (s s' : AppState) :
  historyWellFormed s -> history s' = history s -> historyIndex s' = historyIndex s ->
  historyWellFormed s'.
Proof. intros H E1 E2. apply (wellFormed_after_commit s s' H). left. split; assumption. Qed.

Lemma wellFormed_undo (s : AppState) : historyWellFormed s -> historyWellFormed (handleUndo s).
Proof.
  intros [Hv Hh]. split; [apply handleUndo_cursorValid; exact Hv |].
  rewrite handleUndo_history. exact Hh.
Qed.

Lemma wellFormed_redo (s : AppState) : historyWellFormed s -> historyWellFormed (handleRedo s).
Proof.
  intros [Hv Hh]. split; [apply handleRedo_cursorValid; exact Hv |].
  rewrite handleRedo_history. exact Hh.
Qed.

Lemma handleDelete_commits (s : AppState) : atMostOneCommit s (handleDelete s).
Proof.
  unfold handleDelete.
  destruct (selectedElementIds s); [destruct (selectedElement s) |];
    unfold replaceDocument; history_effect.
Qed.

Lemma handleLayerAction_commits (id : string) (act : LayerAction) (s : AppState) :
  atMostOneCommit s (handleLayerAction id act s).
Proof.
  unfold handleLayerAction.
  destruct (findIndex _ (elements s)) as [i |]; [| apply atMostOneCommit_refl].
  destruct (nth_error (elements s) i); [| apply atMostOneCommit_refl].
  apply atMostOneCommit_replaceDocument.
Qed.

Lemma handleGenerateArt_commits (fresh : string) (b : Browser)
      (editImage : list InputImage -> string -> Settled ServiceResult)
      (prompt : string) (s : AppState) :
  atMostOneCommit s (fst (handleGenerateArt fresh b editImage prompt s)).
Proof.
  unfold handleGenerateArt, failGeneration, replaceDocument.
  destruct (trimsToEmpty prompt); [apply atMostOneCommit_refl |].
  destruct (gatherInputs b s) as [inputs | m]; [| same_history].
  destruct (editImage inputs prompt) as [result | m]; [| same_history].
  destruct (newImageBase64 result) as [b64 |], (newImageMimeType result) as [mime |];
    try same_history.
  destruct (truthy (Some b64) && truthy (Some mime)); cbn [fst]; history_effect.
Qed.

Lemma handleDrop_loading (closure : AppState) (files : list DroppedFile) (st : AppState) :
  handleDrop closure files st
  = fold_left (fun cur p => imageLoaded closure (fst p) (snd p) cur) (loadingImages files) st.
Proof.
  unfold handleDrop, loadingImages. revert st.
  induction files as [| f rest IH]; intros st; [reflexivity |].
  cbn [fold_left flat_map]. rewrite fold_left_app.
  destruct (String.prefix "image/" (fileType f)); [| apply IH].
  destruct (fileImage f) as [img |]; apply IH.
Qed.

Lemma handleDrop_commits (s : AppState) (files : list DroppedFile) :
  atMostOneCommit s (handleDrop s files s).
Proof.
  rewrite handleDrop_loading.
  destruct (loadingImages files) as [| p rest] using rev_ind; [apply atMostOneCommit_refl |].
  rewrite fold_left_app. cbn [fold_left]. right. eexists. split; reflexivity.
Qed.

Lemma step_wellFormed (ev : Event) (s : AppState) :
  historyWellFormed s -> historyWellFormed (step ev s).
Proof.
  intros H. destruct ev; cbn [step].
  - apply (wellFormed_after_commit s _ H). apply handleMouseDown_commits.
  - destruct (handleMouseMove_keeps_history rect event s) as [E1 E2].
    apply (wellFormed_same s _ H E1 E2).
  - apply (wellFormed_after_commit s _ H). apply handleMouseUp_commits.
  - assert (K : historyWellFormed (handleKeyDown e s)).
    { unfold handleKeyDown. destruct (appKeyCommand e s).
      - apply wellFormed_undo. exact H.
      - apply wellFormed_redo. exact H.
      - apply (wellFormed_after_commit s _ H). apply handleDelete_commits.
      - exact H. }
    apply (wellFormed_same _ _ K); unfold handleZoomKey;
      destruct (ctrlKey e || metaKey e); try reflexivity;
      destruct (String.eqb (key e) "=" || String.eqb (key e) "+"); try reflexivity;
      destruct (String.eqb (key e) "-"); reflexivity.
  - apply wellFormed_undo. exact H.
  - apply wellFormed_redo. exact H.
  - apply (wellFormed_same s _ H); reflexivity.
  - apply (wellFormed_same s _ H); unfold handleCopy; destruct (selectedElement s);
      reflexivity.
  - apply (wellFormed_after_commit s _ H). unfold handlePaste.
    destruct (clipboard s);
      [apply atMostOneCommit_replaceDocument | apply atMostOneCommit_refl].
  - apply (wellFormed_after_commit s _ H). apply handleDelete_commits.
  - apply (wellFormed_after_commit s _ H). unfold handleDeleteElement.
    destruct (selectedElement s); unfold replaceDocument; history_effect.
  - apply (wellFormed_after_commit s _ H). apply handleLayerAction_commits.
  - apply (wellFormed_after_commit s _ H). apply atMostOneCommit_replaceDocument.
  - apply (wellFormed_same s _ H); unfold handleStartCrop;
      destruct (selectedElement s) as [[i | sh | p] |]; reflexivity.
  - apply (wellFormed_after_commit s _ H). unfold handleConfirmCrop.
    destruct (croppingState s); unfold replaceDocument; history_effect.
  - apply (wellFormed_same s _ H); reflexivity.
  - apply (wellFormed_after_commit s _ H). apply atMostOneCommit_replaceDocument.
  - apply (wellFormed_after_commit s _ H). apply handleDrop_commits.
  - apply (wellFormed_after_commit s _ H). apply handleGenerateArt_commits.
Qed.

Lemma undo_to_first_entry (k : nat) (s : AppState) :
  historyIndex s = k -> (0 < k)%nat ->
  elements (times k handleUndo s) = snapshotAt s 0.
Proof.
  revert s. induction k as [| k IH]; intros s Hi Hk; [lia |].
  cbn [times].
  assert (U : handleUndo s = setElements (snapshotAt s k) (setHistoryIndex k s)).
  { unfold handleUndo. rewrite Hi. cbn [Nat.ltb Nat.leb].
    replace (S k - 1)%nat with k by lia. reflexivity. }
  destruct k as [| k'].
  - rewrite U. reflexivity.
  - rewrite (IH (handleUndo s)); [| rewrite U; reflexivity | lia].
    rewrite U. reflexivity.
Qed.

(** X24: the history stays well formed under every event.  After any
    sequence of pointer events, key presses and commands from the
    initial state, the cursor points inside the history and the first
    history entry is the empty document; hence, whenever the cursor is
    not at the first entry, undoing as many times as the cursor says
    ends at the empty document.  (With the cursor at the first entry
    undo does nothing, and a document that is not committed yet, as in
    the middle of a first gesture, stays.) *)
Theorem history_is_well_formed (events : list Event) :
  let s := run events initialState in
  (historyIndex s < List.length (history s))%nat /\
  hd_error (history s) = Some [] /\
  ((0 < historyIndex s)%nat -> elements (times (historyIndex s) handleUndo s) = []).
Proof.
  intros s.
  assert (W : historyWellFormed s).
  { unfold s, run.
    assert (G : forall evs st, historyWellFormed st ->
                               historyWellFormed (fold_left (fun st ev => step ev st) evs st)).
    { induction evs as [| ev rest IH]; intros st Hst; [exact Hst |].
      cbn [fold_left]. apply IH. apply step_wellFormed. exact Hst. }
    apply G. split; [unfold cursorValid; simpl; lia | reflexivity]. }
  destruct W as [Hv Hh]. split; [exact Hv |]. split; [exact Hh |].
  intros Hpos. rewrite (undo_to_first_entry (historyIndex s) s eq_refl Hpos).
  unfold snapshotAt. destruct (history s) as [| first rest]; [reflexivity |].
  inversion Hh. reflexivity.
Qed.

(** X25: how the three pointer handlers touch the history, on every
    state.  Pointer-move never changes the history or its cursor, so
    the intermediate states of a drag are never committed; pointer-up
    never changes the live document and adds one history entry at most;
    pointer-down adds one entry at most, and none unless the erase tool
    is active. *)
Theorem pointer_handlers_and_history (fresh : string) (rect : option DOMRect)
        (event : PointerEvent) (s : AppState) :
  (history (handleMouseMove rect event s) = history s /\
   historyIndex (handleMouseMove rect event s) = historyIndex s) /\
  (elements (handleMouseUp s) = elements s /\ atMostOneCommit s (handleMouseUp s)) /\
  atMostOneCommit s (handleMouseDown fresh rect event s) /\
  (activeTool s <> erase ->
   history (handleMouseDown fresh rect event s) = history s /\
   historyIndex (handleMouseDown fresh rect event s) = historyIndex s).
Proof.
  split; [apply handleMouseMove_keeps_history |].
  split; [destruct (handleMouseUp_commits s) as [A B]; split; assumption |].
  split; [apply handleMouseDown_commits |].
  intros Hne. unfold handleMouseDown.
  destruct rect as [r |]; [| split; reflexivity].
  destruct (croppingState s); [split; reflexivity |].
  destruct (activeTool s); try (elim Hne; reflexivity).
  - destruct (resizeTarget s event) as [[h b] |]; [split; reflexivity |].
    destruct (getElementAtPosition _ _ (elements s)); split; reflexivity.
  - split; reflexivity.
  - destruct (createElement fresh draw _ _) as [[i | sh | p] |]; split; reflexivity.
  - destruct (createElement fresh rectangle _ _) as [[i | sh | p] |]; split; reflexivity.
  - destruct (createElement fresh circle _ _) as [[i | sh | p] |]; split; reflexivity.
  - destruct (createElement fresh triangle _ _) as [[i | sh | p] |]; split; reflexivity.
Qed.

(** X26: dropping several image files keeps only the one that finishes
    loading last.  Every load callback of a drop appends its image to
    the document of the render that handled the drop and commits on
    that render's history, so after the last callback the document is
    that document plus the last image alone, with one new history
    entry, whatever the earlier callbacks did; a drop none of whose
    files is an image that loads changes nothing. *)
Theorem drop_keeps_last_loaded_image (closure : AppState) (files : list DroppedFile)
        (st : AppState) :
  (loadingImages files = [] -> handleDrop closure files st = st) /\
  (forall earlier f img,
      loadingImages files = earlier ++ [(f, img)] ->
      let added := Image (mkImage (fileId f) 100 100 (imgWidth img) (imgHeight img)
                            (imgSrc img) (fileType f)) in
      elements (handleDrop closure files st) = elements closure ++ [added] /\
      history (handleDrop closure files st)
      = firstn (S (historyIndex closure)) (history closure) ++ [elements closure ++ [added]] /\
      nth_error (history (handleDrop closure files st))
                (historyIndex (handleDrop closure files st))
      = Some (elements closure ++ [added])).
Proof.
  rewrite handleDrop_loading. split.
  - intros E. rewrite E. reflexivity.
  - intros earlier f img E added. rewrite E, fold_left_app. cbn [fold_left fst snd].
    split; [reflexivity |]. split; [reflexivity |].
    unfold imageLoaded. cbn [history historyIndex setHistoryIndex setHistory].
    rewrite length_app. cbn [List.length].
    replace (List.length (firstn (S (historyIndex closure)) (history closure)) + 1 - 1)%nat
      with (List.length (firstn (S (historyIndex closure)) (history closure)) + 0)%nat by lia.
    rewrite nth_error_app2 by lia.
    replace (_ + 0 - _)%nat with 0%nat by lia. reflexivity.
Qed.

(** ** Image generation *)

Lemma convertImage_inputFor (b : Browser) (el : ImageElement) (inp : InputImage) :
  convertImage b el = Fulfilled inp -> inputFor el inp.
Proof.
  unfold convertImage, inputFor.
  destruct (String.prefix "data:" (i_href el)) eqn:P.
  - intros E. inversion E. split; [reflexivity | left; reflexivity].
  - split; [discriminate |].
    destruct (domThrows b).
    + destruct (context2d b); inversion H. right. reflexivity.
    + destruct (loadImage b (i_href el) _); inversion H. cbn [in_mimeType].
      unfold orString. destruct (String.eqb (i_mimeType el) EmptyString);
        [right | left]; reflexivity.
Qed.

Lemma promiseAll_fulfilled {A B : Type} (f : A -> Settled B) (R : A -> B -> Prop) :
  (forall a b, f a = Fulfilled b -> R a b) ->
  forall l out, promiseAll (map f l) = Fulfilled out -> Forall2 R l out.
Proof.
  intros Hf. induction l as [| a rest IH]; intros out E; cbn [map promiseAll] in E.
  - inversion E. constructor.
  - destruct (f a) as [v | m] eqn:Fa; [| discriminate].
    destruct (promiseAll (map f rest)) as [vs | m]; [| discriminate].
    inversion E. constructor; [apply Hf; exact Fa | apply IH; reflexivity].
Qed.

Lemma gatherInputs_selected (b : Browser) (s : AppState) (inputs : list InputImage) :
  selectedImageElements s <> [] -> gatherInputs b s = Fulfilled inputs ->
  Forall2 inputFor (selectedImageElements s) inputs.
Proof.
  unfold gatherInputs. intros Hne E.
  destruct (selectedImageElements s) as [| el rest] eqn:Sel; [contradiction |].
  apply (promiseAll_fulfilled (convertImage b) inputFor (convertImage_inputFor b) _ _ E).
Qed.

Lemma handleGenerateArt_sent (fresh : string) (b : Browser)
      (editImage : list InputImage -> string -> Settled ServiceResult)
      (prompt : string) (s : AppState) :
  snd (handleGenerateArt fresh b editImage prompt s) = [] \/
  exists inputs, trimsToEmpty prompt = false /\ gatherInputs b s = Fulfilled inputs /\
                 snd (handleGenerateArt fresh b editImage prompt s) = [(inputs, prompt)].
Proof.
  unfold handleGenerateArt.
  destruct (trimsToEmpty prompt); [left; reflexivity |].
  destruct (gatherInputs b s) as [inputs | m]; [| left; reflexivity].
  right. exists inputs. split; [reflexivity |]. split; [reflexivity |].
  destruct (editImage inputs prompt) as [result | m]; [| reflexivity].
  destruct (newImageBase64 result), (newImageMimeType result); try reflexivity.
  destruct (truthy _ && truthy _); reflexivity.
Qed.

(** X27: what a generation request carries.  At most one request is
    sent, and none for a blank prompt; it carries the prompt and, when
    images are selected, one input per selected image in document
    order, an inline (data URL) image going through unchanged and every
    media type being the element's own or PNG; when no image is
    selected it carries the blank canvas alone, or nothing. *)
Theorem generation_request_inputs (fresh : string) (b : Browser)
        (editImage : list InputImage -> string -> Settled ServiceResult)
        (prompt : string) (s : AppState) :
  let sent := snd (handleGenerateArt fresh b editImage prompt s) in
  (List.length sent <= 1)%nat /\
  (trimsToEmpty prompt = true -> sent = []) /\
  (forall inputs p,
      In (inputs, p) sent ->
      p = prompt /\
      (selectedImageElements s <> [] -> Forall2 inputFor (selectedImageElements s) inputs) /\
      (selectedImageElements s = [] ->
       inputs = [] \/ inputs = [mkInput (blankPng b) "image/png"])).
Proof.
  intros sent.
  destruct (handleGenerateArt_sent fresh b editImage prompt s) as [E | [inputs [T [G E]]]];
    fold sent in E; rewrite E.
  - split; [cbn; lia |]. split; [reflexivity |]. intros inputs p [].
  - split; [cbn; lia |]. split; [rewrite T; discriminate |].
    intros inputs' p [Eq | []]. inversion Eq; subst inputs' p.
    split; [reflexivity |]. split.
    + intros Hne. apply (gatherInputs_selected b s inputs Hne G).
    + intros Hnil. unfold gatherInputs in G. rewrite Hnil in G.
      destruct (domThrows b); [discriminate |]. inversion G.
      destruct (context2d b); [right | left]; reflexivity.
Qed.

(** X28: what a generation does to the document.  The document changes
    only when a request was sent and the service answered with image
    data and a media type, both non-empty: then exactly one 512 by 512
    image at (100, 100) is appended, its link built from the answer;
    in every other case (blank prompt, failed input, rejected request,
    answer without an image) the document and the history are those of
    before.  The selection is never changed, and a run that starts
    always ends with the busy flag cleared. *)
Theorem generation_outcome (fresh : string) (b : Browser)
        (editImage : list InputImage -> string -> Settled ServiceResult)
        (prompt : string) (s : AppState) :
  let s' := fst (handleGenerateArt fresh b editImage prompt s) in
  let sent := snd (handleGenerateArt fresh b editImage prompt s) in
  ((elements s' = elements s /\ history s' = history s /\ historyIndex s' = historyIndex s) \/
   (exists inputs result b64 mime,
       sent = [(inputs, prompt)] /\
       editImage inputs prompt = Fulfilled result /\
       newImageBase64 result = Some b64 /\ newImageMimeType result = Some mime /\
       b64 <> EmptyString /\ mime <> EmptyString /\
       error s' = error s /\
       elements s'
       = elements s ++ [Image (mkImage fresh 100 100 512 512
                                 ("data:" ++ mime ++ ";base64," ++ b64)%string mime)])) /\
  selectedElementIds s' = selectedElementIds s /\
  (trimsToEmpty prompt = false -> isGenerating s' = false).
Proof.
  intros s' sent. unfold s', sent, handleGenerateArt, failGeneration.
  destruct (trimsToEmpty prompt).
  { split; [left; repeat split | split; [reflexivity | discriminate]]. }
  destruct (gatherInputs b s) as [inputs | m].
  2: { split; [left; repeat split | split; reflexivity]. }
  destruct (editImage inputs prompt) as [result | m] eqn:Ed.
  2: { split; [left; repeat split | split; reflexivity]. }
  destruct (newImageBase64 result) as [b64 |] eqn:B64,
           (newImageMimeType result) as [mime |] eqn:Mime;
    try (split; [left; repeat split | split; reflexivity]).
  destruct (truthy (Some b64) && truthy (Some mime)) eqn:T.
  2: { split; [left; repeat split | split; reflexivity]. }
  split; [| split; reflexivity].
  right. exists inputs, result, b64, mime.
  apply andb_true_iff in T. destruct T as [T1 T2]. unfold truthy in T1, T2.
  apply negb_true_iff in T1, T2.
  split; [reflexivity |]. split; [exact Ed |]. split; [exact B64 |].
  split; [exact Mime |].
  split; [intros ->; discriminate |]. split; [intros ->; discriminate |].
  split; reflexivity.
Qed.

(** ** The properties at concrete inputs *)

Lemma undo_redo_inverse_walks_witness :
  times 1 handleRedo (times 1 handleUndo midHistory) = midHistory /\
  times 1 handleUndo (times 1 handleRedo midHistory) = midHistory.
Proof.
  assert (V : cursorValid midHistory) by (vm_compute; lia).
  destruct (undo_redo_inverse_walks 1 midHistory V eq_refl) as [A B].
  split; [apply A | apply B]; vm_compute; lia.
Defined.

Lemma undo_reverts_command_witness :
  elements (handleUndo (replaceDocument [boxShape] shapeAndPhoto)) = elements shapeAndPhoto /\
  historyIndex (handleUndo (replaceDocument [boxShape] shapeAndPhoto))
  = historyIndex shapeAndPhoto /\
  elements (handleRedo (handleUndo (replaceDocument [boxShape] shapeAndPhoto))) = [boxShape].
Proof.
  apply (undo_reverts_command [boxShape] shapeAndPhoto); [vm_compute; lia | reflexivity].
Defined.

Lemma path_bounds_are_tight_witness :
  let b := getElementBounds (Path twoPointPath) in
  exists leftPt rightPt topPt bottomPt,
    In leftPt (p_points twoPointPath) /\ In rightPt (p_points twoPointPath) /\
    In topPt (p_points twoPointPath) /\ In bottomPt (p_points twoPointPath) /\
    (forall pt, In pt (p_points twoPointPath) ->
                px leftPt <= px pt /\ px pt <= px rightPt /\
                py topPt <= py pt /\ py pt <= py bottomPt) /\
    rx b == px leftPt /\ ry b == py topPt /\
    rwidth b == px rightPt - px leftPt /\
    rheight b == py bottomPt - py topPt /\
    0 <= rwidth b /\ 0 <= rheight b.
Proof.
  apply (proj2 (path_bounds_are_tight twoPointPath)). discriminate.
Defined.

Lemma rubber_band_is_monotone_witness :
  (forall e, isElementInSelectionBox e rubberBandBox = true ->
             isElementInSelectionBox e (mkRect (-10) (-10) 200 200) = true) /\
  (forall els id, In id (boxSelectedIds els rubberBandBox) ->
                  In id (boxSelectedIds els (mkRect (-10) (-10) 200 200))).
Proof.
  apply (rubber_band_is_monotone rubberBandBox (mkRect (-10) (-10) 200 200));
    vm_compute; discriminate.
Defined.

Lemma click_on_empty_spot_selects_point_paths_witness :
  let s' := gesture "unused" pageOrigin (pointerAt 1 1) [] dotOnly in
  let c := toCanvas dotOnly pageOrigin (pointerAt 1 1) in
  selectedElementIds s' = boxSelectedIds (elements dotOnly) (mkRect (px c) (py c) 0 0) /\
  selectedElement s' = None /\
  elements s' = elements dotOnly /\ history s' = history dotOnly /\
  forall e, In e (elements dotOnly) ->
            isElementInSelectionBox e (mkRect (px c) (py c) 0 0) = true ->
            exists p pt, e = Path p /\ p_points p = [pt] /\
                         px pt == px c /\ py pt == py c.
Proof.
  exact (click_on_empty_spot_selects_point_paths "unused" pageOrigin (pointerAt 1 1) dotOnly
           eq_refl eq_refl eq_refl eq_refl).
Defined.

Lemma shape_gesture_adds_spanned_shape_witness :
  let s := setActiveTool rectangle shapeAndPhoto in
  let c0 := toCanvas s pageOrigin (pointerAt 20 20) in
  let c1 := toCanvas s pageOrigin (pointerAt 60 70) in
  let afterDrag :=
    gesture "new" pageOrigin (pointerAt 20 20) ([pointerAt 25 30] ++ [pointerAt 60 70]) s in
  let afterClick := gesture "new" pageOrigin (pointerAt 20 20) [] s in
  (elements afterDrag = elements s ++ [drawnShape s "new" (spanRect c0 c1)] /\
   history afterDrag
   = firstn (S (historyIndex s)) (history s)
     ++ [elements s ++ [drawnShape s "new" (spanRect c0 c1)]] /\
   historyIndex afterDrag = S (historyIndex s) /\
   action afterDrag = none /\ currentDrawingElementId afterDrag = None) /\
  (elements afterClick = elements s ++ [drawnShape s "new" (mkRect (px c0) (py c0) 0 0)] /\
   history afterClick
   = firstn (S (historyIndex s)) (history s)
     ++ [elements s ++ [drawnShape s "new" (mkRect (px c0) (py c0) 0 0)]]).
Proof.
  apply (shape_gesture_adds_spanned_shape "new" pageOrigin (pointerAt 20 20)
           [pointerAt 25 30] (pointerAt 60 70) (setActiveTool rectangle shapeAndPhoto)).
  - reflexivity.
  - reflexivity.
  - discriminate.
  - intros e [<- | [<- | []]]; discriminate.
  - vm_compute; lia.
Defined.

Lemma draw_gesture_collects_points_witness :
  let s := setActiveTool draw shapeAndPhoto in
  let pts := toCanvas s pageOrigin (pointerAt 20 20)
             :: map (toCanvas s pageOrigin) [pointerAt 25 30; pointerAt 60 70] in
  let s' := gesture "new" pageOrigin (pointerAt 20 20) [pointerAt 25 30; pointerAt 60 70] s in
  elements s' = elements s ++ [drawnPath s "new" pts] /\
  history s'
  = firstn (S (historyIndex s)) (history s) ++ [elements s ++ [drawnPath s "new" pts]] /\
  historyIndex s' = S (historyIndex s) /\
  action s' = none /\ currentDrawingElementId s' = None.
Proof.
  apply (draw_gesture_collects_points "new" pageOrigin (pointerAt 20 20)
           [pointerAt 25 30; pointerAt 60 70] (setActiveTool draw shapeAndPhoto)).
  - reflexivity.
  - reflexivity.
  - discriminate.
  - intros e [<- | [<- | []]]; discriminate.
  - vm_compute; lia.
Defined.

Lemma select_drag_is_anchored_witness :
  let s := shapeAndPhoto in
  let s' := gesture "unused" pageOrigin (pointerAt 20 20)
                    ([pointerAt 25 30] ++ [pointerAt 60 70]) s in
  let click := gesture "unused" pageOrigin (pointerAt 20 20) [] s in
  (elements s' = elements (gesture "unused" pageOrigin (pointerAt 20 20) [pointerAt 60 70] s) /\
   history s' = firstn (S (historyIndex s)) (history s) ++ [elements s'] /\
   historyIndex s' = S (historyIndex s) /\ action s' = none /\
   selectedElement s' = Some boxShape /\ selectedElementIds s' = [el_id boxShape] /\
   clipboard (handleCopy s') = Some boxShape) /\
  (elements click = elements s /\
   history click = firstn (S (historyIndex s)) (history s) ++ [elements s]).
Proof.
  apply (select_drag_is_anchored "unused" pageOrigin (pointerAt 20 20)
           [pointerAt 25 30] (pointerAt 60 70) shapeAndPhoto boxShape);
    try reflexivity.
  vm_compute; lia.
Defined.

Lemma select_drag_translates_element_witness :
  let s := shapeAndPhoto in
  let dx := px (toCanvas s pageOrigin (pointerAt 60 70))
            - px (toCanvas s pageOrigin (pointerAt 20 20)) in
  let dy := py (toCanvas s pageOrigin (pointerAt 60 70))
            - py (toCanvas s pageOrigin (pointerAt 20 20)) in
  elements (gesture "unused" pageOrigin (pointerAt 20 20)
                    ([pointerAt 25 30] ++ [pointerAt 60 70]) s)
  = map (fun el => if String.eqb (el_id el) (el_id boxShape)
                   then translated dx dy boxShape else el)
        (elements s).
Proof.
  apply (select_drag_translates_element "unused" pageOrigin (pointerAt 20 20)
           [pointerAt 25 30] (pointerAt 60 70) shapeAndPhoto boxShape);
    try reflexivity.
  intros e' [<- | [<- | []]] E; [reflexivity | discriminate E].
Defined.


Lemma pan_gesture_telescopes_witness :
  let s := setActiveTool pan shapeAndPhoto in
  let s' := gesture "unused" pageOrigin (pointerAt 20 20)
                    ([pointerAt 25 30] ++ [pointerAt 60 70]) s in
  px (panOffset s') == px (panOffset s) + (clientX (pointerAt 60 70) - clientX (pointerAt 20 20)) /\
  py (panOffset s') == py (panOffset s) + (clientY (pointerAt 60 70) - clientY (pointerAt 20 20)) /\
  elements s' = elements s /\ action s' = none /\
  (selectedElement s = None ->
   history s' = history s /\ historyIndex s' = historyIndex s) /\
  (selectedElement s <> None ->
   history s' = firstn (S (historyIndex s)) (history s) ++ [elements s] /\
   historyIndex s' = S (historyIndex s)).
Proof.
  apply (pan_gesture_telescopes "unused" pageOrigin (pointerAt 20 20)
           [pointerAt 25 30] (pointerAt 60 70) (setActiveTool pan shapeAndPhoto));
    try reflexivity.
  vm_compute; lia.
Defined.

Lemma crop_gesture_translates_box_witness :
  let s := handleStartCrop photoSelected in
  let cs := mkCropping "photo" photo (mkRect 100 100 50 50) in
  let dx := px (toCanvas s pageOrigin (pointerAt 60 70))
            - px (toCanvas s pageOrigin (pointerAt 20 20)) in
  let dy := py (toCanvas s pageOrigin (pointerAt 60 70))
            - py (toCanvas s pageOrigin (pointerAt 20 20)) in
  let s' := gesture "unused" pageOrigin (pointerAt 20 20)
                    ([pointerAt 25 30] ++ [pointerAt 60 70]) s in
  croppingState s'
  = Some (mkCropping (elementId cs) (originalImage cs)
            (mkRect (rx (cropBox cs) + dx) (ry (cropBox cs) + dy)
                    (rwidth (cropBox cs)) (rheight (cropBox cs)))) /\
  elements s' = elements s /\ history s' = history s /\
  historyIndex s' = historyIndex s /\
  selectedElement s' = selectedElement s /\ selectedElementIds s' = selectedElementIds s /\
  activeTool s' = activeTool s /\ action s' = action s /\ cropStartInfo s' = None.
Proof.
  exact (crop_gesture_translates_box "unused" pageOrigin (pointerAt 20 20)
           [pointerAt 25 30] (pointerAt 60 70) (handleStartCrop photoSelected)
           (mkCropping "photo" photo (mkRect 100 100 50 50)) eq_refl).
Defined.

Lemma crop_confirm_without_drag_witness :
  let s := photoSelected in
  elements (handleConfirmCrop (handleStartCrop s)) = elements s /\
  croppingState (handleConfirmCrop (handleStartCrop s)) = None /\
  history (handleConfirmCrop (handleStartCrop s))
  = firstn (S (historyIndex s)) (history s) ++ [elements s] /\
  elements (handleCancelCrop (handleStartCrop s)) = elements s /\
  history (handleCancelCrop (handleStartCrop s)) = history s /\
  croppingState (handleCancelCrop (handleStartCrop s)) = None.
Proof.
  apply (crop_confirm_without_drag photoSelected photo); [reflexivity |].
  intros e' [<- | [<- | []]] E; [discriminate E | reflexivity].
Defined.

Lemma crop_after_drag_restores_position_witness :
  let s := shapeAndPhoto in
  let s' := gesture "unused" pageOrigin (pointerAt 110 110)
                    ([pointerAt 120 130] ++ [pointerAt 200 40]) s in
  selectedElement s' = Some (Image photo) /\
  elements (handleConfirmCrop (handleStartCrop s')) = elements s.
Proof.
  apply (crop_after_drag_restores_position "unused" pageOrigin (pointerAt 110 110)
           [pointerAt 120 130] (pointerAt 200 40) shapeAndPhoto photo);
    try reflexivity.
  intros e' [<- | [<- | []]] E; [discriminate E | reflexivity].
Defined.

Lemma layer_action_permutes_witness :
  handleLayerAction "ghost" front rubberBandState = rubberBandState /\
  history (handleLayerAction "inside" front rubberBandState)
  = firstn (S (historyIndex rubberBandState)) (history rubberBandState)
    ++ [elements (handleLayerAction "inside" front rubberBandState)].
Proof.
  split.
  - apply (proj1 (layer_action_permutes "ghost" front rubberBandState)).
    intros e [<- | [<- | [<- | []]]]; discriminate.
  - apply (proj2 (proj2 (layer_action_permutes "inside" front rubberBandState))).
    exists shapeInside. split; [left |]; reflexivity.
Defined.

Lemma layer_action_moves_one_step_witness :
  let s := rubberBandState in
  elements (handleLayerAction "overlapping" front s)
  = [shapeInside] ++ [shapeOutside] ++ [shapeOverlapping] /\
  elements (handleLayerAction "overlapping" back s)
  = shapeOverlapping :: [shapeInside] ++ [shapeOutside] /\
  (forall next B', [shapeOutside] = next :: B' ->
                   elements (handleLayerAction "overlapping" forward s)
                   = [shapeInside] ++ next :: shapeOverlapping :: B') /\
  ([shapeOutside] = [] -> elements (handleLayerAction "overlapping" forward s) = elements s) /\
  (forall A' previous, [shapeInside] = A' ++ [previous] ->
                       elements (handleLayerAction "overlapping" backward s)
                       = A' ++ shapeOverlapping :: previous :: [shapeOutside]) /\
  ([shapeInside] = [] -> elements (handleLayerAction "overlapping" backward s) = elements s).
Proof.
  apply (layer_action_moves_one_step "overlapping" rubberBandState
           [shapeInside] [shapeOutside] shapeOverlapping); try reflexivity.
  intros a [<- | []]; discriminate.
Defined.

Lemma layer_forward_backward_round_trip_witness :
  elements (handleLayerAction (el_id shapeInside) backward
              (handleLayerAction (el_id shapeInside) forward rubberBandState))
  = elements rubberBandState /\
  elements (handleLayerAction (el_id shapeOverlapping) forward
              (handleLayerAction (el_id shapeOverlapping) backward rubberBandState))
  = elements rubberBandState.
Proof.
  assert (U : uniqueIds (elements rubberBandState)).
  { unfold uniqueIds. cbn.
    repeat (constructor; [cbn; intuition discriminate |]). constructor. }
  split.
  - exact (proj1 (layer_forward_backward_round_trip rubberBandState []
                    [shapeOutside] shapeInside shapeOverlapping) eq_refl U).
  - exact (proj2 (layer_forward_backward_round_trip rubberBandState []
                    [shapeOutside] shapeOverlapping shapeInside) eq_refl U).
Defined.

Lemma fill_change_keeps_geometry_witness :
  let s' := handleFillColorChange "photo" "#ff0000" shapeAndPhoto in
  elements s' = elements shapeAndPhoto /\
  history s'
  = firstn (S (historyIndex shapeAndPhoto)) (history shapeAndPhoto)
    ++ [elements shapeAndPhoto].
Proof.
  apply (proj2 (proj2 (proj2 (proj2
           (fill_change_keeps_geometry "photo" "#ff0000" shapeAndPhoto))))).
  intros sh [E | [E | []]]; [inversion E; discriminate | discriminate E].
Defined.

Lemma rubber_band_then_delete_witness :
  let s := rubberBandState in
  let s' := handleDelete (handleMouseUp s) in
  elements s' = filter (fun el => negb (isElementInSelectionBox el rubberBandBox)) (elements s) /\
  selectedElementIds s' = [] /\
  (boxSelectedIds (elements s) rubberBandBox <> [] ->
   history s' = firstn (S (historyIndex s)) (history s) ++ [elements s']) /\
  (boxSelectedIds (elements s) rubberBandBox = [] -> history s' = history s).
Proof.
  apply (rubber_band_then_delete rubberBandState rubberBandBox); try reflexivity.
  unfold uniqueIds. cbn.
  repeat (constructor; [cbn; intuition discriminate |]). constructor.
Defined.

Lemma zoom_keys_keep_size_in_range_witness :
  let keys := [mkKey "=" true false false false; mkKey "-" false true false false;
               mkKey "-" true false false false; mkKey "a" false false false false] in
  let s' := fold_left (fun st e => handleZoomKey e st) keys initialState in
  50 <= canvasSize s' /\ canvasSize s' <= 200 /\ ~ canvasSize s' / 100 == 0 /\
  elements s' = elements initialState /\ history s' = history initialState /\
  historyIndex s' = historyIndex initialState.
Proof.
  apply (zoom_keys_keep_size_in_range
           [mkKey "=" true false false false; mkKey "-" false true false false;
            mkKey "-" true false false false; mkKey "a" false false false false]
           initialState); vm_compute; discriminate.
Defined.

Lemma key_commands_witness :
  appKeyCommand (mkKey "z" true false true true) shapeAndPhoto = KeyUndo /\
  (targetIsInput (mkKey "Backspace" false false false false) = false /\
   (key (mkKey "Backspace" false false false false) = "Delete" \/
    key (mkKey "Backspace" false false false false) = "Backspace") /\
   (selectedElement photoSelected <> None \/ selectedElementIds photoSelected <> [])).
Proof.
  split.
  - apply (proj2 (proj1 (key_commands (mkKey "z" true false true true) shapeAndPhoto))).
    split; reflexivity.
  - exact (proj2 (proj2 (key_commands (mkKey "Backspace" false false false false)
                           photoSelected)) eq_refl).
Defined.

Lemma history_is_well_formed_witness :
  (0 < historyIndex (run drawingSession initialState))%nat /\
  elements (times (historyIndex (run drawingSession initialState)) handleUndo
                  (run drawingSession initialState)) = [].
Proof.
  assert (P : (0 < historyIndex (run drawingSession initialState))%nat)
    by (vm_compute; lia).
  split; [exact P |].
  exact (proj2 (proj2 (history_is_well_formed drawingSession)) P).
Defined.

Lemma pointer_handlers_and_history_witness :
  history (handleMouseDown "unused" (Some pageOrigin) (pointerAt 20 20) shapeAndPhoto)
  = history shapeAndPhoto /\
  historyIndex (handleMouseDown "unused" (Some pageOrigin) (pointerAt 20 20) shapeAndPhoto)
  = historyIndex shapeAndPhoto.
Proof.
  apply (proj2 (proj2 (proj2 (pointer_handlers_and_history "unused" (Some pageOrigin)
                                (pointerAt 20 20) shapeAndPhoto)))).
  discriminate.
Defined.

Lemma drop_keeps_last_loaded_image_witness :
  let closure := shapeAndPhoto in
  let files := [pngFile; textFile; jpegFile] in
  let added := Image (mkImage "file_b" 100 100 32 32 "data:image/jpeg;base64,BBBB"
                        "image/jpeg") in
  elements (handleDrop closure files closure) = elements closure ++ [added] /\
  history (handleDrop closure files closure)
  = firstn (S (historyIndex closure)) (history closure) ++ [elements closure ++ [added]] /\
  nth_error (history (handleDrop closure files closure))
            (historyIndex (handleDrop closure files closure))
  = Some (elements closure ++ [added]).
Proof.
  exact (proj2 (drop_keeps_last_loaded_image shapeAndPhoto [pngFile; textFile; jpegFile]
                  shapeAndPhoto)
               [(pngFile, mkLoaded 640 480 "data:image/png;base64,AAAA")]
               jpegFile (mkLoaded 32 32 "data:image/jpeg;base64,BBBB") eq_refl).
Defined.

Lemma generation_request_inputs_witness :
  Forall2 inputFor (selectedImageElements twoImagesSelected)
          [mkInput "data:image/png;base64,AAAA" "image/png";
           mkInput "data:reencoded,https://example.com/b.png" "image/png"].
Proof.
  refine (proj1 (proj2 (proj2 (proj2 (generation_request_inputs "img_c" onlineBrowser
                                  echoService "merge them" twoImagesSelected))
                          [mkInput "data:image/png;base64,AAAA" "image/png";
                           mkInput "data:reencoded,https://example.com/b.png" "image/png"]
                          "merge them" _)) _).
  - left. reflexivity.
  - discriminate.
Defined.

Lemma generation_outcome_witness :
  isGenerating (fst (handleGenerateArt "img_c" onlineBrowser echoService "merge them"
                       twoImagesSelected)) = false.
Proof.
  exact (proj2 (proj2 (generation_outcome "img_c" onlineBrowser echoService "merge them"
                         twoImagesSelected)) eq_refl).
Defined.

(** ** Paths of fewer than two points *)

(** A click of the select tool where the hit-test finds nothing selects
    by the zero-size rubber band at the clicked point. *)
Lemma empty_click_selection (fresh : string) (rect : DOMRect) (down : PointerEvent)
      (s : AppState) :
  activeTool s = select -> croppingState s = None -> resizeTarget s down = None ->
  getElementAtPosition (px (toCanvas s rect down)) (py (toCanvas s rect down)) (elements s)
  = None ->
  selectedElementIds (gesture fresh rect down [] s)
  = boxSelectedIds (elements s)
      (mkRect (px (toCanvas s rect down)) (py (toCanvas s rect down)) 0 0) /\
  selectedElement (gesture fresh rect down [] s) = None /\
  elements (gesture fresh rect down [] s) = elements s.
Proof.
  intros Ht Hc Hr Hnone.
  unfold gesture. cbn [fold_left].
  unfold handleMouseDown. rewrite Hc, Ht, Hr, Hnone.
  unfold handleMouseUp.
  cbn [croppingState cropStartInfo action activeTool selectionBox elements
       setSelectionBox setAction setSelectedElementIds setSelectedElement set_startPoint].
  rewrite Hc, Ht. repeat split.
Qed.

(** The eraser removes the elements that carry the id of the element it
    hit; a path of fewer than two points is never the one hit. *)
Lemma eraser_spares_short_path (x y : Q) (els : list Element) (hit : Element)
      (p : PathElement) :
  getElementAtPosition x y els = Some hit ->
  In (Path p) els -> (List.length (p_points p) < 2)%nat -> idNamesOnly (Path p) els ->
  In (Path p) (removeId (el_id hit) els).
Proof.
  intros Hhit Hin Hshort Hown.
  apply hitTest_result_matches in Hhit. destruct Hhit as [Hh Hm].
  unfold removeId. apply filter_In. split; [exact Hin |].
  destruct (String.eqb (el_id (Path p)) (el_id hit)) eqn:E; [| reflexivity].
  apply String.eqb_eq in E. symmetry in E. apply (Hown hit Hh) in E. subst hit.
  apply matchesAt_path_two_points in Hm. lia.
Qed.

(** C10 (amended): the hit-test never returns a path with fewer than
    two points, so a path made of one point is not hit at that very
    point, is never made the selected element by pointer-down, and is
    never removed by the eraser unless it shares its id with the element
    that was hit.  It can still be selected: a click of the select tool
    exactly on its point finds nothing, opens a zero-size rubber band
    there, and pointer-up puts the path's id among the selected ids. *)
Theorem short_paths_are_selected_by_the_band_only :
  (forall (x y : Q) (els : list Element) (p : PathElement),
      getElementAtPosition x y els = Some (Path p) ->
      (2 <= List.length (p_points p))%nat) /\
  (forall (id : string) (x y : Q) (before after : list Element) (e : Element),
      createElement id draw x y = Some e ->
      getElementAtPosition x y (before ++ e :: after) <> Some e) /\
  (forall (fresh : string) (rect : DOMRect) (ev : PointerEvent) (s : AppState)
          (p : PathElement),
      activeTool s = select -> croppingState s = None -> resizeTarget s ev = None ->
      selectedElement (handleMouseDown fresh (Some rect) ev s) = Some (Path p) ->
      (2 <= List.length (p_points p))%nat) /\
  (forall (fresh : string) (rect : DOMRect) (ev : PointerEvent) (s : AppState)
          (p : PathElement),
      activeTool s = erase -> croppingState s = None ->
      In (Path p) (elements s) -> (List.length (p_points p) < 2)%nat ->
      idNamesOnly (Path p) (elements s) ->
      In (Path p) (elements (handleMouseDown fresh (Some rect) ev s)) /\
      (action s = drawing ->
       In (Path p) (elements (handleMouseMove (Some rect) ev s)))) /\
  (forall (fresh : string) (rect : DOMRect) (down : PointerEvent) (s : AppState)
          (p : PathElement) (pt : Point),
      activeTool s = select -> croppingState s = None -> resizeTarget s down = None ->
      getElementAtPosition (px (toCanvas s rect down)) (py (toCanvas s rect down))
                           (elements s) = None ->
      In (Path p) (elements s) -> p_points p = [pt] ->
      px pt == px (toCanvas s rect down) -> py pt == py (toCanvas s rect down) ->
      selectedElement (gesture fresh rect down [] s) = None /\
      In (p_id p) (selectedElementIds (gesture fresh rect down [] s))).
Proof.
  split; [exact (proj1 short_paths_are_never_hit) |].
  split; [exact (proj2 short_paths_are_never_hit) |].
  split; [exact click_never_selects_short_path |].
  split.
  - intros fresh rect ev s p Ht Hc Hin Hshort Hown. split.
    + unfold handleMouseDown. rewrite Hc, Ht.
      destruct (getElementAtPosition _ _ (elements s)) as [hit |] eqn:E;
        [| exact Hin].
      unfold deselectErased. destruct (selectedIs s (el_id hit)); cbn;
        apply (eraser_spares_short_path _ _ _ _ _ E Hin Hshort Hown).
    + intros Ha. unfold handleMouseMove. rewrite Hc, Ha, Ht.
      destruct (selectedElement s), (resizeStartInfo s);
        cbn [Tool_eqb andb];
        (destruct (getElementAtPosition _ _ (elements s)) as [hit |] eqn:E;
         [| exact Hin]);
        unfold deselectErased; destruct (selectedIs s (el_id hit)); cbn;
        apply (eraser_spares_short_path _ _ _ _ _ E Hin Hshort Hown).
  - intros fresh rect down s p pt Ht Hc Hr Hnone Hin Hpts Hx Hy.
    destruct (empty_click_selection fresh rect down s Ht Hc Hr Hnone) as [Ids [Sel _]].
    split; [exact Sel |].
    rewrite Ids. unfold boxSelectedIds.
    change (p_id p) with (el_id (Path p)). apply in_map. apply filter_In.
    split; [exact Hin |].
    apply isElementInSelectionBox_iff.
    generalize dependent (toCanvas s rect down). intros c _ Hx Hy _.
    cbn [inSelectionBox rx ry rwidth rheight]. exists pt. rewrite Hpts.
    split; [left; reflexivity |]. repeat split; lra.
Qed.

(** C10 as stated fails: after a draw-tool click at (1,1) has made a
    path of one point, a select-tool click at (1,1) selects it. *)
Lemma one_point_path_is_click_selected :
  exists p,
    elements (session dotSession initialState) = [Path p] /\
    List.length (p_points p) = 1%nat /\ p_id p = "dot" /\
    selectedElementIds (session dotSession initialState) = ["dot"].
Proof.
  eexists. split; [vm_compute; reflexivity |]. repeat split.
Qed.

Lemma short_paths_are_selected_by_the_band_only_witness :
  selectedElement (gesture "unused" pageOrigin (pointerAt 1 1) [] dotOnly) = None /\
  In "dot" (selectedElementIds (gesture "unused" pageOrigin (pointerAt 1 1) [] dotOnly)).
Proof.
  apply (proj2 (proj2 (proj2 (proj2 short_paths_are_selected_by_the_band_only)))
           "unused" pageOrigin (pointerAt 1 1) dotOnly
           (mkPath "dot" [mkPoint 1 1] "#000000" 5 0 0) (mkPoint 1 1));
    try reflexivity.
  left. reflexivity.
Defined.

(** ** The placeholders of paths along a session *)









(** *** The document of the next state *)


















(** *** From the facts of one call to the invariant *)




(** *** The handlers, one by one *)


























(** *** Images *)








(** *** Every event *)






